(** * Backtesting and parameter search of the trading desk, embedded in Rocq

    The development follows the two Python modules that make up the
    backtesting-and-optimization core:

    - [backend/services/backtesting_service.py] : strategy registry, the four
      strategy evaluators, the metrics calculator and [run_backtest];
    - [backend/agents/optimizer_agent.py] : grid, genetic and Bayesian search
      and the walk-forward analysis.

    Numbers.  A finite Python float is carried as the rational [Q] it
    denotes.  The strategy evaluators do their arithmetic through the float
    operations of the record [Extern] ([fadd], [fsub], [fmul], [fdiv] and
    the rounding [fconst] of a literal), so that what is proved of them
    holds for every arithmetic; the operations are instantiated twice, by
    the exact ones ([sample_lib]) and by binary64 ([binary64_lib], the
    IEEE 754 operations of [SpecFloat]).  The metrics calculator, the
    grid enumeration and the analyses of the optimizer are in exact
    arithmetic: rounding is not modelled there.  Where the source works with
    the special floats, they are explicit: an indicator value is an
    [option Q] with [None] for NaN (the warm-up prefix of every indicator
    series), and objective values live in [fl], which adds the two
    infinities and NaN.  A comparison with NaN is false, as in Python. *)

From Stdlib Require Import String List ZArith QArith Qabs Qround Lia Lqa Bool Arith.
From Stdlib Require Import SpecFloat.
Import ListNotations.

Local Open Scope Q_scope.

(** ** Numbers *)

Definition Qltb (x y : Q) : bool := negb (Qle_bool y x).

(** An indicator sample: [None] is NaN. *)
Definition ind := option Q.

(** [a < b] and [a <= b] on samples; [a > b] is written [ind_lt b a]. *)
Definition ind_lt (a b : ind) : bool :=
  match a, b with
  | Some x, Some y => Qltb x y
  | _, _ => false
  end.

Definition ind_le (a b : ind) : bool :=
  match a, b with
  | Some x, Some y => Qle_bool x y
  | _, _ => false
  end.

(** Python's [sum] over a list of numbers. *)
Definition Qsum (l : list Q) : Q := fold_left Qplus l 0.

(** Floats with the sentinels the source uses ([float('inf')],
    [float('-inf')]) and NaN. *)
Inductive fl : Type :=
| NegInf
| Fin (q : Q)
| PosInf
| NaN.

(** [a > b] on floats. *)
Definition fl_gt (a b : fl) : bool :=
  match a, b with
  | NaN, _ | _, NaN => false
  | NegInf, _ => false
  | Fin _, NegInf => true
  | Fin x, Fin y => Qltb y x
  | Fin _, PosInf => false
  | PosInf, PosInf => false
  | PosInf, _ => true
  end.

(** [a >= b] on floats. *)
Definition fl_ge (a b : fl) : bool :=
  match a, b with
  | NaN, _ | _, NaN => false
  | _, NegInf => true
  | NegInf, _ => false
  | Fin x, Fin y => Qle_bool y x
  | Fin _, PosInf => false
  | PosInf, _ => true
  end.

(** A parameter value: a Python [int] or [float]. *)
Inductive pval : Type :=
| VInt (z : Z)
| VFloat (q : Q).

Definition to_Q (v : pval) : Q :=
  match v with
  | VInt z => inject_Z z
  | VFloat q => q
  end.

Definition fl_neg (a : fl) : fl :=
  match a with
  | NegInf => PosInf
  | Fin q => Fin (- q)
  | PosInf => NegInf
  | NaN => NaN
  end.

(** ** Exceptions *)

Inductive exn : Type :=
| ValueError (msg : string)
| ZeroDivisionError
| IndexError
| AttributeError
| KeyError
| ExternalError (msg : string).

Inductive result (A : Type) : Type :=
| Ok (a : A)
| Raise (e : exn).
Arguments Ok {A} a.
Arguments Raise {A} e.

(** Dictionaries keep insertion order, which the grid enumeration depends
    on; they are association lists, read at the first binding of a key. *)
Fixpoint dict_get {V : Type} (k : string) (d : list (string * V)) : option V :=
  match d with
  | [] => None
  | (k', v) :: d' => if String.eqb k k' then Some v else dict_get k d'
  end.

Definition dict_mem {V : Type} (k : string) (d : list (string * V)) : bool :=
  match dict_get k d with Some _ => true | None => false end.

(** * backtesting_service.py *)

Module Backtesting.

(** ** Data model *)

(** One row of the OHLCV frame; the evaluators read the index and
    [close] only.  The index is a timestamp in seconds. *)
Record Bar : Type := {
  timestamp : Z;
  close : Q
}.

Inductive ExitReason : Type :=
| RSI_OVERBOUGHT
| MACD_SIGNAL
| MA_CROSSOVER
| BB_MIDDLE
| STOP_LOSS
| TAKE_PROFIT.

(** The [position] dict; its ['type'] is always ['LONG']. *)
Record Position : Type := {
  entry_price : Q;
  entry_time : Z;
  quantity : Q;
  stop_loss : Q;
  take_profit : Q
}.

Record Trade : Type := {
  t_entry_time : Z;
  t_exit_time : Z;
  t_entry_price : Q;
  t_exit_price : Q;
  t_quantity : Q;
  pnl : Q;
  pnl_pct : Q;
  exit_reason : ExitReason;
  duration_hours : Q
}.

(** The local variables of an evaluator loop. *)
Record SimState : Type := {
  trades : list Trade;
  equity_curve : list Q;
  current_capital : Q;
  position : option Position
}.

(** ** Strategy registry ([_load_strategies]) *)

(** The defaults and bounds keep the kind of their literal: [14] is an
    int, [0.02] a float. *)
Record ParamConfig : Type := {
  cfg_default : pval;
  cfg_min : pval;
  cfg_max : pval
}.

Record StrategyConfig : Type := {
  name : string;
  parameters : list (string * ParamConfig)
}.

Definition cfg (d lo hi : pval) : ParamConfig :=
  {| cfg_default := d; cfg_min := lo; cfg_max := hi |}.

Definition icfg (d lo hi : Z) : ParamConfig := cfg (VInt d) (VInt lo) (VInt hi).
Definition fcfg (d lo hi : Q) : ParamConfig := cfg (VFloat d) (VFloat lo) (VFloat hi).

Definition strategies : list (string * StrategyConfig) :=
  [ ("rsi_strategy"%string,
     {| name := "RSI Strategy";
        parameters :=
          [ ("rsi_period"%string, icfg 14 5 50);
            ("oversold_level"%string, icfg 30 20 40);
            ("overbought_level"%string, icfg 70 60 80);
            ("stop_loss"%string, fcfg (2#100) (1#100) (5#100));
            ("take_profit"%string, fcfg (4#100) (2#100) (10#100)) ] |});
    ("macd_strategy"%string,
     {| name := "MACD Strategy";
        parameters :=
          [ ("fast_period"%string, icfg 12 8 20);
            ("slow_period"%string, icfg 26 20 35);
            ("signal_period"%string, icfg 9 5 15);
            ("stop_loss"%string, fcfg (25#1000) (1#100) (5#100));
            ("take_profit"%string, fcfg (5#100) (2#100) (10#100)) ] |});
    ("ma_crossover"%string,
     {| name := "Moving Average Crossover";
        parameters :=
          [ ("fast_ma"%string, icfg 20 10 50);
            ("slow_ma"%string, icfg 50 30 100);
            ("stop_loss"%string, fcfg (3#100) (1#100) (5#100));
            ("take_profit"%string, fcfg (6#100) (3#100) (12#100)) ] |});
    ("bollinger_bands"%string,
     {| name := "Bollinger Bands Strategy";
        parameters :=
          [ ("period"%string, icfg 20 10 30);
            ("std_dev"%string, fcfg 2 (15#10) (25#10));
            ("stop_loss"%string, fcfg (2#100) (1#100) (4#100));
            ("take_profit"%string, fcfg (4#100) (2#100) (8#100)) ] |}) ].

(** ** What the evaluators take from outside

    The float arithmetic of the machine: [fadd], [fsub], [fmul] and [fdiv]
    are the four operations on floats and [fconst q] is the float of a
    literal or of a parameter value [q].  In exact arithmetic they are the
    operations of [Q] and the identity; in binary64 each one rounds its
    result to the nearest float.

    The indicator series come from [ta] and [pandas], the Sharpe ratio from
    [numpy]; none of them is code of this repository.  A library call is
    given the parameter as the evaluator holds it, int or float, and may
    raise (a rolling window that is negative or not an integer does);
    when it returns, [f i] is the sample [.iloc[i]] of the series computed
    from the [close] column. *)
Record Extern : Type := {
  fadd : Q -> Q -> Q;
  fsub : Q -> Q -> Q;
  fmul : Q -> Q -> Q;
  fdiv : Q -> Q -> Q;
  fconst : Q -> Q;
  ta_rsi : list Q -> pval -> result (nat -> ind);
  ta_macd : list Q -> pval -> pval -> pval -> result (nat -> ind);
  ta_macd_signal : list Q -> pval -> pval -> pval -> result (nat -> ind);
  rolling_mean : list Q -> pval -> result (nat -> ind);
  bollinger_hband : list Q -> pval -> pval -> result (nat -> ind);
  bollinger_lband : list Q -> pval -> pval -> result (nat -> ind);
  bollinger_mavg : list Q -> pval -> pval -> result (nat -> ind);
  (** [np.mean(r) / np.std(r) * np.sqrt(252) if np.std(r) > 0 else 0] for
      [r = np.diff(equity_curve) / equity_curve[:-1]]. *)
  np_sharpe : list Q -> fl
}.

Definition bind {A B : Type} (r : result A) (f : A -> result B) : result B :=
  match r with
  | Ok a => f a
  | Raise e => Raise e
  end.

Notation "x <- c ;; k" := (bind c (fun x => k))
  (at level 61, c at next level, right associativity).

(** Division of two Python floats, which raises on a zero divisor.  (A
    numpy scalar gives an infinity or NaN there instead; the two agree on
    every non-zero divisor.) *)
Definition py_div (a b : Q) : result Q :=
  if Qeq_bool b 0 then Raise ZeroDivisionError else Ok (a / b).

(** [max(a, b)]: the first argument unless the second is larger. *)
Definition py_max (a b : Q) : Q := if Qltb a b then b else a.
Definition py_min (a b : Q) : Q := if Qltb b a then b else a.

(** [max(l)] and [min(l)] of a non-empty list [x :: l]. *)
Definition max_list (x : Q) (l : list Q) : Q := fold_left py_max l x.
Definition min_list (x : Q) (l : list Q) : Q := fold_left py_min l x.

(** [np.mean(l) if l else 0]. *)
Definition mean_or_0 (l : list Q) : Q :=
  match l with
  | [] => 0
  | _ => Qsum l / inject_Z (Z.of_nat (length l))
  end.

Section Service.

Variable X : Extern.

(** ** The evaluator loops *)

(** [params['k']] as the evaluator holds it.  [_execute_strategy] fills
    every key of the registry entry before it calls an evaluator, so the
    lookup does not fail there; the value for an absent key is never
    read. *)
Definition praw (params : list (string * pval)) (k : string) : pval :=
  match dict_get k params with Some v => v | None => VInt 0 end.

(** [params['k']] as a float operand: an int is converted to its float. *)
Definition pget (params : list (string * pval)) (k : string) : Q :=
  match dict_get k params with Some v => fconst X (to_Q v) | None => 0 end.

(** Opening a long position with 95% of the capital.  Prices come from
    numpy, where a division by zero gives an infinity or NaN instead of
    raising, so nothing raises inside a loop; infinities and NaN are not
    carried, and the model follows the source on the finite values that
    non-zero prices and capital give. *)
Definition open_position (params : list (string * pval)) (st : SimState)
    (current_price : Q) (ts : Z) : SimState :=
  let qty := fdiv X (fmul X (current_capital st) (fconst X (95#100))) current_price in
  {| trades := trades st;
     equity_curve := equity_curve st;
     current_capital := current_capital st;
     position :=
       Some {| entry_price := current_price;
               entry_time := ts;
               quantity := qty;
               stop_loss := fmul X current_price (fsub X 1 (pget params "stop_loss"));
               take_profit :=
                 fmul X current_price (fadd X 1 (pget params "take_profit")) |} |}.

(** Closing the position: the realised pnl goes to the capital
    ([current_capital += pnl]) and a trade is appended. *)
Definition close_position (st : SimState) (pos : Position)
    (current_price : Q) (ts : Z) (reason : ExitReason) : SimState :=
  let p := fmul X (fsub X current_price (entry_price pos)) (quantity pos) in
  {| trades := trades st ++
       [ {| t_entry_time := entry_time pos;
            t_exit_time := ts;
            t_entry_price := entry_price pos;
            t_exit_price := current_price;
            t_quantity := quantity pos;
            pnl := p;
            pnl_pct :=
              fmul X (fdiv X p (fmul X (entry_price pos) (quantity pos))) 100;
            exit_reason := reason;
            duration_hours := fdiv X (inject_Z (ts - entry_time pos)) 3600 |} ];
     equity_curve := equity_curve st;
     current_capital := fadd X (current_capital st) p;
     position := None |}.

(** [equity_curve.append(current_capital)], the last statement of every
    loop body. *)
Definition append_equity (st : SimState) : SimState :=
  {| trades := trades st;
     equity_curve := equity_curve st ++ [current_capital st];
     current_capital := current_capital st;
     position := position st |}.

Definition init_state (initial_capital : Q) : SimState :=
  {| trades := [];
     equity_curve := [initial_capital];
     current_capital := initial_capital;
     position := None |}.

(** The pairs [(i, df.iloc[i])] for [i in range(1, len(df))]. *)
Definition bars_from_1 (df : list Bar) : list (nat * Bar) :=
  tl (combine (seq 0 (length df)) df).

Definition run_loop (step : SimState -> nat * Bar -> SimState)
    (df : list Bar) (initial_capital : Q) : SimState :=
  fold_left step (bars_from_1 df) (init_state initial_capital).

Definition outcome (st : SimState) : list Trade * list Q :=
  (trades st, equity_curve st).

(** The loop of [_execute_rsi_strategy]; [rsi i] is [rsi.iloc[i]]. *)
Definition rsi_step (params : list (string * pval)) (rsi : nat -> ind)
    (st : SimState) (ib : nat * Bar) : SimState :=
  let '(i, bar) := ib in
  let current_price := close bar in
  let current_rsi := rsi i in
  append_equity
    match position st with
    | None =>
        if ind_lt current_rsi (Some (pget params "oversold_level"))
        then open_position params st current_price (timestamp bar)
        else st
    | Some pos =>
        if ind_lt (Some (pget params "overbought_level")) current_rsi
        then close_position st pos current_price (timestamp bar) RSI_OVERBOUGHT
        else if Qle_bool current_price (stop_loss pos)
        then close_position st pos current_price (timestamp bar) STOP_LOSS
        else if Qle_bool (take_profit pos) current_price
        then close_position st pos current_price (timestamp bar) TAKE_PROFIT
        else st
    end.

(** The loop of [_execute_macd_strategy]. *)
Definition macd_step (params : list (string * pval)) (macd_line macd_signal : nat -> ind)
    (st : SimState) (ib : nat * Bar) : SimState :=
  let '(i, bar) := ib in
  let current_price := close bar in
  let current_macd := macd_line i in
  let current_signal := macd_signal i in
  let prev_macd := macd_line (i - 1)%nat in
  let prev_signal := macd_signal (i - 1)%nat in
  append_equity
    match position st with
    | None =>
        if ind_le prev_macd prev_signal && ind_lt current_signal current_macd
        then open_position params st current_price (timestamp bar)
        else st
    | Some pos =>
        if ind_le prev_signal prev_macd && ind_lt current_macd current_signal
        then close_position st pos current_price (timestamp bar) MACD_SIGNAL
        else if Qle_bool current_price (stop_loss pos)
        then close_position st pos current_price (timestamp bar) STOP_LOSS
        else if Qle_bool (take_profit pos) current_price
        then close_position st pos current_price (timestamp bar) TAKE_PROFIT
        else st
    end.

(** The loop of [_execute_ma_crossover_strategy]: the position is closed
    by the bearish crossover only. *)
Definition ma_step (params : list (string * pval)) (fast_ma slow_ma : nat -> ind)
    (st : SimState) (ib : nat * Bar) : SimState :=
  let '(i, bar) := ib in
  let current_price := close bar in
  let current_fast_ma := fast_ma i in
  let current_slow_ma := slow_ma i in
  let prev_fast_ma := fast_ma (i - 1)%nat in
  let prev_slow_ma := slow_ma (i - 1)%nat in
  append_equity
    match position st with
    | None =>
        if ind_le prev_fast_ma prev_slow_ma && ind_lt current_slow_ma current_fast_ma
        then open_position params st current_price (timestamp bar)
        else st
    | Some pos =>
        if ind_le prev_slow_ma prev_fast_ma && ind_lt current_fast_ma current_slow_ma
        then close_position st pos current_price (timestamp bar) MA_CROSSOVER
        else st
    end.

(** The loop of [_execute_bollinger_strategy]: the position is closed at
    the middle band only. *)
Definition bollinger_step (params : list (string * pval)) (bb_lower bb_middle : nat -> ind)
    (st : SimState) (ib : nat * Bar) : SimState :=
  let '(i, bar) := ib in
  let current_price := close bar in
  let current_lower := bb_lower i in
  let current_middle := bb_middle i in
  append_equity
    match position st with
    | None =>
        if ind_le (Some current_price) current_lower
        then open_position params st current_price (timestamp bar)
        else st
    | Some pos =>
        if ind_le current_middle (Some current_price)
        then close_position st pos current_price (timestamp bar) BB_MIDDLE
        else st
    end.

(** ** [_execute_strategy] *)

(** [params[n] = parameters.get(n, config["default"])] for every
    parameter of the registry entry. *)
Definition resolve_params (sc : StrategyConfig) (user : list (string * pval))
  : list (string * pval) :=
  map (fun nc : string * ParamConfig =>
         (fst nc, match dict_get (fst nc) user with
                  | Some v => v
                  | None => cfg_default (snd nc)
                  end))
      (parameters sc).

(** The four evaluators: the indicator series first, each a library call
    that may raise, then the loop. *)
Definition execute_rsi_strategy (df : list Bar) (params : list (string * pval))
    (initial_capital : Q) : result (list Trade * list Q) :=
  rsi <- ta_rsi X (map close df) (praw params "rsi_period") ;;
  Ok (outcome (run_loop (rsi_step params rsi) df initial_capital)).

Definition execute_macd_strategy (df : list Bar) (params : list (string * pval))
    (initial_capital : Q) : result (list Trade * list Q) :=
  macd_line <- ta_macd X (map close df) (praw params "fast_period")
                 (praw params "slow_period") (praw params "signal_period") ;;
  macd_signal <- ta_macd_signal X (map close df) (praw params "fast_period")
                   (praw params "slow_period") (praw params "signal_period") ;;
  Ok (outcome (run_loop (macd_step params macd_line macd_signal) df initial_capital)).

Definition execute_ma_crossover_strategy (df : list Bar) (params : list (string * pval))
    (initial_capital : Q) : result (list Trade * list Q) :=
  fast_ma <- rolling_mean X (map close df) (praw params "fast_ma") ;;
  slow_ma <- rolling_mean X (map close df) (praw params "slow_ma") ;;
  Ok (outcome (run_loop (ma_step params fast_ma slow_ma) df initial_capital)).

Definition execute_bollinger_strategy (df : list Bar) (params : list (string * pval))
    (initial_capital : Q) : result (list Trade * list Q) :=
  bb_upper <- bollinger_hband X (map close df) (praw params "period")
                (praw params "std_dev") ;;
  bb_lower <- bollinger_lband X (map close df) (praw params "period")
                (praw params "std_dev") ;;
  bb_middle <- bollinger_mavg X (map close df) (praw params "period")
                 (praw params "std_dev") ;;
  Ok (outcome (run_loop (bollinger_step params bb_lower bb_middle) df initial_capital)).

(** The body of the [try] block.  [user] is [None] when the caller passed
    [None] for the parameters, on which [.get] raises. *)
Definition execute_strategy_body (strategy_name : string) (df : list Bar)
    (user : option (list (string * pval))) (initial_capital : Q)
  : result (list Trade * list Q) :=
  match dict_get strategy_name strategies with
  | None => Raise KeyError
  | Some sc =>
      match user with
      | None => Raise AttributeError
      | Some u =>
          let params := resolve_params sc u in
          if String.eqb strategy_name "rsi_strategy"
          then execute_rsi_strategy df params initial_capital
          else if String.eqb strategy_name "macd_strategy"
          then execute_macd_strategy df params initial_capital
          else if String.eqb strategy_name "ma_crossover"
          then execute_ma_crossover_strategy df params initial_capital
          else if String.eqb strategy_name "bollinger_bands"
          then execute_bollinger_strategy df params initial_capital
          else Raise (ValueError ("Estrategia no implementada: " ++ strategy_name))
      end
  end.

(** [except Exception: return [], [initial_capital]]. *)
Definition execute_strategy (strategy_name : string) (df : list Bar)
    (user : option (list (string * pval))) (initial_capital : Q)
  : list Trade * list Q :=
  match execute_strategy_body strategy_name df user initial_capital with
  | Ok r => r
  | Raise _ => ([], [initial_capital])
  end.

(** ** [_calculate_metrics] *)

(** The metrics dict, or the [{"error": ...}] dict of the handler. *)
Inductive Metrics : Type :=
| MetricsDict (kv : list (string * fl))
| MetricsError (e : exn).

(** [metrics.get(key, default)]; the error dict has no metric key. *)
Definition metrics_get (m : Metrics) (key : string) (default : fl) : fl :=
  match m with
  | MetricsDict kv => match dict_get key kv with Some v => v | None => default end
  | MetricsError _ => default
  end.

Definition of_nat (n : nat) : Q := inject_Z (Z.of_nat n).

Definition winning_trades (trades : list Trade) : list Trade :=
  filter (fun t => Qltb 0 (pnl t)) trades.

Definition losing_trades (trades : list Trade) : list Trade :=
  filter (fun t => Qltb (pnl t) 0) trades.

Definition gross_profit (trades : list Trade) : Q :=
  Qsum (map pnl (winning_trades trades)).

Definition gross_loss (trades : list Trade) : Q :=
  Qabs (Qsum (map pnl (losing_trades trades))).

(** [gross_profit / gross_loss if gross_loss > 0 else float('inf')]. *)
Definition profit_factor (trades : list Trade) : fl :=
  if Qltb 0 (gross_loss trades)
  then Fin (gross_profit trades / gross_loss trades)
  else PosInf.

(** The drawdown scan, with the running [peak] and [max_drawdown]. *)
Fixpoint drawdown_loop (values : list Q) (peak max_drawdown : Q) : result Q :=
  match values with
  | [] => Ok max_drawdown
  | value :: rest =>
      let peak' := if Qltb peak value then value else peak in
      drawdown <- py_div (peak' - value) peak' ;;
      drawdown_loop rest peak' (py_max max_drawdown drawdown)
  end.

Definition zero_metrics : list (string * fl) :=
  [ ("total_trades"%string, Fin 0);
    ("total_return"%string, Fin 0);
    ("total_return_pct"%string, Fin 0);
    ("win_rate"%string, Fin 0);
    ("profit_factor"%string, Fin 0);
    ("sharpe_ratio"%string, Fin 0);
    ("max_drawdown"%string, Fin 0);
    ("average_trade"%string, Fin 0);
    ("largest_win"%string, Fin 0);
    ("largest_loss"%string, Fin 0) ].

(** The body of the [try] block. *)
Definition calculate_metrics_body (trades : list Trade) (equity_curve : list Q)
    (initial_capital : Q) : result (list (string * fl)) :=
  match trades with
  | [] => Ok zero_metrics
  | t0 :: ts =>
      let total_trades := length trades in
      let winning := winning_trades trades in
      let losing := losing_trades trades in
      let total_pnl := Qsum (map pnl trades) in
      let final_capital := last equity_curve initial_capital in
      r <- py_div (final_capital - initial_capital) initial_capital ;;
      let total_return_pct := r * 100 in
      let win_rate := of_nat (length winning) / of_nat total_trades in
      let sharpe_ratio :=
        if (1 <? length equity_curve)%nat then np_sharpe X equity_curve else Fin 0 in
      peak <- match equity_curve with
              | [] => Raise IndexError
              | v :: _ => Ok v
              end ;;
      max_drawdown <- drawdown_loop equity_curve peak 0 ;;
      Ok [ ("total_trades"%string, Fin (of_nat total_trades));
           ("winning_trades"%string, Fin (of_nat (length winning)));
           ("losing_trades"%string, Fin (of_nat (length losing)));
           ("total_return"%string, Fin total_pnl);
           ("total_return_pct"%string, Fin total_return_pct);
           ("win_rate"%string, Fin win_rate);
           ("profit_factor"%string, profit_factor trades);
           ("sharpe_ratio"%string, sharpe_ratio);
           ("max_drawdown"%string, Fin max_drawdown);
           ("average_trade"%string, Fin (total_pnl / of_nat total_trades));
           ("average_win"%string, Fin (mean_or_0 (map pnl winning)));
           ("average_loss"%string, Fin (mean_or_0 (map pnl losing)));
           ("largest_win"%string, Fin (max_list (pnl t0) (map pnl ts)));
           ("largest_loss"%string, Fin (min_list (pnl t0) (map pnl ts)));
           ("final_capital"%string, Fin final_capital);
           ("total_duration_hours"%string, Fin (Qsum (map duration_hours trades)));
           ("average_duration_hours"%string,
             Fin (mean_or_0 (map duration_hours trades))) ]
  end.

(** [except Exception as e: return {"error": str(e)}]. *)
Definition calculate_metrics (trades : list Trade) (equity_curve : list Q)
    (initial_capital : Q) : Metrics :=
  match calculate_metrics_body trades equity_curve initial_capital with
  | Ok kv => MetricsDict kv
  | Raise e => MetricsError e
  end.

(** ** [run_backtest] *)

Section Runner.

(** The state of the outside world (the exchange), threaded through every
    call that reaches it. *)
Variable world : Type.

(** [binance_service.get_historical_data(symbol, "1h", periods)]. *)
Variable binance_get_historical_data :
  string -> Z -> world -> result (list Bar) * world.

(** The request dict.  Dates are day numbers (days since 1970-01-01), the
    value of the parsed ["%Y-%m-%d"] strings. *)
Record BacktestParams : Type := {
  bp_strategy_name : string;
  bp_symbol : string;
  bp_start_date : Z;
  bp_end_date : Z;
  bp_initial_capital : option Q;
  bp_parameters : option (list (string * pval))
}.

Record BacktestReport : Type := {
  r_strategy_name : string;
  r_symbol : string;
  r_start_date : Z;
  r_end_date : Z;
  r_initial_capital : Q;
  r_final_capital : Q;
  r_parameters : option (list (string * pval));
  r_metrics : Metrics;
  r_trades : list Trade;
  r_equity_curve : list Q;
  r_data_points : nat
}.

(** The returned dict: ["success": True] with the report, or
    ["success": False] with the message of the exception.  The
    ["execution_time"] stamp of the report, the wall clock, is left out. *)
Inductive BacktestResult : Type :=
| Success (r : BacktestReport)
| Failure (error strategy_name symbol : string).

Definition is_success (r : BacktestResult) : bool :=
  match r with Success _ => true | Failure _ _ _ => false end.

(** [backtest_result.get("metrics", {})]. *)
Definition result_metrics (r : BacktestResult) : Metrics :=
  match r with
  | Success rep => r_metrics rep
  | Failure _ _ _ => MetricsDict []
  end.

(** [_get_historical_data]: at most 1000 hourly bars, cut to the date
    range; any exception gives the empty frame. *)
Definition get_historical_data (symbol : string) (start_date end_date : Z)
    (w : world) : list Bar * world :=
  let days_diff := (end_date - start_date)%Z in
  let periods := Z.min (days_diff * 24) 1000 in
  match binance_get_historical_data symbol periods w with
  | (Ok df, w') =>
      (filter (fun b => (start_date * 86400 <=? timestamp b)%Z
                        && (timestamp b <=? end_date * 86400)%Z) df, w')
  | (Raise _, w') => ([], w')
  end.

Definition run_backtest (bp : BacktestParams) (w : world) : BacktestResult * world :=
  let strategy_name := bp_strategy_name bp in
  let symbol := bp_symbol bp in
  let initial_capital :=
    match bp_initial_capital bp with Some c => c | None => 1000 end in
  if negb (dict_mem strategy_name strategies)
  then (Failure ("Estrategia no encontrada: " ++ strategy_name) strategy_name symbol, w)
  else
    let '(df, w') := get_historical_data symbol (bp_start_date bp) (bp_end_date bp) w in
    match df with
    | [] =>
        (Failure ("No se pudieron obtener datos historicos para " ++ symbol)
                 strategy_name symbol, w')
    | _ :: _ =>
        let '(trades, equity_curve) :=
          execute_strategy strategy_name df (bp_parameters bp) initial_capital in
        let metrics := calculate_metrics trades equity_curve initial_capital in
        (Success {| r_strategy_name := strategy_name;
                    r_symbol := symbol;
                    r_start_date := bp_start_date bp;
                    r_end_date := bp_end_date bp;
                    r_initial_capital := initial_capital;
                    r_final_capital := last equity_curve initial_capital;
                    r_parameters := bp_parameters bp;
                    r_metrics := metrics;
                    r_trades := trades;
                    r_equity_curve := equity_curve;
                    r_data_points := length df |}, w')
    end.

End Runner.

End Service.

(** ** [compare_strategies] *)

Section Comparison.

Variable X : Extern.
Variable world : Type.
Variable binance_get_historical_data :
  string -> Z -> world -> result (list Bar) * world.

(** [sorted(results, key=key, reverse=reverse)], the builtin. *)
Variable py_sorted : forall A : Type, (A -> fl) -> bool -> list A -> list A.

(** An entry of ["strategies"]; [None] is a missing key. *)
Record StrategyRequest : Type := {
  sq_name : option string;
  sq_parameters : option (list (string * pval))
}.

Record ComparisonParams : Type := {
  cp_strategies : list StrategyRequest;
  cp_symbol : option string;
  cp_start_date : option Z;
  cp_end_date : option Z
}.

Record ComparisonEntry : Type := {
  ce_strategy_name : string;
  ce_metrics : Metrics;
  ce_parameters : list (string * pval)
}.

(** The returned dict of a comparison that ran to its end, without the
    [timestamp]. *)
Record ComparisonReport : Type := {
  cr_comparison_results : list ComparisonEntry;
  cr_rankings : list (string * list string);
  cr_best_overall : option string;
  cr_symbol : string;
  cr_period : Z * Z
}.

Inductive ComparisonResult : Type :=
| ComparisonSuccess (r : ComparisonReport)
| ComparisonFailure (error : exn).

(** The request of one entry; [strategy_config["name"]] raises on a
    missing key. *)
Definition comparison_request (symbol : string) (start_date end_date : Z)
    (name : string) (strategy_config : StrategyRequest) : BacktestParams :=
  {| bp_strategy_name := name;
     bp_symbol := symbol;
     bp_start_date := start_date;
     bp_end_date := end_date;
     bp_initial_capital := None;
     bp_parameters :=
       Some (match sq_parameters strategy_config with Some d => d | None => [] end) |}.

(** [for strategy_config in strategies]. *)
Fixpoint compare_loop (symbol : string) (start_date end_date : Z)
    (strategies : list StrategyRequest) (results : list ComparisonEntry) (w : world)
  : result (list ComparisonEntry) * world :=
  match strategies with
  | [] => (Ok results, w)
  | strategy_config :: rest =>
      match sq_name strategy_config with
      | None => (Raise KeyError, w)
      | Some name =>
          let '(backtest_result, w') :=
            run_backtest X world binance_get_historical_data
              (comparison_request symbol start_date end_date name strategy_config) w in
          let results' :=
            if is_success backtest_result
            then results ++
                 [ {| ce_strategy_name := name;
                      ce_metrics := result_metrics backtest_result;
                      ce_parameters :=
                        match sq_parameters strategy_config with
                        | Some d => d
                        | None => []
                        end |} ]
            else results in
          compare_loop symbol start_date end_date rest results' w'
      end
  end.

(** The ranking of one metric: ascending for the drawdown, descending for
    the others. *)
Definition ranking (results : list ComparisonEntry) (metric : string) : list string :=
  let sorted_results :=
    if String.eqb metric "max_drawdown"
    then py_sorted _ (fun x => metrics_get (ce_metrics x) metric (Fin 1)) false results
    else py_sorted _ (fun x => metrics_get (ce_metrics x) metric (Fin 0)) true results in
  map ce_strategy_name sorted_results.

Definition compare_strategies (comparison_params : ComparisonParams) (w : world)
  : ComparisonResult * world :=
  let symbol :=
    match cp_symbol comparison_params with Some s => s | None => "BTCUSDT"%string end in
  let start_date :=
    match cp_start_date comparison_params with Some d => d | None => 19358%Z end in
  let end_date :=
    match cp_end_date comparison_params with Some d => d | None => 19723%Z end in
  match compare_loop symbol start_date end_date (cp_strategies comparison_params) [] w with
  | (Ok results, w') =>
      let metrics_to_rank :=
        [ "total_return_pct"; "sharpe_ratio"; "win_rate"; "max_drawdown" ]%string in
      (ComparisonSuccess
         {| cr_comparison_results := results;
            cr_rankings := map (fun metric => (metric, ranking results metric))
                               metrics_to_rank;
            cr_best_overall :=
              match results with
              | [] => None
              | r :: _ => Some (ce_strategy_name r)
              end;
            cr_symbol := symbol;
            cr_period := (start_date, end_date) |}, w')
  | (Raise e, w') => (ComparisonFailure e, w')
  end.

End Comparison.

End Backtesting.

(** * optimizer_agent.py *)

Module Optimizer.

Import Backtesting.

(** A parameter vector, in insertion order. *)
Definition dict := list (string * pval).

(** [d[k] = v]: an existing key keeps its place. *)
Fixpoint dict_set (k : string) (v : pval) (d : dict) : dict :=
  match d with
  | [] => [(k, v)]
  | (k', v') :: d' =>
      if String.eqb k k' then (k, v) :: d' else (k', v') :: dict_set k v d'
  end.

(** One entry of [parameter_ranges]: a dict with a ["type"], or a plain
    pair [[lo, hi]]. *)
Inductive ParamRange : Type :=
| RInt (min max : Z) (step : option Z)
| RFloat (min max : Q) (step : option Q)
| RCategorical (choices : list pval)
| RDict (default : option pval)
| RPair (lo hi : Q).

(** ** Grid enumeration *)

(** [list(range(start, stop, step))]. *)
Definition py_range (start stop step : Z) : result (list Z) :=
  if (step =? 0)%Z then Raise (ValueError "range() arg 3 must not be zero")
  else
    let n := if (0 <? step)%Z
             then ((stop - start + step - 1) / step)%Z
             else ((start - stop - step - 1) / (- step))%Z in
    Ok (map (fun k => (start + Z.of_nat k * step)%Z) (seq 0 (Z.to_nat n))).

(** [list(np.arange(start, stop, step))] in exact arithmetic:
    [ceil((stop - start) / step)] values [start + k * step].  numpy takes
    the quotient and its ceiling in binary64, so its count can differ by
    one from this one when the exact quotient is within rounding of an
    integer, and its values are the rounded [start + k * step]. *)
Definition np_arange (start stop step : Q) : result (list Q) :=
  if Qeq_bool step 0 then Raise ZeroDivisionError
  else
    let n := Qceiling ((stop - start) / step) in
    Ok (map (fun k => start + inject_Z (Z.of_nat k) * step) (seq 0 (Z.to_nat n))).

(** [list(np.linspace(lo, hi, num))] for [num > 1]. *)
Definition np_linspace (lo hi : Q) (num : nat) : list Q :=
  map (fun k => lo + inject_Z (Z.of_nat k) * ((hi - lo) / inject_Z (Z.of_nat (num - 1))))
      (seq 0 num).

(** The candidate values of one parameter. *)
Definition range_values (r : ParamRange) : result (list pval) :=
  match r with
  | RInt lo hi step =>
      vs <- py_range lo (hi + 1) (match step with Some s => s | None => 1%Z end) ;;
      Ok (map VInt vs)
  | RFloat lo hi step =>
      let st := match step with Some s => s | None => (hi - lo) / 10 end in
      vs <- np_arange lo (hi + st) st ;;
      Ok (map VFloat vs)
  | RCategorical choices => Ok choices
  | RDict default => Ok [match default with Some v => v | None => VInt 1 end]
  | RPair lo hi => Ok (map VFloat (np_linspace lo hi 10))
  end.

Fixpoint all_values (rs : list ParamRange) : result (list (list pval)) :=
  match rs with
  | [] => Ok []
  | r :: rs' =>
      vs <- range_values r ;;
      rest <- all_values rs' ;;
      Ok (vs :: rest)
  end.

(** [itertools.product] over the value lists: the last position varies
    fastest. *)
Fixpoint product {A : Type} (ls : list (list A)) : list (list A) :=
  match ls with
  | [] => [[]]
  | l :: rest => flat_map (fun x => map (cons x) (product rest)) l
  end.

(** [_generate_parameter_combinations]; [dict(zip(names, combination))]
    is [combine], the names being the distinct keys of a dict. *)
Definition generate_parameter_combinations (parameter_ranges : list (string * ParamRange))
  : result (list dict) :=
  let param_names := map fst parameter_ranges in
  param_values <- all_values (map snd parameter_ranges) ;;
  Ok (map (combine param_names) (product param_values)).

(** ** The search engines *)

(** The [parameters] dict of a task; [None] is an absent key. *)
Record TaskParams : Type := {
  tp_strategy_name : string;
  tp_symbol : string;
  tp_parameter_ranges : list (string * ParamRange);
  tp_objective : option string;
  tp_start_date : option Z;
  tp_end_date : option Z;
  tp_population_size : option nat;
  tp_generations : option nat;
  tp_n_trials : option nat;
  tp_parameters : option dict;
  tp_window_size : option Z;
  tp_step_size : option Z
}.

Definition objective_of (tp : TaskParams) : string :=
  match tp_objective tp with Some o => o | None => "sharpe_ratio"%string end.

(** ["2023-01-01"] and ["2024-01-01"] as day numbers. *)
Definition start_date_of (tp : TaskParams) : Z :=
  match tp_start_date tp with Some d => d | None => 19358%Z end.
Definition end_date_of (tp : TaskParams) : Z :=
  match tp_end_date tp with Some d => d | None => 19723%Z end.

(** The request every engine sends to [run_backtest]. *)
Definition request (tp : TaskParams) (params : option dict) (start_date end_date : Z)
  : BacktestParams :=
  {| bp_strategy_name := tp_strategy_name tp;
     bp_symbol := tp_symbol tp;
     bp_start_date := start_date;
     bp_end_date := end_date;
     bp_initial_capital := None;
     bp_parameters := params |}.

Section Engines.

Variable world : Type.

(** [self.backtesting_service.run_backtest]. *)
Variable run_backtest : BacktestParams -> world -> BacktestResult * world.

(** [numpy.random], [numpy] and [optuna], none of them code of this
    repository.  A trial is named by its number. *)
Record Lib : Type := {
  randint : Z -> Z -> world -> result Z * world;
  uniform : Q -> Q -> world -> Q * world;
  random : world -> Q * world;
  choice : list pval -> world -> result pval * world;
  choice_indices : nat -> nat -> world -> result (list nat) * world;
  argsort : list fl -> list nat;
  argmax : list fl -> nat;
  np_mean : list fl -> fl;
  create_study : bool -> string -> world -> world;
  ask : world -> nat * world;
  suggest_int : nat -> string -> Z -> Z -> world -> result Z * world;
  suggest_float : nat -> string -> Q -> Q -> world -> result Q * world;
  suggest_categorical : nat -> string -> list pval -> world -> result pval * world;
  tell : nat -> fl -> world -> world
}.

Variable L : Lib.

(** *** The monad of an engine

    An engine threads the outside world and may raise.  [calls] is a ghost
    log of the [run_backtest] calls made so far, request and answer, in
    order; the code never reads it. *)
Record St : Type := {
  ext : world;
  calls : list (BacktestParams * BacktestResult)
}.

Definition M (A : Type) : Type := St -> result A * St.

Definition ret {A : Type} (a : A) : M A := fun s => (Ok a, s).

Definition raise {A : Type} (e : exn) : M A := fun s => (Raise e, s).

Definition mbind {A B : Type} (c : M A) (f : A -> M B) : M B :=
  fun s => match c s with
           | (Ok a, s') => f a s'
           | (Raise e, s') => (Raise e, s')
           end.

Notation "x <~ c ;; k" := (mbind c (fun x => k))
  (at level 61, c at next level, right associativity).

(** [try: c except Exception as e: h e]. *)
Definition catch {A : Type} (c : M A) (h : exn -> M A) : M A :=
  fun s => match c s with
           | (Ok a, s') => (Ok a, s')
           | (Raise e, s') => h e s'
           end.

Definition of_result {A : Type} (r : result A) : M A := fun s => (r, s).

Definition lift {A : Type} (f : world -> A * world) : M A :=
  fun s => let '(a, w) := f (ext s) in (Ok a, {| ext := w; calls := calls s |}).

Definition lift_r {A : Type} (f : world -> result A * world) : M A :=
  fun s => let '(r, w) := f (ext s) in (r, {| ext := w; calls := calls s |}).

(** A call of [run_backtest], which returns and never raises. *)
Definition call_backtest (bp : BacktestParams) (s : St) : BacktestResult * St :=
  let '(r, w) := run_backtest bp (ext s) in
  (r, {| ext := w; calls := calls s ++ [(bp, r)] |}).

Definition backtest (bp : BacktestParams) : M BacktestResult :=
  fun s => let '(r, s') := call_backtest bp s in (Ok r, s').

Fixpoint foldM {A B : Type} (f : A -> B -> M A) (l : list B) (a : A) : M A :=
  match l with
  | [] => ret a
  | b :: l' => a' <~ f a b ;; foldM f l' a'
  end.

Fixpoint mapM {A B : Type} (f : A -> M B) (l : list A) : M (list B) :=
  match l with
  | [] => ret []
  | a :: l' => b <~ f a ;; bs <~ mapM f l' ;; ret (b :: bs)
  end.

(** [l[i]]. *)
Definition index {A : Type} (l : list A) (i : nat) : M A :=
  match nth_error l i with
  | Some a => ret a
  | None => raise IndexError
  end.

(** *** Grid search ([_parameter_sweep]) *)

Record SweepState : Type := {
  sw_results : list (dict * fl * Metrics);
  sw_best_params : option dict;
  sw_best_value : fl
}.

Definition sweep_init : SweepState :=
  {| sw_results := []; sw_best_params := None; sw_best_value := NegInf |}.

(** The body of the [for] loop over the combinations.  Its inner [try]
    guards [run_backtest], which returns a dict and does not raise. *)
Definition sweep_step (tp : TaskParams) (st : SweepState) (params : dict) : M SweepState :=
  r <~ backtest (request tp (Some params) (start_date_of tp) (end_date_of tp)) ;;
  if is_success r then
    let metrics := result_metrics r in
    let value := metrics_get metrics (objective_of tp) (Fin 0) in
    let better := fl_gt value (sw_best_value st) in
    ret {| sw_results := sw_results st ++ [(params, value, metrics)];
           sw_best_params := if better then Some params else sw_best_params st;
           sw_best_value := if better then value else sw_best_value st |}
  else ret st.

(** [param_combinations[:1000]] when there are more than 1000. *)
Definition cap_combinations (combos : list dict) : list dict :=
  if (1000 <? length combos)%nat then firstn 1000 combos else combos.

(** [sorted(results, key=value, reverse=True)]: stable, descending. *)
Fixpoint insert_desc (x : dict * fl * Metrics) (l : list (dict * fl * Metrics))
  : list (dict * fl * Metrics) :=
  match l with
  | [] => [x]
  | y :: l' =>
      if fl_gt (snd (fst x)) (snd (fst y)) then x :: l else y :: insert_desc x l'
  end.

Definition sorted_desc (l : list (dict * fl * Metrics)) : list (dict * fl * Metrics) :=
  fold_left (fun acc x => insert_desc x acc) l [].

Record SweepResult : Type := {
  sr_best_parameters : option dict;
  sr_best_value : fl;
  sr_objective : string;
  sr_total_combinations : nat;
  sr_successful_combinations : nat;
  sr_final_backtest : BacktestResult;
  sr_top_results : list (dict * fl * Metrics)
}.

Definition parameter_sweep (tp : TaskParams) : M SweepResult :=
  combos <~ of_result (generate_parameter_combinations (tp_parameter_ranges tp)) ;;
  let param_combinations := cap_combinations combos in
  st <~ foldM (sweep_step tp) param_combinations sweep_init ;;
  final_backtest <~ backtest (request tp (sw_best_params st)
                                 (start_date_of tp) (end_date_of tp)) ;;
  ret {| sr_best_parameters := sw_best_params st;
         sr_best_value := sw_best_value st;
         sr_objective := objective_of tp;
         sr_total_combinations := length param_combinations;
         sr_successful_combinations := length (sw_results st);
         sr_final_backtest := final_backtest;
         sr_top_results := firstn 10 (sorted_desc (sw_results st)) |}.

(** *** Genetic search ([_genetic_optimization]) *)

(** A fresh random value for one parameter; [None] when no branch of the
    source assigns the key. *)
Definition random_value (r : ParamRange) : M (option pval) :=
  match r with
  | RInt lo hi _ =>
      v <~ lift_r (randint L lo (hi + 1)) ;; ret (Some (VInt v))
  | RFloat lo hi _ =>
      v <~ lift (uniform L lo hi) ;; ret (Some (VFloat v))
  | RCategorical choices =>
      v <~ lift_r (choice L choices) ;; ret (Some v)
  | RDict _ => ret None
  | RPair lo hi =>
      v <~ lift (uniform L lo hi) ;; ret (Some (VFloat v))
  end.

Definition random_individual (parameter_ranges : list (string * ParamRange)) : M dict :=
  foldM (fun (individual : dict) (nr : string * ParamRange) =>
           v <~ random_value (snd nr) ;;
           ret (match v with
                | Some x => dict_set (fst nr) x individual
                | None => individual
                end))
        parameter_ranges [].

Definition initial_population (tp : TaskParams) (population_size : nat) : M (list dict) :=
  mapM (fun _ : nat => random_individual (tp_parameter_ranges tp)) (seq 0 population_size).

(** [_tournament_selection], with the default tournament size 3. *)
Definition tournament_selection (population : list dict) (fitness_scores : list fl)
  : M dict :=
  tournament_indices <~ lift_r (choice_indices L (length population) 3) ;;
  tournament_fitness <~ mapM (index fitness_scores) tournament_indices ;;
  winner_index <~ index tournament_indices (argmax L tournament_fitness) ;;
  index population winner_index.

(** [_crossover]: every key of [parent1], from either parent. *)
Definition crossover (parent1 parent2 : dict) : M dict :=
  foldM (fun (child : dict) (kv : string * pval) =>
           u <~ lift (random L) ;;
           if Qltb u (1#2) then ret (dict_set (fst kv) (snd kv) child)
           else match dict_get (fst kv) parent2 with
                | Some v => ret (dict_set (fst kv) v child)
                | None => raise KeyError
                end)
        parent1 [].

(** [_mutate]. *)
Definition mutate (individual : dict) (parameter_ranges : list (string * ParamRange))
    (mutation_rate : Q) : M dict :=
  foldM (fun (mutated : dict) (nr : string * ParamRange) =>
           u <~ lift (random L) ;;
           if Qltb u mutation_rate then
             v <~ random_value (snd nr) ;;
             ret (match v with
                  | Some x => dict_set (fst nr) x mutated
                  | None => mutated
                  end)
           else ret mutated)
        parameter_ranges individual.

Record GenerationStats : Type := {
  gs_generation : nat;
  gs_best_fitness : fl;
  gs_average_fitness : fl;
  gs_worst_fitness : fl
}.

(** The variables that live across generations. *)
Record GAState : Type := {
  population : list dict;
  best_individual : option dict;
  best_fitness : fl;
  generation_history : list GenerationStats
}.

(** The fitness read off a backtest result: the objective metric, or
    [float('-inf')] for a failed backtest. *)
Definition fitness_of (tp : TaskParams) (r : BacktestResult) : fl :=
  if is_success r
  then metrics_get (result_metrics r) (objective_of tp) (Fin 0)
  else NegInf.

(** The body of [for individual in population]: the fitness of one
    individual, and the best-so-far update. *)
Definition evaluate_individual (tp : TaskParams)
    (acc : list fl * (option dict * fl)) (individual : dict)
  : M (list fl * (option dict * fl)) :=
  let '(fitness_scores, (best_ind, best_fit)) := acc in
  r <~ backtest (request tp (Some individual) (start_date_of tp) (end_date_of tp)) ;;
  let fitness := fitness_of tp r in
  ret (fitness_scores ++ [fitness],
       if fl_gt fitness best_fit then (Some individual, fitness) else (best_ind, best_fit)).

(** [max(l)] and [min(l)] of Python, which raise on the empty list. *)
Definition fl_max (l : list fl) : result fl :=
  match l with
  | [] => Raise (ValueError "max() arg is an empty sequence")
  | x :: l' => Ok (fold_left (fun m y => if fl_gt y m then y else m) l' x)
  end.

Definition fl_min (l : list fl) : result fl :=
  match l with
  | [] => Raise (ValueError "min() arg is an empty sequence")
  | x :: l' => Ok (fold_left (fun m y => if fl_gt m y then y else m) l' x)
  end.

Definition generation_stats (generation : nat) (fitness_scores : list fl)
  : result GenerationStats :=
  let finite := filter (fun f => fl_gt f NegInf) fitness_scores in
  best <- fl_max fitness_scores ;;
  worst <- fl_min finite ;;
  Ok {| gs_generation := generation + 1;
        gs_best_fitness := best;
        gs_average_fitness := np_mean L finite;
        gs_worst_fitness := worst |}.

(** One pass of [while len(new_population) < population_size]; the loop
    appends one child per pass, so it makes [n] passes when [n] places
    are left. *)
Fixpoint refill (tp : TaskParams) (n : nat) (population : list dict)
    (fitness_scores : list fl) (new_population : list dict) : M (list dict) :=
  match n with
  | O => ret new_population
  | S n' =>
      parent1 <~ tournament_selection population fitness_scores ;;
      parent2 <~ tournament_selection population fitness_scores ;;
      child <~ crossover parent1 parent2 ;;
      child' <~ mutate child (tp_parameter_ranges tp) (1#10) ;;
      refill tp n' population fitness_scores (new_population ++ [child'])
  end.

Definition next_population (tp : TaskParams) (population_size : nat)
    (population : list dict) (fitness_scores : list fl) : M (list dict) :=
  let elite_size := (population_size / 4)%nat in
  let sorted_indices := rev (argsort L fitness_scores) in
  elite <~ mapM (index population) (firstn elite_size sorted_indices) ;;
  refill tp (population_size - length elite) population fitness_scores elite.

(** The body of [for generation in range(generations)]. *)
Definition generation_step (tp : TaskParams) (population_size generations : nat)
    (st : GAState) (generation : nat) : M GAState :=
  ev <~ foldM (evaluate_individual tp) (population st)
          ([], (best_individual st, best_fitness st)) ;;
  let '(fitness_scores, (best_ind, best_fit)) := ev in
  stats <~ of_result (generation_stats generation fitness_scores) ;;
  pop <~ (if (generation <? generations - 1)%nat
          then next_population tp population_size (population st) fitness_scores
          else ret (population st)) ;;
  ret {| population := pop;
         best_individual := best_ind;
         best_fitness := best_fit;
         generation_history := generation_history st ++ [stats] |}.

Definition ga_init (population : list dict) : GAState :=
  {| population := population;
     best_individual := None;
     best_fitness := NegInf;
     generation_history := [] |}.

(** The state after the first [g] of [generations] generations. *)
Definition run_generations (tp : TaskParams) (population_size generations g : nat)
    (population : list dict) : M GAState :=
  foldM (generation_step tp population_size generations) (seq 0 g) (ga_init population).

Record GeneticResult : Type := {
  gr_best_parameters : option dict;
  gr_best_fitness : fl;
  gr_objective : string;
  gr_population_size : nat;
  gr_generations : nat;
  gr_final_backtest : BacktestResult;
  gr_generation_history : list GenerationStats;
  gr_total_evaluations : nat
}.

Definition genetic_optimization (tp : TaskParams) : M GeneticResult :=
  let population_size := match tp_population_size tp with Some n => n | None => 50%nat end in
  let generations := match tp_generations tp with Some n => n | None => 20%nat end in
  population <~ initial_population tp population_size ;;
  st <~ run_generations tp population_size generations generations population ;;
  final_backtest <~ backtest (request tp (best_individual st)
                                 (start_date_of tp) (end_date_of tp)) ;;
  ret {| gr_best_parameters := best_individual st;
         gr_best_fitness := best_fitness st;
         gr_objective := objective_of tp;
         gr_population_size := population_size;
         gr_generations := generations;
         gr_final_backtest := final_backtest;
         gr_generation_history := generation_history st;
         gr_total_evaluations := (population_size * generations)%nat |}.

(** *** Bayesian search ([_bayesian_optimization]) *)

Definition maximized (objective : string) : bool :=
  String.eqb objective "sharpe_ratio" || String.eqb objective "total_return"
  || String.eqb objective "win_rate".

(** The suggestion for one parameter of a trial; [None] when no branch
    assigns the key. *)
Definition suggest (trial : nat) (param_name : string) (r : ParamRange) : M (option pval) :=
  match r with
  | RInt lo hi _ =>
      v <~ lift_r (suggest_int L trial param_name lo hi) ;; ret (Some (VInt v))
  | RFloat lo hi _ =>
      v <~ lift_r (suggest_float L trial param_name lo hi) ;; ret (Some (VFloat v))
  | RCategorical choices =>
      v <~ lift_r (suggest_categorical L trial param_name choices) ;; ret (Some v)
  | RDict _ => ret None
  | RPair lo hi =>
      v <~ lift_r (suggest_float L trial param_name lo hi) ;; ret (Some (VFloat v))
  end.

Definition suggest_params (tp : TaskParams) (trial : nat) : M dict :=
  foldM (fun (trial_params : dict) (nr : string * ParamRange) =>
           v <~ suggest trial (fst nr) (snd nr) ;;
           ret (match v with
                | Some x => dict_set (fst nr) x trial_params
                | None => trial_params
                end))
        (tp_parameter_ranges tp) [].

(** The metric a successful trial is scored by. *)
Definition objective_metric (objective : string) (metrics : Metrics) : fl :=
  if String.eqb objective "sharpe_ratio" then metrics_get metrics "sharpe_ratio" (Fin 0)
  else if String.eqb objective "total_return" then metrics_get metrics "total_return" (Fin 0)
  else if String.eqb objective "win_rate" then metrics_get metrics "win_rate" (Fin 0)
  else if String.eqb objective "max_drawdown"
  then fl_neg (metrics_get metrics "max_drawdown" (Fin 1))
  else metrics_get metrics objective (Fin 0).

(** [objective_function(trial)]: the suggested parameters and the value; a
    failed backtest is worth [float('-inf')]. *)
Definition objective_function (tp : TaskParams) (trial : nat) : M (dict * fl) :=
  trial_params <~ suggest_params tp trial ;;
  backtest_result <~ backtest (request tp (Some trial_params)
                                  (start_date_of tp) (end_date_of tp)) ;;
  if negb (is_success backtest_result) then ret (trial_params, NegInf)
  else ret (trial_params, objective_metric (objective_of tp) (result_metrics backtest_result)).

Record TrialResult : Type := {
  trial_number : nat;
  trial_parameters : dict;
  trial_value : fl
}.

Record BayesState : Type := {
  by_best_params : option dict;
  by_best_value : fl;
  by_trial_results : list TrialResult
}.

Definition bayes_init : BayesState :=
  {| by_best_params := None; by_best_value := NegInf; by_trial_results := [] |}.

(** The body of [for i in range(n_trials)]. *)
Definition trial_step (tp : TaskParams) (st : BayesState) (i : nat) : M BayesState :=
  trial <~ lift (ask L) ;;
  catch
    (pv <~ objective_function tp trial ;;
     let '(params, value) := pv in
     _ <~ lift (fun w => (tt, tell L trial value w)) ;;
     let better := fl_gt value (by_best_value st) in
     ret {| by_best_params := if better then Some params else by_best_params st;
            by_best_value := if better then value else by_best_value st;
            by_trial_results := by_trial_results st ++
              [ {| trial_number := i + 1;
                   trial_parameters := params;
                   trial_value := value |} ] |})
    (fun _ =>
       _ <~ lift (fun w => (tt, tell L trial NegInf w)) ;;
       ret st).

Record BayesResult : Type := {
  br_best_parameters : option dict;
  br_best_value : fl;
  br_objective : string;
  br_n_trials : nat;
  br_final_backtest : BacktestResult;
  br_trial_history : list TrialResult;
  br_successful_trials : nat
}.

Definition bayesian_optimization (tp : TaskParams) : M BayesResult :=
  let n_trials := match tp_n_trials tp with Some n => n | None => 100%nat end in
  let objective := objective_of tp in
  _ <~ lift (fun w => (tt, create_study L (maximized objective)
                             (tp_strategy_name tp ++ "_" ++ tp_symbol tp ++ "_optimization") w)) ;;
  st <~ foldM (trial_step tp) (seq 0 n_trials) bayes_init ;;
  final_backtest <~ backtest (request tp (by_best_params st)
                                 (start_date_of tp) (end_date_of tp)) ;;
  ret {| br_best_parameters := by_best_params st;
         br_best_value := by_best_value st;
         br_objective := objective;
         br_n_trials := n_trials;
         br_final_backtest := final_backtest;
         br_trial_history :=
           skipn (length (by_trial_results st) - 10) (by_trial_results st);
         br_successful_trials :=
           length (filter (fun r => fl_gt (trial_value r) NegInf) (by_trial_results st)) |}.

(** *** Walk-forward analysis ([_walk_forward_analysis]) *)

Record WindowResult : Type := {
  window_start : Z;
  window_end : Z;
  window_metrics : Metrics
}.

(** The [while] loop over the windows.  The recursion is on [fuel]; [None]
    means the fuel ran out before the loop condition failed. *)
Fixpoint walk_loop (fuel : nat) (tp : TaskParams) (window_size step_size end_date : Z)
    (current_date : Z) (results : list WindowResult) (s : St)
  : option (list WindowResult * St) :=
  match fuel with
  | O => None
  | S fuel' =>
      if (current_date + window_size <=? end_date)%Z then
        let window_start := current_date in
        let window_end := (current_date + window_size)%Z in
        let base_parameters :=
          match tp_parameters tp with Some d => d | None => [] end in
        let '(backtest_result, s') :=
          call_backtest (request tp (Some base_parameters) window_start window_end) s in
        let results' :=
          if is_success backtest_result
          then results ++ [ {| window_start := window_start;
                               window_end := window_end;
                               window_metrics := result_metrics backtest_result |} ]
          else results in
        walk_loop fuel' tp window_size step_size end_date
                  (current_date + step_size)%Z results' s'
      else Some (results, s)
  end.

(** The windows of the analysis; the aggregate statistics and the
    robustness score are computed from them afterwards. *)
Definition walk_forward_analysis (fuel : nat) (tp : TaskParams) (s : St)
  : option (list WindowResult * St) :=
  let window_size := match tp_window_size tp with Some n => n | None => 90%Z end in
  let step_size := match tp_step_size tp with Some n => n | None => 30%Z end in
  walk_loop fuel tp window_size step_size (end_date_of tp) (start_date_of tp) [] s.

End Engines.

Arguments randint {world} l _ _ _.
Arguments uniform {world} l _ _ _.
Arguments random {world} l _.
Arguments choice {world} l _ _.
Arguments choice_indices {world} l _ _ _.
Arguments argsort {world} l _.
Arguments argmax {world} l _.
Arguments np_mean {world} l _.
Arguments create_study {world} l _ _ _.
Arguments ask {world} l _.
Arguments suggest_int {world} l _ _ _ _ _.
Arguments suggest_float {world} l _ _ _ _ _.
Arguments suggest_categorical {world} l _ _ _ _.
Arguments tell {world} l _ _ _.
Arguments random_value {world} L r s.
Arguments random_individual {world} L parameter_ranges s.
Arguments initial_population {world} L tp population_size s.
Arguments tournament_selection {world} L population fitness_scores s.
Arguments crossover {world} L parent1 parent2 s.
Arguments mutate {world} L individual parameter_ranges mutation_rate s.
Arguments generation_stats {world} L generation fitness_scores.
Arguments refill {world} L tp n population fitness_scores new_population s.
Arguments next_population {world} L tp population_size population fitness_scores s.
Arguments suggest {world} L trial param_name r s.
Arguments suggest_params {world} L tp trial s.
Arguments objective_function {world} run_backtest L tp trial s.
Arguments ext {world} s.
Arguments calls {world} s.
Arguments ret {world A} a s.
Arguments raise {world A} e s.
Arguments mbind {world A B} c f s.
Arguments catch {world A} c h s.
Arguments of_result {world A} r s.
Arguments lift {world A} f s.
Arguments lift_r {world A} f s.
Arguments call_backtest {world} run_backtest bp s.
Arguments backtest {world} run_backtest bp s.
Arguments foldM {world A B} f l a s.
Arguments mapM {world A B} f l s.
Arguments index {world A} l i s.
Arguments sweep_step {world} run_backtest tp st params s.
Arguments parameter_sweep {world} run_backtest tp s.
Arguments evaluate_individual {world} run_backtest tp acc individual s.
Arguments generation_step {world} run_backtest L tp population_size generations st generation s.
Arguments run_generations {world} run_backtest L tp population_size generations g population s.
Arguments genetic_optimization {world} run_backtest L tp s.
Arguments trial_step {world} run_backtest L tp st i s.
Arguments bayesian_optimization {world} run_backtest L tp s.
Arguments walk_loop {world} run_backtest fuel tp window_size step_size end_date current_date results s.
Arguments walk_forward_analysis {world} run_backtest fuel tp s.

(** *** The robustness score ([_calculate_robustness_score]) *)

(** [stats.get(key, default)] on the aggregate statistics. *)
Definition stats_get (stats : list (string * Q)) (key : string) (default : Q) : Q :=
  match dict_get key stats with Some v => v | None => default end.

(** The score of a walk-forward analysis.  The divisor of the Sharpe
    term is [max(abs(avg_sharpe), 0.1)], at least [0.1]. *)
Definition calculate_robustness_score (stats : list (string * Q)) : Q :=
  match stats with
  | [] => 0
  | _ :: _ =>
      let score := 0 in
      let win_rate := stats_get stats "win_rate" 0 in
      let score := score + py_min (win_rate * 30) 30 in
      let avg_sharpe := stats_get stats "average_sharpe" 0 in
      let sharpe_std := stats_get stats "sharpe_std" 1 in
      let score :=
        if Qltb 0 sharpe_std then
          let sharpe_consistency :=
            py_max 0 (1 - sharpe_std / py_max (Qabs avg_sharpe) (1#10)) in
          score + sharpe_consistency * 25
        else score in
      let max_drawdown := stats_get stats "max_drawdown" 1 in
      let drawdown_score := py_max 0 (1 - max_drawdown) * 25 in
      let score := score + drawdown_score in
      let avg_return := stats_get stats "average_return" 0 in
      let score :=
        if Qltb 0 avg_return then score + py_min (avg_return * 100) 20 else score in
      py_min score 100
  end.

(** *** The analysis of the trades ([_analyze_trades]) *)

(** The returned dict, or [{"error": ...}] for an empty trade list. *)
Inductive TradeAnalysis : Type :=
| TradeAnalysisDict (kv : list (string * fl))
| TradeAnalysisError (error : string).

(** [_calculate_average_trade_duration]: the mean of the hours between
    the parsed entry and exit times, 0 without trades. *)
Definition calculate_average_trade_duration (trades : list Trade) : Q :=
  let durations :=
    map (fun t => inject_Z (t_exit_time t - t_entry_time t) / 3600) trades in
  mean_or_0 durations.

Definition analyze_trades (trades : list Trade) : result TradeAnalysis :=
  match trades with
  | [] => Ok (TradeAnalysisError "No hay trades para analizar")
  | _ :: _ =>
      let profits := map pnl trades in
      let winning_trades := filter (fun p => Qltb 0 p) profits in
      let losing_trades := filter (fun p => Qltb p 0) profits in
      profit_factor <-
        match losing_trades with
        | [] => Ok PosInf
        | _ :: _ =>
            q <- py_div (Qsum winning_trades) (Qabs (Qsum losing_trades)) ;; Ok (Fin q)
        end ;;
      Ok (TradeAnalysisDict
            [ ("total_trades"%string, Fin (of_nat (length trades)));
              ("winning_trades"%string, Fin (of_nat (length winning_trades)));
              ("losing_trades"%string, Fin (of_nat (length losing_trades)));
              ("win_rate"%string,
                Fin (of_nat (length winning_trades) / of_nat (length trades)));
              ("average_win"%string, Fin (mean_or_0 winning_trades));
              ("average_loss"%string, Fin (mean_or_0 losing_trades));
              ("largest_win"%string,
                Fin (match winning_trades with
                     | [] => 0
                     | p :: ps => max_list p ps
                     end));
              ("largest_loss"%string,
                Fin (match losing_trades with
                     | [] => 0
                     | p :: ps => min_list p ps
                     end));
              ("profit_factor"%string, profit_factor);
              ("average_trade_duration"%string,
                Fin (calculate_average_trade_duration trades)) ])
  end.

(** *** The analysis of the drawdowns ([_analyze_drawdowns]) *)

(** The cumulative pnl after every trade, from the seed [0]. *)
Definition cumulative_equity (trades : list Trade) : list Q :=
  snd (fold_left (fun (acc : Q * list Q) (trade : Trade) =>
                    let cumulative_pnl := fst acc + pnl trade in
                    (cumulative_pnl, snd acc ++ [cumulative_pnl]))
                 trades (0, [0])).

(** The variables of the scan of the curve. *)
Record DrawdownScan : Type := {
  ds_peak : Q;
  ds_drawdowns : list Q;
  ds_current_drawdown : Q
}.

(** The body of [for value in equity_curve]. *)
Definition drawdown_scan_step (st : DrawdownScan) (value : Q) : DrawdownScan :=
  if Qltb (ds_peak st) value then
    {| ds_peak := value;
       ds_drawdowns :=
         if Qltb (ds_current_drawdown st) 0
         then ds_drawdowns st ++ [Qabs (ds_current_drawdown st)]
         else ds_drawdowns st;
       ds_current_drawdown := 0 |}
  else
    {| ds_peak := ds_peak st;
       ds_drawdowns := ds_drawdowns st;
       ds_current_drawdown := value - ds_peak st |}.

(** The scan with the closing [if current_drawdown < 0: append]. *)
Definition drawdown_scan (equity_curve : list Q) : DrawdownScan :=
  let st := fold_left drawdown_scan_step equity_curve
              {| ds_peak := hd 0 equity_curve;
                 ds_drawdowns := [];
                 ds_current_drawdown := 0 |} in
  {| ds_peak := ds_peak st;
     ds_drawdowns :=
       if Qltb (ds_current_drawdown st) 0
       then ds_drawdowns st ++ [Qabs (ds_current_drawdown st)]
       else ds_drawdowns st;
     ds_current_drawdown := ds_current_drawdown st |}.

Record DrawdownAnalysis : Type := {
  da_max_drawdown : Q;
  da_average_drawdown : Q;
  da_drawdown_periods : nat;
  da_current_drawdown : Q;
  da_recovery_factor : Q
}.

(** [None] is the empty dict returned for an empty trade list. *)
Definition analyze_drawdowns (trades : list Trade) : option DrawdownAnalysis :=
  match trades with
  | [] => None
  | _ :: _ =>
      let equity_curve := cumulative_equity trades in
      let st := drawdown_scan equity_curve in
      let drawdowns := ds_drawdowns st in
      let max_of := match drawdowns with
                    | [] => 0
                    | d :: ds => max_list d ds
                    end in
      Some {| da_max_drawdown := max_of;
              da_average_drawdown := mean_or_0 drawdowns;
              da_drawdown_periods := length drawdowns;
              da_current_drawdown := Qabs (ds_current_drawdown st);
              da_recovery_factor :=
                match drawdowns with
                | [] => 0
                | _ :: _ =>
                    if Qltb 0 max_of then last equity_curve 0 / max_of else 0
                end |}
  end.

(** *** The entry point ([_optimize_strategy]) *)

(** The task dict, with the keys the entry point or a caller may set. *)
Record OptimizeParams : Type := {
  op_strategy_name : option string;
  op_symbol : option string;
  op_method : option string;
  op_parameter_ranges : list (string * ParamRange);
  op_objective : option string;
  op_n_trials : option nat;
  op_population_size : option nat;
  op_generations : option nat;
  op_start_date : option Z;
  op_end_date : option Z
}.

(** The dict the entry point builds for an engine: strategy, symbol,
    ranges and objective, the sizes the engine reads, and nothing else of
    the task. *)
Definition engine_task (op : OptimizeParams) (strategy_name : string)
    (n_trials population_size generations : option nat) : TaskParams :=
  {| tp_strategy_name := strategy_name;
     tp_symbol := match op_symbol op with Some s => s | None => "BTCUSDT"%string end;
     tp_parameter_ranges := op_parameter_ranges op;
     tp_objective :=
       Some (match op_objective op with Some o => o | None => "sharpe_ratio"%string end);
     tp_start_date := None;
     tp_end_date := None;
     tp_population_size := population_size;
     tp_generations := generations;
     tp_n_trials := n_trials;
     tp_parameters := None;
     tp_window_size := None;
     tp_step_size := None |}.

Inductive EngineResult : Type :=
| ByBayesian (r : BayesResult)
| ByGenetic (r : GeneticResult)
| ByGridSearch (r : SweepResult).

(** The returned dict, without the [optimization_id] and [timestamp] read
    off the wall clock. *)
Record OptimizationReport : Type := {
  o_strategy_name : string;
  o_symbol : string;
  o_method : string;
  o_results : EngineResult
}.

(** [_optimize_strategy].  Its bookkeeping in [current_optimizations] and
    the database write, which has its own handler, do not reach the value
    returned or the exception raised and are left out.  The messages are
    written without their accents. *)
Definition optimize_strategy {world : Type}
    (run_backtest : BacktestParams -> world -> BacktestResult * world)
    (L : Lib world) (op : OptimizeParams) : M world OptimizationReport :=
  let symbol := match op_symbol op with Some s => s | None => "BTCUSDT"%string end in
  let optimization_method :=
    match op_method op with Some m => m | None => "bayesian"%string end in
  match op_strategy_name op with
  | None => raise (ValueError "Se requiere especificar strategy_name")
  | Some strategy_name =>
      if String.eqb strategy_name ""
      then raise (ValueError "Se requiere especificar strategy_name")
      else
        mbind
          (if String.eqb optimization_method "bayesian" then
             mbind (bayesian_optimization run_backtest L
                      (engine_task op strategy_name
                         (Some (match op_n_trials op with
                                | Some n => n
                                | None => 100%nat
                                end))
                         None None))
                   (fun r => ret (ByBayesian r))
           else if String.eqb optimization_method "genetic" then
             mbind (genetic_optimization run_backtest L
                      (engine_task op strategy_name None
                         (Some (match op_population_size op with
                                | Some n => n
                                | None => 50%nat
                                end))
                         (Some (match op_generations op with
                                | Some n => n
                                | None => 20%nat
                                end))))
                   (fun r => ret (ByGenetic r))
           else if String.eqb optimization_method "grid_search" then
             mbind (parameter_sweep run_backtest
                      (engine_task op strategy_name None None None))
                   (fun r => ret (ByGridSearch r))
           else raise (ValueError ("Metodo de optimizacion no soportado: "
                                   ++ optimization_method)))
          (fun results =>
             ret {| o_strategy_name := strategy_name;
                    o_symbol := symbol;
                    o_method := optimization_method;
                    o_results := results |})
  end.

End Optimizer.

(** * The vocabulary of the properties *)

Import Backtesting.

Import Optimizer.

(** ** Strategy evaluators *)

(** What one bar can do to the loop variables before the equity value is
    appended: nothing, open a position when there is none, or close the
    open one. *)
Inductive transition (X : Extern) (st : SimState) : SimState -> Prop :=
| tr_hold : transition X st st
| tr_open (params : list (string * pval)) (price : Q) (ts : Z) :
    position st = None ->
    transition X st (open_position X params st price ts)
| tr_close (pos : Position) (price : Q) (ts : Z) (reason : ExitReason) :
    position st = Some pos ->
    transition X st (close_position X st pos price ts reason).

(** A loop body is a transition followed by the append. *)
Definition bar_step (X : Extern) (step : SimState -> nat * Bar -> SimState) : Prop :=
  forall st ib, exists st', step st ib = append_equity st' /\ transition X st st'.

(** The running balance: the initial capital with the pnl of the trades
    added one by one in trade order, each by one float addition, as
    [current_capital += pnl] does. *)
Definition running_balance (X : Extern) (initial_capital : Q) (pnls : list Q) : Q :=
  fold_left (fadd X) pnls initial_capital.

(** The bookkeeping invariant: the capital is the running balance of the
    trades so far. *)
Definition conserved (X : Extern) (initial_capital : Q) (st : SimState) : Prop :=
  current_capital st = running_balance X initial_capital (map pnl (trades st)).

(** The float addition is the exact one. *)
Definition exact_addition (X : Extern) : Prop :=
  forall a b, fadd X a b == a + b.

(** Python's [sum] over floats: the additions from 0, left to right. *)
Definition py_sum (X : Extern) (l : list Q) : Q := fold_left (fadd X) l 0.

(** The priority order of the exit checks: the strategy's own signal, then
    the stop loss, then the take profit. *)
Definition exit_by_priority (signal_reason : ExitReason) (signal stop take : bool)
  : option ExitReason :=
  if signal then Some signal_reason
  else if stop then Some STOP_LOSS
  else if take then Some TAKE_PROFIT
  else None.

Definition exit_with (X : Extern) (st : SimState) (pos : Position) (bar : Bar)
    (r : option ExitReason) : SimState :=
  append_equity match r with
                | Some reason => close_position X st pos (close bar) (timestamp bar) reason
                | None => st
                end.

(** ** Grid, bounds and windows *)

(** An integer parameter whose declared step, if any, is positive. *)
Definition int_range (r : ParamRange) : bool :=
  match r with
  | RInt _ _ None => true
  | RInt _ _ (Some s) => (0 <? s)%Z
  | _ => false
  end.

Definition step_of (step : option Z) : Z :=
  match step with Some s => s | None => 1%Z end.

(** The number of steps of an integer parameter:
    [floor((max - min) / step) + 1], and none when [max < min]. *)
Definition grid_size (r : ParamRange) : nat :=
  match r with
  | RInt lo hi step =>
      if (lo <=? hi)%Z then Z.to_nat ((hi - lo) / step_of step + 1) else 0%nat
  | _ => 0%nat
  end.

(** [v] is one of the steps [min, min + step, ...] up to [max]. *)
Definition grid_point (v : pval) (r : ParamRange) : Prop :=
  match r with
  | RInt lo hi step =>
      exists k : nat, v = VInt (lo + Z.of_nat k * step_of step)%Z
                      /\ (lo + Z.of_nat k * step_of step <= hi)%Z
  | _ => False
  end.

(** [d] assigns to every parameter, in the order of the domain, one of
    its steps. *)
Definition in_grid (parameter_ranges : list (string * ParamRange)) (d : dict) : Prop :=
  map fst d = map fst parameter_ranges
  /\ Forall2 grid_point (map snd d) (map snd parameter_ranges).

(** [v] lies within the declared bounds of [r]: an int between the bounds
    of an int range, a float between the bounds of a float range or of a
    [(low, high)] pair.  A domain without bounds (a list of choices, a dict
    of another type) constrains nothing. *)
Definition within (r : ParamRange) (v : pval) : Prop :=
  match r with
  | RInt lo hi _ => exists z, v = VInt z /\ (lo <= z <= hi)%Z
  | RFloat lo hi _ => exists q, v = VFloat q /\ lo <= q <= hi
  | RPair lo hi => exists q, v = VFloat q /\ lo <= q <= hi
  | RCategorical _ | RDict _ => True
  end.

(** The number of windows of size [W] that fit in [D] days when the start
    advances by [stp]: [floor((D - W) / stp) + 1] for [D >= W], else 0. *)
Definition window_count (D W stp : Z) : nat :=
  if (W <=? D)%Z then Z.to_nat ((D - W) / stp + 1) else 0%nat.

(** The request for the [k]-th window. *)
Definition window_request (tp : TaskParams) (W stp start : Z) (k : nat) : BacktestParams :=
  request tp (Some (match tp_parameters tp with Some d => d | None => [] end))
          (start + Z.of_nat k * stp) (start + Z.of_nat k * stp + W).

(** ** Sessions *)

(** [c] leaves the log of backtest calls as it found it. *)
Definition keeps_calls {world A : Type} (c : M world A) : Prop :=
  forall s, calls (snd (c s)) = calls s.

(** The backtester of the service, as the optimizer holds it. *)
Definition service (X : Extern) (world : Type)
    (market : string -> Z -> world -> result (list Bar) * world)
  : BacktestParams -> world -> BacktestResult * world :=
  run_backtest X world market.

Definition unknown (strategy_name : string) : Prop :=
  dict_mem strategy_name strategies = false.

Definition all_failed (log : list (BacktestParams * BacktestResult)) : Prop :=
  Forall (fun c => is_success (snd c) = false) log.

(** What the pair best individual / best fitness is to the backtests in
    [log]: no fitness in the log beats it, and it is either the initial
    pair or the fitness of a logged backtest of that individual. *)
Definition best_seen (tp : TaskParams) (log : list (BacktestParams * BacktestResult))
    (best_ind : option dict) (best_fit : fl) : Prop :=
  best_fit <> NaN
  /\ (forall c, In c log -> fl_gt (fitness_of tp (snd c)) best_fit = false)
  /\ ((best_ind = None /\ best_fit = NegInf)
      \/ exists ind r,
           best_ind = Some ind
           /\ In (request tp (Some ind) (start_date_of tp) (end_date_of tp), r) log
           /\ fitness_of tp r = best_fit).

(** Every score of the list is the fitness of a backtest in [log]. *)
Definition scored_in (tp : TaskParams) (log : list (BacktestParams * BacktestResult))
    (scores : list fl) : Prop :=
  Forall (fun f => exists c, In c log /\ fitness_of tp (snd c) = f) scores.

(** No best fitness recorded in the generation history beats [best_fit]. *)
Definition history_below (history : list GenerationStats) (best_fit : fl) : Prop :=
  forall stats, In stats history -> fl_gt (gs_best_fitness stats) best_fit = false.

(** * Concrete inputs *)

(** [closes.rolling(window).mean().iloc[i]] of pandas: NaN until [window]
    samples are there, then the mean of the last [window] samples. *)
Definition pandas_rolling_mean (closes : list Q) (window : Q) (i : nat) : ind :=
  let w := Z.to_nat (Qfloor window) in
  if (w =? 0)%nat || (i + 1 <? w)%nat || (length closes <=? i)%nat then None
  else Some (Qred (Qsum (firstn w (skipn (i + 1 - w) closes)) / of_nat w)).

(** [closes.rolling(window=window)]: pandas refuses a window that is not
    an integer 0 or greater. *)
Definition pandas_rolling (closes : list Q) (window : pval) : result (nat -> ind) :=
  match window with
  | VInt z =>
      if (0 <=? z)%Z then Ok (pandas_rolling_mean closes (inject_Z z))
      else Raise (ValueError "window must be an integer 0 or greater")
  | VFloat _ => Raise (ValueError "window must be an integer 0 or greater")
  end.

(** The external libraries for the concrete runs below, in exact
    arithmetic: the rolling mean is computed, the [ta] indicators stay in
    warm-up (NaN), and the Sharpe ratio is 0, its value on a flat curve; no
    run below reads it on another curve. *)
Definition sample_lib : Extern :=
  {| fadd := Qplus;
     fsub := Qminus;
     fmul := Qmult;
     fdiv := Qdiv;
     fconst := fun q => q;
     ta_rsi := fun _ _ => Ok (fun _ => None);
     ta_macd := fun _ _ _ _ => Ok (fun _ => None);
     ta_macd_signal := fun _ _ _ _ => Ok (fun _ => None);
     rolling_mean := pandas_rolling;
     bollinger_hband := fun _ _ _ => Ok (fun _ => None);
     bollinger_lband := fun _ _ _ => Ok (fun _ => None);
     bollinger_mavg := fun _ _ _ => Ok (fun _ => None);
     np_sharpe := fun _ => Fin 0 |}.

(** Hourly bars with the given closing prices. *)
Definition hourly (closes : list Q) : list Bar :=
  map (fun ic : nat * Q => {| timestamp := Z.of_nat (fst ic) * 3600; close := snd ic |})
      (combine (seq 0 (length closes)) closes).

(** Fifty flat bars, a jump to 20 that makes the fast average cross above
    the slow one, then a fall to 19: below the 3% stop of the position
    opened at 20, with the fast average still above the slow one. *)
Definition stop_loss_series : list Bar := hourly (repeat 10 50 ++ [20; 19]).

(** A short run of the moving-average strategy with windows 2 and 3 that
    opens at 20 and closes at 5 on the bearish crossover. *)
Definition round_trip_series : list Bar := hourly [10; 10; 10; 20; 19; 5; 5].

Definition round_trip_params : list (string * pval) :=
  [ ("fast_ma"%string, VInt 2); ("slow_ma"%string, VInt 3) ].

(** *** Binary64 arithmetic

    The float operations of Python on finite values, through the IEEE 754
    operations of [SpecFloat] at precision 53 and maximal exponent 1024.
    A float is carried as the rational it denotes. *)

(** The rational a finite float denotes, in lowest terms. *)
Definition SF2Q (f : spec_float) : Q :=
  match f with
  | S754_finite s m e =>
      let z := if s then Zneg m else Zpos m in
      Qred (match e with
            | Zneg k => z # (Pos.shiftl 1 (Npos k))
            | _ => inject_Z (z * 2 ^ e)
            end)
  | _ => 0
  end.

Definition Z2SF (z : Z) : spec_float := binary_normalize 53 1024 z 0 false.

(** The float nearest to a rational: a dyadic is rounded as it stands, a
    literal such as [0.95] is the correctly rounded quotient of its
    numerator and denominator. *)
Definition Q2SF (q : Q) : spec_float :=
  let n := Qnum q in
  let d := Qden q in
  let k := Z.log2 (Zpos d) in
  if (Zpos d =? 2 ^ k)%Z then binary_normalize 53 1024 n (- k) false
  else SFdiv 53 1024 (Z2SF n) (Z2SF (Zpos d)).

Definition b64 (op : spec_float -> spec_float -> spec_float) (x y : Q) : Q :=
  SF2Q (op (Q2SF x) (Q2SF y)).

Definition b64_add : Q -> Q -> Q := b64 (SFadd 53 1024).
Definition b64_sub : Q -> Q -> Q := b64 (SFsub 53 1024).
Definition b64_mul : Q -> Q -> Q := b64 (SFmul 53 1024).
Definition b64_div : Q -> Q -> Q := b64 (SFdiv 53 1024).
Definition b64_const (q : Q) : Q := SF2Q (Q2SF q).

(** The rolling mean in binary64: the float sum of the window divided by
    its length.  On closes that are small integers, as in the runs below,
    every window sum is exact, in whatever order pandas adds the samples. *)
Definition b64_rolling_mean (closes : list Q) (w : nat) (i : nat) : ind :=
  if (w =? 0)%nat || (i + 1 <? w)%nat || (length closes <=? i)%nat then None
  else Some (b64_div (fold_left b64_add (firstn w (skipn (i + 1 - w) closes)) 0)
                     (of_nat w)).

Definition b64_rolling (closes : list Q) (window : pval) : result (nat -> ind) :=
  match window with
  | VInt z =>
      if (0 <=? z)%Z then Ok (b64_rolling_mean closes (Z.to_nat z))
      else Raise (ValueError "window must be an integer 0 or greater")
  | VFloat _ => Raise (ValueError "window must be an integer 0 or greater")
  end.

(** The external libraries in binary64 arithmetic, for the runs below on
    the moving-average strategy. *)
Definition binary64_lib : Extern :=
  {| fadd := b64_add;
     fsub := b64_sub;
     fmul := b64_mul;
     fdiv := b64_div;
     fconst := b64_const;
     ta_rsi := fun _ _ => Ok (fun _ => None);
     ta_macd := fun _ _ _ _ => Ok (fun _ => None);
     ta_macd_signal := fun _ _ _ _ => Ok (fun _ => None);
     rolling_mean := b64_rolling;
     bollinger_hband := fun _ _ _ => Ok (fun _ => None);
     bollinger_lband := fun _ _ _ => Ok (fun _ => None);
     bollinger_mavg := fun _ _ _ => Ok (fun _ => None);
     np_sharpe := fun _ => Fin 0 |}.

(** Two losing round trips of the moving-average strategy with windows 2
    and 3: in at 20 and out at 5, then in at 7 and out at 3. *)
Definition falling_series : list Bar :=
  hourly [10; 10; 10; 20; 19; 5; 5; 5; 7; 8; 3; 3].

Definition binary64_run : list Trade * list Q :=
  execute_strategy binary64_lib "ma_crossover" falling_series
    (Some round_trip_params) 1000.

(** A single break-even trade. *)
Definition flat_trade : Trade :=
  {| t_entry_time := 0; t_exit_time := 3600;
     t_entry_price := 100; t_exit_price := 100; t_quantity := 1;
     pnl := 0; pnl_pct := 0; exit_reason := BB_MIDDLE; duration_hours := 1 |}.

(** The order numpy sorts floats in: NaN last. *)
Definition fl_leb (a b : fl) : bool :=
  match a, b with
  | _, NaN => true
  | NaN, _ => false
  | NegInf, _ => true
  | _, NegInf => false
  | _, PosInf => true
  | PosInf, _ => false
  | Fin x, Fin y => Qle_bool x y
  end.

Fixpoint insert_index (x : nat * fl) (l : list (nat * fl)) : list (nat * fl) :=
  match l with
  | [] => [x]
  | y :: l' => if fl_leb (snd y) (snd x) then y :: insert_index x l' else x :: l
  end.

(** [np.argsort]: the indices in ascending order of the values. *)
Definition sample_argsort (l : list fl) : list nat :=
  map fst (fold_left (fun acc x => insert_index x acc)
                     (combine (seq 0 (length l)) l) []).

(** [np.argmax]: the first index of a largest value. *)
Definition sample_argmax (l : list fl) : nat :=
  fst (fold_left (fun (m : nat * fl) (x : nat * fl) =>
                    if fl_leb (snd x) (snd m) then m else x)
                 (combine (seq 0 (length l)) l) (0%nat, NegInf)).

Definition sample_mean (l : list fl) : fl :=
  match l with
  | [] => NaN
  | _ =>
      fold_left (fun m x => match m, x with
                            | Fin a, Fin b => Fin (a + b / of_nat (length l))
                            | NaN, _ | _, NaN => NaN
                            | PosInf, NegInf | NegInf, PosInf => NaN
                            | PosInf, _ | _, PosInf => PosInf
                            | NegInf, _ | _, NegInf => NegInf
                            end) l (Fin 0)
  end.

(** A deterministic stand-in for [numpy.random] and [optuna]: the world
    is a counter, every draw is read off it and advances it. *)
Definition sample_oracles : Lib nat :=
  {| randint := fun lo hi w =>
       if (lo <? hi)%Z
       then (Ok (lo + Z.of_nat (w / 2 + w / 4) mod (hi - lo))%Z, S w)
       else (Raise (ValueError "low >= high"), w);
     uniform := fun lo hi w =>
       (lo + (of_nat (w mod 10) / 10) * (hi - lo), S w);
     random := fun w => (of_nat (w mod 10) / 10, S w);
     choice := fun l w =>
       match nth_error l (w mod length l) with
       | Some v => (Ok v, S w)
       | None => (Raise (ValueError "a must be non-empty"), w)
       end;
     choice_indices := fun n k w =>
       if (k <=? n)%nat
       then (Ok (map (fun i => ((w + i) mod n)%nat) (seq 0 k)), S w)
       else (Raise (ValueError "Cannot take a larger sample than population"), w);
     argsort := sample_argsort;
     argmax := sample_argmax;
     np_mean := sample_mean;
     create_study := fun _ _ w => w;
     ask := fun w => (w, S w);
     suggest_int := fun trial _ lo hi w =>
       if (lo <=? hi)%Z
       then (Ok (lo + Z.of_nat trial mod (hi - lo + 1))%Z, w)
       else (Raise (ValueError "low > high"), w);
     suggest_float := fun trial _ lo hi w =>
       if Qle_bool lo hi
       then (Ok (lo + (of_nat (trial mod 10) / 10) * (hi - lo)), w)
       else (Raise (ValueError "low > high"), w);
     suggest_categorical := fun trial _ l w =>
       match nth_error l (trial mod length l) with
       | Some v => (Ok v, w)
       | None => (Raise (ValueError "choices must not be empty"), w)
       end;
     tell := fun _ _ w => w |}.

(** An exchange that always serves the same seven hourly bars from
    2023-01-01 on. *)
Definition sample_market : string -> Z -> nat -> result (list Bar) * nat :=
  fun _ _ w =>
    (Ok (map (fun b => {| timestamp := timestamp b + 19358 * 86400; close := close b |})
             round_trip_series), w).

Definition sample_service : BacktestParams -> nat -> BacktestResult * nat :=
  service sample_lib nat sample_market.

Definition sample_task (strategy_name : string) (ranges : list (string * ParamRange))
  : TaskParams :=
  {| tp_strategy_name := strategy_name;
     tp_symbol := "BTCUSDT";
     tp_parameter_ranges := ranges;
     tp_objective := Some "total_return"%string;
     tp_start_date := None;
     tp_end_date := None;
     tp_population_size := Some 4%nat;
     tp_generations := Some 2%nat;
     tp_n_trials := Some 3%nat;
     tp_parameters := None;
     tp_window_size := None;
     tp_step_size := None |}.

Definition ma_ranges : list (string * ParamRange) :=
  [ ("fast_ma"%string, RInt 2 3 None); ("slow_ma"%string, RInt 3 4 None) ].

Definition start_state : St nat := {| ext := 0%nat; calls := [] |}.

Definition ab_ranges : list (string * ParamRange) :=
  [ ("a"%string, RInt 1 3 None); ("b"%string, RInt 1 2 None) ].

Definition nope_task : TaskParams := sample_task "nope" ma_ranges.

Definition ma_task : TaskParams := sample_task "ma_crossover" ma_ranges.

(** A domain that declares the stop loss by a plain [(low, high)] pair. *)
Definition pair_ranges : list (string * ParamRange) :=
  [ ("fast_ma"%string, RInt 2 3 None); ("slow_ma"%string, RInt 3 4 None);
    ("stop_loss"%string, RPair (1 # 100) (5 # 100)) ].

Definition pair_task : TaskParams := sample_task "ma_crossover" pair_ranges.

Definition sample_population : list dict :=
  [ [ ("fast_ma"%string, VInt 2); ("slow_ma"%string, VInt 3) ];
    [ ("fast_ma"%string, VInt 3); ("slow_ma"%string, VInt 4) ];
    [ ("fast_ma"%string, VInt 3); ("slow_ma"%string, VInt 4) ];
    [ ("fast_ma"%string, VInt 2); ("slow_ma"%string, VInt 3) ] ].

(** Two generations of four individuals. *)
Definition sample_generations : result GAState * St nat :=
  run_generations sample_service sample_oracles ma_task 4 2 2 sample_population
    start_state.

Definition sample_final : GAState :=
  match fst sample_generations with
  | Ok st => st
  | Raise _ => ga_init []
  end.

(** * Further vocabulary *)

(** A curve that never falls. *)
Fixpoint non_decreasing (l : list Q) : Prop :=
  match l with
  | [] => True
  | x :: l' => match l' with
               | [] => True
               | y :: _ => x <= y /\ non_decreasing l'
               end
  end.

(** The value the evaluator reads for a registry parameter: the caller's
    when given, the default otherwise. *)
Definition resolved_value (c : ParamConfig) (user : list (string * pval)) (k : string)
  : pval :=
  match dict_get k user with
  | Some v => v
  | None => cfg_default c
  end.

(** The frame [run_backtest] works on. *)
Definition frame_of (world : Type)
    (market : string -> Z -> world -> result (list Bar) * world)
    (bp : BacktestParams) (w : world) : list Bar :=
  fst (get_historical_data world market (bp_symbol bp) (bp_start_date bp)
         (bp_end_date bp) w).

Definition winning_trade : Trade :=
  {| t_entry_time := 0; t_exit_time := 7200;
     t_entry_price := 100; t_exit_price := 110; t_quantity := 2;
     pnl := 20; pnl_pct := 10; exit_reason := TAKE_PROFIT; duration_hours := 2 |}.

Definition losing_trade : Trade :=
  {| t_entry_time := 7200; t_exit_time := 10800;
     t_entry_price := 110; t_exit_price := 105; t_quantity := 1;
     pnl := - 5; pnl_pct := - (50 # 11); exit_reason := STOP_LOSS; duration_hours := 1 |}.

(** A parameter with no candidate value: integer bounds in the wrong
    order, or no choice at all. *)
Definition empty_range (r : ParamRange) : bool :=
  match r with
  | RInt lo hi step => (0 <? step_of step)%Z && (hi <? lo)%Z
  | RCategorical [] => true
  | _ => false
  end.

(** The successful backtests of a log. *)
Definition successes (log : list (BacktestParams * BacktestResult))
  : list (BacktestParams * BacktestResult) :=
  filter (fun c => is_success (snd c)) log.

Definition reversed_task : TaskParams :=
  sample_task "ma_crossover" [ ("fast_ma"%string, RInt 5 2 None) ].

(** What the best pair of the Bayesian search is to the recorded trials:
    no recorded value beats it, and it is either the initial pair or the
    parameters and value of a recorded trial. *)
Definition best_trial (results : list TrialResult) (best_params : option dict)
    (best_value : fl) : Prop :=
  best_value <> NaN
  /\ (forall t, In t results -> fl_gt (trial_value t) best_value = false)
  /\ ((best_params = None /\ best_value = NegInf)
      \/ exists t, In t results
                   /\ best_params = Some (trial_parameters t)
                   /\ trial_value t = best_value).

(** Every binding of [d] lies within the bounds of a declared range of
    its key. *)
Definition bounded (ranges : list (string * ParamRange)) (d : dict) : Prop :=
  forall k v, In (k, v) d -> exists r, In (k, r) ranges /\ within r v.

(** A float range with its bounds in order. *)
Definition ordered_range (r : ParamRange) : Prop :=
  match r with
  | RFloat lo hi _ => lo <= hi
  | RPair lo hi => lo <= hi
  | _ => True
  end.

(** The contract of [numpy.random]: [randint(lo, hi)] is in [lo, hi) and
    [uniform(lo, hi)] in [lo, hi] for [lo <= hi]. *)
Definition numpy_contract {world : Type} (L : Lib world) : Prop :=
  (forall lo hi w z w', randint L lo hi w = (Ok z, w') -> (lo <= z < hi)%Z)
  /\ (forall lo hi w, lo <= hi -> lo <= fst (uniform L lo hi w) <= hi).

(** The contract of [optuna]: a suggestion lies between its bounds. *)
Definition optuna_contract {world : Type} (L : Lib world) : Prop :=
  (forall t k lo hi w z w', suggest_int L t k lo hi w = (Ok z, w') -> (lo <= z <= hi)%Z)
  /\ (forall t k lo hi w q w',
        suggest_float L t k lo hi w = (Ok q, w') -> lo <= q <= hi).

(** Every request of the log carries a parameter dict within the bounds. *)
Definition bounded_calls (ranges : list (string * ParamRange))
    (log : list (BacktestParams * BacktestResult)) : Prop :=
  Forall (fun c => exists d, bp_parameters (fst c) = Some d /\ bounded ranges d) log.

(** A request without a parameter dict constrains nothing; one with a
    dict carries values within the bounds. *)
Definition calls_within (ranges : list (string * ParamRange))
    (log : list (BacktestParams * BacktestResult)) : Prop :=
  Forall (fun c => forall d, bp_parameters (fst c) = Some d -> bounded ranges d) log.

(** [c] keeps the property [I] of the log of backtest calls whatever its
    outcome, and a value it returns satisfies [Q]. *)
Definition triple {world A : Type} (I : list (BacktestParams * BacktestResult) -> Prop)
    (c : M world A) (Q : A -> Prop) : Prop :=
  forall s, I (calls s) ->
    I (calls (snd (c s))) /\ forall a, fst (c s) = Ok a -> Q a.

(** The log is [base] followed by requests within the bounds. *)
Definition extends_within (ranges : list (string * ParamRange))
    (base log : list (BacktestParams * BacktestResult)) : Prop :=
  exists l, log = base ++ l /\ calls_within ranges l.

(** The entry the walk-forward loop records for a successful call. *)
Definition window_of (c : BacktestParams * BacktestResult) : WindowResult :=
  {| window_start := bp_start_date (fst c);
     window_end := bp_end_date (fst c);
     window_metrics := result_metrics (snd c) |}.

(** A walk-forward task whose window never advances. *)
Definition stalled_task : TaskParams :=
  {| tp_strategy_name := "ma_crossover";
     tp_symbol := "BTCUSDT";
     tp_parameter_ranges := [];
     tp_objective := None;
     tp_start_date := None;
     tp_end_date := None;
     tp_population_size := None;
     tp_generations := None;
     tp_n_trials := None;
     tp_parameters := None;
     tp_window_size := None;
     tp_step_size := Some 0%Z |}.

(** Aggregate statistics of a walk-forward analysis with no dispersion of
    the Sharpe ratio. *)
Definition steady_stats : list (string * Q) :=
  [ ("win_rate"%string, 1); ("average_sharpe"%string, 2); ("sharpe_std"%string, 0);
    ("max_drawdown"%string, 0); ("average_return"%string, 1) ].

(** The cumulative pnl after each trade, from [c]. *)
Fixpoint running_pnl (c : Q) (trades : list Trade) : list Q :=
  match trades with
  | [] => []
  | t :: ts => (c + pnl t) :: running_pnl (c + pnl t) ts
  end.

(** Every value of the list is at least the one before it, from [prev]. *)
Fixpoint rising (prev : Q) (l : list Q) : Prop :=
  match l with
  | [] => True
  | x :: l' => prev <= x /\ rising x l'
  end.

(** What the scan of a curve keeps: the current drawdown is never
    positive and the recorded depths are positive. *)
Definition scan_invariant (st : DrawdownScan) : Prop :=
  ds_current_drawdown st <= 0 /\ Forall (fun d => 0 < d) (ds_drawdowns st).


(** The call is a request of the task [tp] for its date range. *)
Definition asks_for (tp : TaskParams) (c : BacktestParams * BacktestResult) : Prop :=
  exists p, fst c = request tp p (start_date_of tp) (end_date_of tp).

(** The log is [base] followed by calls that satisfy [P]. *)
Definition extends_with (P : BacktestParams * BacktestResult -> Prop)
    (base log : list (BacktestParams * BacktestResult)) : Prop :=
  exists l, log = base ++ l /\ Forall P l.

(** A task with a date range of its own, for the default engine. *)
Definition dated_task : OptimizeParams :=
  {| op_strategy_name := Some "ma_crossover"%string;
     op_symbol := None;
     op_method := None;
     op_parameter_ranges := ma_ranges;
     op_objective := Some "total_return"%string;
     op_n_trials := Some 3%nat;
     op_population_size := None;
     op_generations := None;
     op_start_date := Some 19000%Z;
     op_end_date := Some 19100%Z |}.

(** A task for an engine that does not exist. *)
Definition annealing_task : OptimizeParams :=
  {| op_strategy_name := Some "ma_crossover"%string;
     op_symbol := None;
     op_method := Some "annealing"%string;
     op_parameter_ranges := ma_ranges;
     op_objective := None;
     op_n_trials := None;
     op_population_size := None;
     op_generations := None;
     op_start_date := None;
     op_end_date := None |}.

(** A stable insertion sort for [sorted]: ascending, or descending with
    [reverse]. *)
Fixpoint sample_insert {A : Type} (key : A -> fl) (reverse : bool) (x : A) (l : list A)
  : list A :=
  match l with
  | [] => [x]
  | y :: l' =>
      if (if reverse then fl_leb (key y) (key x) else fl_leb (key x) (key y))
      then x :: l
      else y :: sample_insert key reverse x l'
  end.

Definition sample_sorted (A : Type) (key : A -> fl) (reverse : bool) (l : list A)
  : list A :=
  fold_right (sample_insert key reverse) [] l.

(** A comparison of three strategies, the second of which is unknown. *)
Definition sample_comparison : ComparisonParams :=
  {| cp_strategies :=
       [ {| sq_name := Some "ma_crossover"%string;
            sq_parameters := Some round_trip_params |};
         {| sq_name := Some "nope"%string; sq_parameters := None |};
         {| sq_name := Some "rsi_strategy"%string; sq_parameters := None |} ];
     cp_symbol := None;
     cp_start_date := None;
     cp_end_date := None |}.

(** The backtests of the grid search on the domain [a: 1..3, b: 1..2]. *)
Definition grid_example_log : list (BacktestParams * BacktestResult) :=
  calls (snd (parameter_sweep sample_service (sample_task "ma_crossover" ab_ranges)
                start_state)).

(** * Properties of the strategy evaluators *)

Lemma Qltb_lt (x y : Q) : Qltb x y = true <-> x < y.
Proof.
  unfold Qltb. rewrite negb_true_iff.
  split; intro H.
  - apply Qnot_le_lt. intro Hle. apply Qle_bool_iff in Hle. congruence.
  - destruct (Qle_bool y x) eqn:E; [|reflexivity].
    apply Qle_bool_iff in E. exfalso. apply (Qlt_not_le _ _ H E).
Qed.

Lemma Qltb_ge (x y : Q) : Qltb x y = false <-> y <= x.
Proof.
  unfold Qltb. rewrite negb_false_iff. apply Qle_bool_iff.
Qed.

Lemma Qsum_snoc (l : list Q) (x : Q) : Qsum (l ++ [x]) = Qsum l + x.
Proof. unfold Qsum. rewrite fold_left_app. reflexivity. Qed.

#[local] Ltac bar_cases :=
  repeat match goal with
         | |- context [if ?c then _ else _] => destruct c
         end;
  eexists; (split; [reflexivity |]);
  first [ apply tr_hold | apply tr_open; assumption | apply tr_close; assumption ].

Lemma rsi_step_bar X params rsi : bar_step X (rsi_step X params rsi).
Proof.
  intros st [i bar]. unfold rsi_step.
  destruct (position st) as [pos|] eqn:Hp; bar_cases.
Qed.

Lemma macd_step_bar X params line signal : bar_step X (macd_step X params line signal).
Proof.
  intros st [i bar]. unfold macd_step.
  destruct (position st) as [pos|] eqn:Hp; bar_cases.
Qed.

Lemma ma_step_bar X params fast slow : bar_step X (ma_step X params fast slow).
Proof.
  intros st [i bar]. unfold ma_step.
  destruct (position st) as [pos|] eqn:Hp; bar_cases.
Qed.

Lemma bollinger_step_bar X params lower middle :
  bar_step X (bollinger_step X params lower middle).
Proof.
  intros st [i bar]. unfold bollinger_step.
  destruct (position st) as [pos|] eqn:Hp; bar_cases.
Qed.

Lemma bars_from_1_length (df : list Bar) :
  length (bars_from_1 df) = (length df - 1)%nat.
Proof.
  unfold bars_from_1.
  destruct df as [|b df]; [reflexivity|].
  cbn [length seq combine tl].
  rewrite length_combine, length_seq. lia.
Qed.

Lemma transition_equity X st st' :
  transition X st st' -> equity_curve st' = equity_curve st.
Proof. intros H; destruct H; reflexivity. Qed.

(** Every bar appends exactly one value and keeps the values before it. *)
Lemma fold_equity_curve X step (Hstep : bar_step X step) (l : list (nat * Bar)) :
  forall st, exists rest,
    equity_curve (fold_left step l st) = equity_curve st ++ rest
    /\ length rest = length l.
Proof.
  induction l as [|ib l IH]; intros st; cbn [fold_left].
  - exists []. rewrite app_nil_r. split; reflexivity.
  - destruct (Hstep st ib) as [st' [E T]].
    destruct (IH (step st ib)) as [rest [Hr Hl]].
    exists (current_capital st' :: rest). split.
    + rewrite Hr, E. cbn [append_equity equity_curve].
      rewrite (transition_equity _ _ _ T), <- app_assoc. reflexivity.
    + cbn [length]. now rewrite Hl.
Qed.

Lemma transition_conserved X ic st st' :
  conserved X ic st -> transition X st st' -> conserved X ic st'.
Proof.
  unfold conserved, running_balance. intros H T. destruct T.
  - exact H.
  - exact H.
  - cbn [close_position trades current_capital].
    rewrite map_app, fold_left_app. cbn [map pnl fold_left]. rewrite H. reflexivity.
Qed.

Lemma fold_conserved X step (Hstep : bar_step X step) ic (l : list (nat * Bar)) :
  forall st, conserved X ic st -> conserved X ic (fold_left step l st).
Proof.
  induction l as [|ib l IH]; intros st H; cbn [fold_left]; [exact H|].
  apply IH. destruct (Hstep st ib) as [st' [E T]]. rewrite E.
  apply (transition_conserved X ic st st' H T).
Qed.

(** The last equity value is the capital. *)
Lemma fold_last_equity X step (Hstep : bar_step X step) (l : list (nat * Bar)) :
  forall st d, last (equity_curve st) d = current_capital st ->
    last (equity_curve (fold_left step l st)) d = current_capital (fold_left step l st).
Proof.
  induction l as [|ib l IH]; intros st d H; cbn [fold_left]; [exact H|].
  apply IH. destruct (Hstep st ib) as [st' [E T]]. rewrite E.
  cbn [append_equity equity_curve current_capital]. apply last_last.
Qed.

(** When the [try] block of [_execute_strategy] raises nothing, one of the
    four loops ran: the strategy is registered, a parameter dict was given
    and every indicator call returned its series. *)
Lemma execute_strategy_body_loop (X : Extern) (strategy_name : string)
    (df : list Bar) (user : option (list (string * pval))) (ic : Q)
    (r : list Trade * list Q) :
  execute_strategy_body X strategy_name df user ic = Ok r ->
  dict_mem strategy_name strategies = true
  /\ user <> None
  /\ exists step, bar_step X step /\ r = outcome (run_loop step df ic).
Proof.
  unfold execute_strategy_body, dict_mem.
  destruct (dict_get strategy_name strategies) as [sc|]; [|discriminate].
  destruct user as [u|]; [|discriminate].
  intros H. split; [reflexivity|]. split; [discriminate|]. revert H.
  destruct (String.eqb strategy_name "rsi_strategy").
  { unfold execute_rsi_strategy.
    destruct (ta_rsi X _ _) as [rsi|e]; cbn [bind]; [|discriminate].
    intros H. injection H as <-. eexists. split; [apply rsi_step_bar | reflexivity]. }
  destruct (String.eqb strategy_name "macd_strategy").
  { unfold execute_macd_strategy.
    destruct (ta_macd X _ _ _ _) as [line|e]; cbn [bind]; [|discriminate].
    destruct (ta_macd_signal X _ _ _ _) as [signal|e]; cbn [bind]; [|discriminate].
    intros H. injection H as <-. eexists. split; [apply macd_step_bar | reflexivity]. }
  destruct (String.eqb strategy_name "ma_crossover").
  { unfold execute_ma_crossover_strategy.
    destruct (rolling_mean X _ (praw _ "fast_ma")) as [fast|e]; cbn [bind];
      [|discriminate].
    destruct (rolling_mean X _ (praw _ "slow_ma")) as [slow|e]; cbn [bind];
      [|discriminate].
    intros H. injection H as <-. eexists. split; [apply ma_step_bar | reflexivity]. }
  destruct (String.eqb strategy_name "bollinger_bands").
  { unfold execute_bollinger_strategy.
    destruct (bollinger_hband X _ _ _) as [upper|e]; cbn [bind]; [|discriminate].
    destruct (bollinger_lband X _ _ _) as [lower|e]; cbn [bind]; [|discriminate].
    destruct (bollinger_mavg X _ _ _) as [middle|e]; cbn [bind]; [|discriminate].
    intros H. injection H as <-. eexists.
    split; [apply bollinger_step_bar | reflexivity]. }
  discriminate.
Qed.

(** An exception in the [try] block gives no trades and the seed curve. *)
Lemma execute_strategy_handler (X : Extern) (strategy_name : string)
    (df : list Bar) (user : option (list (string * pval))) (ic : Q) (e : exn) :
  execute_strategy_body X strategy_name df user ic = Raise e ->
  execute_strategy X strategy_name df user ic = ([], [ic]).
Proof. unfold execute_strategy. intros ->. reflexivity. Qed.

(** In exact arithmetic the running balance is the initial capital plus
    the sum of the pnl. *)
Lemma running_balance_exact (X : Extern) (pnls : list Q) :
  exact_addition X ->
  forall ic, running_balance X ic pnls == ic + Qsum pnls.
Proof.
  intros Hx. unfold running_balance, Qsum.
  induction pnls as [|p l IH]; intros ic; cbn [fold_left]; [ring|].
  rewrite IH. rewrite (Hx ic p).
  assert (E : forall a, fold_left Qplus l a == a + fold_left Qplus l 0).
  { clear. induction l as [|x l IH]; intros a; cbn [fold_left]; [ring|].
    rewrite IH, (IH (0 + x)). ring. }
  rewrite (E (0 + p)). ring.
Qed.

(** C5.  Over a non-empty price series of N bars, an evaluation whose
    [try] block raises nothing returns the seed [initial_capital] followed
    by one value per bar 1..N-1: N entries.  An evaluation that raises
    there (no parameter dict, an indicator call that refuses a parameter)
    is answered by the handler with no trades and the seed alone, one
    entry whatever N. *)
Theorem equity_curve_length (X : Extern) (strategy_name : string)
    (df : list Bar) (user : option (list (string * pval))) (initial_capital : Q) :
  df <> [] ->
  (forall r, execute_strategy_body X strategy_name df user initial_capital = Ok r ->
     execute_strategy X strategy_name df user initial_capital = r
     /\ user <> None
     /\ exists rest,
          snd r = initial_capital :: rest
          /\ length rest = (length df - 1)%nat
          /\ length (snd r) = length df)
  /\ (forall e, execute_strategy_body X strategy_name df user initial_capital = Raise e ->
        execute_strategy X strategy_name df user initial_capital
        = ([], [initial_capital]))
  /\ (user = None ->
        execute_strategy X strategy_name df user initial_capital
        = ([], [initial_capital])).
Proof.
  intros Hne. split; [|split].
  - intros r E.
    destruct (execute_strategy_body_loop X strategy_name df user initial_capital r E)
      as [_ [Hu [step [Hstep ->]]]].
    split; [unfold execute_strategy; rewrite E; reflexivity|]. split; [exact Hu|].
    unfold outcome, run_loop. cbn [snd].
    destruct (fold_equity_curve X step Hstep (bars_from_1 df)
                (init_state initial_capital)) as [rest [Hr Hl]].
    exists rest. rewrite Hr. cbn [init_state equity_curve app length].
    rewrite Hl, bars_from_1_length.
    repeat split; try reflexivity.
    destruct df; [contradiction | cbn [length]; lia].
  - intros e. apply execute_strategy_handler.
  - intros ->. unfold execute_strategy, execute_strategy_body.
    destruct (dict_get strategy_name strategies); reflexivity.
Qed.

(** C4.  The last value of the equity curve is the running balance of the
    emitted trades: the initial capital with each pnl added in trade
    order by one float addition; a position still open at the end adds
    nothing.  In exact arithmetic that is the initial capital plus the sum
    of the pnl. *)
Theorem capital_conservation (X : Extern) (strategy_name : string)
    (df : list Bar) (user : option (list (string * pval))) (initial_capital : Q) :
  last (snd (execute_strategy X strategy_name df user initial_capital)) initial_capital
  = running_balance X initial_capital
      (map pnl (fst (execute_strategy X strategy_name df user initial_capital)))
  /\ (exact_addition X ->
      last (snd (execute_strategy X strategy_name df user initial_capital))
           initial_capital
      == initial_capital
         + Qsum (map pnl (fst (execute_strategy X strategy_name df user
                                 initial_capital)))).
Proof.
  assert (H : last (snd (execute_strategy X strategy_name df user initial_capital))
                   initial_capital
              = running_balance X initial_capital
                  (map pnl (fst (execute_strategy X strategy_name df user
                                   initial_capital)))).
  { unfold execute_strategy.
    destruct (execute_strategy_body X strategy_name df user initial_capital)
      as [r|e] eqn:E; [|reflexivity].
    destruct (execute_strategy_body_loop X strategy_name df user initial_capital r E)
      as [_ [_ [step [Hstep ->]]]].
    unfold outcome, run_loop. cbn [fst snd].
    rewrite (fold_last_equity X step Hstep); [| reflexivity].
    apply (fold_conserved X step Hstep). reflexivity. }
  split; [exact H|]. intros Hx. rewrite H. apply running_balance_exact. exact Hx.
Qed.

(** ** Exit conditions *)

(** The RSI loop checks its exits in the priority order. *)
Lemma rsi_exit_priority X params rsi st pos i bar :
  position st = Some pos ->
  rsi_step X params rsi st (i, bar)
  = exit_with X st pos bar
      (exit_by_priority RSI_OVERBOUGHT
         (ind_lt (Some (pget X params "overbought_level")) (rsi i))
         (Qle_bool (close bar) (stop_loss pos))
         (Qle_bool (take_profit pos) (close bar))).
Proof.
  intros Hp. unfold rsi_step, exit_with, exit_by_priority. rewrite Hp.
  repeat match goal with |- context [if ?c then _ else _] => destruct c end;
    reflexivity.
Qed.

(** So does the MACD loop. *)
Lemma macd_exit_priority X params line signal st pos i bar :
  position st = Some pos ->
  macd_step X params line signal st (i, bar)
  = exit_with X st pos bar
      (exit_by_priority MACD_SIGNAL
         (ind_le (signal (i - 1)%nat) (line (i - 1)%nat) && ind_lt (line i) (signal i))
         (Qle_bool (close bar) (stop_loss pos))
         (Qle_bool (take_profit pos) (close bar))).
Proof.
  intros Hp. unfold macd_step, exit_with, exit_by_priority. rewrite Hp.
  repeat match goal with |- context [if ?c then _ else _] => destruct c end;
    reflexivity.
Qed.

(** The moving-average loop has no stop-loss or take-profit check: without
    a bearish crossover the position stays open at every price. *)
Lemma ma_step_holds X params fast slow st pos i bar :
  position st = Some pos ->
  ind_le (slow (i - 1)%nat) (fast (i - 1)%nat) && ind_lt (fast i) (slow i) = false ->
  ma_step X params fast slow st (i, bar) = append_equity st.
Proof.
  intros Hp Hc. unfold ma_step. rewrite Hp, Hc. reflexivity.
Qed.

(** Neither has the Bollinger loop: below the middle band the position
    stays open at every price. *)
Lemma bollinger_step_holds X params lower middle st pos i bar :
  position st = Some pos ->
  ind_le (middle i) (Some (close bar)) = false ->
  bollinger_step X params lower middle st (i, bar) = append_equity st.
Proof.
  intros Hp Hc. unfold bollinger_step. rewrite Hp, Hc. reflexivity.
Qed.

(** C1.  The moving-average strategy with its default parameters on
    [stop_loss_series]: the position opened at 20 has its stop at 19.4,
    the last bar closes at 19, and yet no trade is emitted and the
    position is still open at the end. *)
Theorem ma_crossover_skips_stop_loss :
  let params := [ ("fast_ma"%string, VInt 20); ("slow_ma"%string, VInt 50);
                  ("stop_loss"%string, VFloat (3#100));
                  ("take_profit"%string, VFloat (6#100)) ] in
  let closes := map close stop_loss_series in
  let st := run_loop (ma_step sample_lib params (pandas_rolling_mean closes 20)
                                                (pandas_rolling_mean closes 50))
                     stop_loss_series 1000 in
  execute_strategy sample_lib "ma_crossover" stop_loss_series (Some []) 1000
    = (trades st, equity_curve st)
  /\ trades st = []
  /\ exists pos, position st = Some pos
       /\ entry_price pos = 20
       /\ stop_loss pos == 194 # 10
       /\ Qle_bool 19 (stop_loss pos) = true.
Proof.
  cbv zeta. split; [vm_compute; reflexivity |].
  split; [vm_compute; reflexivity |].
  eexists. split; [vm_compute; reflexivity |].
  split; [reflexivity |]. split; vm_compute; reflexivity.
Qed.

Lemma round_trip_trades :
  map exit_reason
      (fst (execute_strategy sample_lib "ma_crossover" round_trip_series
              (Some round_trip_params) 1000))
  = [MA_CROSSOVER].
Proof. vm_compute. reflexivity. Qed.

Lemma equity_curve_length_witness :
  exists rest,
    snd (execute_strategy sample_lib "ma_crossover" round_trip_series
           (Some round_trip_params) 1000) = 1000 :: rest
    /\ length rest = (length round_trip_series - 1)%nat
    /\ length (snd (execute_strategy sample_lib "ma_crossover" round_trip_series
                      (Some round_trip_params) 1000))
       = length round_trip_series.
Proof.
  assert (E : exists r,
             execute_strategy_body sample_lib "ma_crossover" round_trip_series
               (Some round_trip_params) 1000 = Ok r).
  { eexists. vm_compute. reflexivity. }
  destruct E as [r E].
  destruct (equity_curve_length sample_lib "ma_crossover" round_trip_series
              (Some round_trip_params) 1000) as [Hloop _].
  - discriminate.
  - destruct (Hloop r E) as [-> [_ H]]. exact H.
Defined.

(** The claim of C5 as it stands fails where the handler answers: a
    request without a parameter dict, or with a window the rolling mean
    refuses, gets the seed alone for a series of seven bars. *)
Lemma equity_curve_length_handler :
  length round_trip_series = 7%nat
  /\ length (snd (execute_strategy sample_lib "ma_crossover" round_trip_series
                    None 1000)) = 1%nat
  /\ length (snd (execute_strategy sample_lib "ma_crossover" round_trip_series
                    None 1000)) <> length round_trip_series
  /\ execute_strategy sample_lib "ma_crossover" round_trip_series
       (Some [ ("fast_ma"%string, VInt (-1)) ]) 1000 = ([], [1000])
  /\ execute_strategy sample_lib "ma_crossover" round_trip_series
       (Some [ ("fast_ma"%string, VFloat 2) ]) 1000 = ([], [1000]).
Proof.
  split; [reflexivity|]. split; [reflexivity|]. split; [vm_compute; discriminate|].
  split; vm_compute; reflexivity.
Qed.

Lemma capital_conservation_witness :
  last (snd (execute_strategy sample_lib "ma_crossover" round_trip_series
               (Some round_trip_params) 1000)) 1000
  == 1000 + Qsum (map pnl (fst (execute_strategy sample_lib "ma_crossover"
                                  round_trip_series (Some round_trip_params) 1000)))
  /\ last (snd binary64_run) 1000
     = running_balance binary64_lib 1000 (map pnl (fst binary64_run)).
Proof.
  split.
  - apply (proj2 (capital_conservation sample_lib "ma_crossover" round_trip_series
                    (Some round_trip_params) 1000)).
    intros a b. reflexivity.
  - exact (proj1 (capital_conservation binary64_lib "ma_crossover" falling_series
                    (Some round_trip_params) 1000)).
Defined.

(** The claim of C4 as it stands fails in binary64.  On [falling_series]
    the two trades lose 712.5 and 156.07142857142858; the curve ends at
    [(1000 - 712.5) - 156.07142857142858 = 131.42857142857142], whereas
    [1000 + sum(pnl) = 1000 + (-712.5 - 156.07142857142858)] is
    131.42857142857144, one unit in the last place above. *)
Lemma capital_conservation_binary64 :
  map pnl (fst binary64_run) = [- (1425 # 2); - (5491275215292709 # 35184372088832)]
  /\ last (snd binary64_run) 1000 = 4624231760246491 # 35184372088832
  /\ fadd binary64_lib 1000 (py_sum binary64_lib (map pnl (fst binary64_run)))
     = 1156057940061623 # 8796093022208
  /\ ~ last (snd binary64_run) 1000
       == fadd binary64_lib 1000 (py_sum binary64_lib (map pnl (fst binary64_run))).
Proof.
  split; [vm_compute; reflexivity|].
  split; [vm_compute; reflexivity|].
  split; [vm_compute; reflexivity|].
  vm_compute. discriminate.
Qed.

(** ** Metrics *)

(** C9.  With no trades and the equity curve [[initial_capital]] the
    metrics are the zero record: win rate, profit factor, Sharpe ratio and
    maximum drawdown are all 0, and the exception handler is not entered. *)
Theorem metrics_degeneracy (X : Extern) (initial_capital : Q) :
  exists kv,
    calculate_metrics X [] [initial_capital] initial_capital = MetricsDict kv
    /\ dict_get "win_rate" kv = Some (Fin 0)
    /\ dict_get "profit_factor" kv = Some (Fin 0)
    /\ dict_get "sharpe_ratio" kv = Some (Fin 0)
    /\ dict_get "max_drawdown" kv = Some (Fin 0).
Proof.
  exists zero_metrics. repeat split; reflexivity.
Qed.

Lemma drawdown_loop_total (values : list Q) :
  forall peak max_drawdown, 0 < peak ->
    exists d, drawdown_loop values peak max_drawdown = Ok d.
Proof.
  induction values as [|value rest IH]; intros peak m Hpos; cbn [drawdown_loop].
  - eexists; reflexivity.
  - set (peak' := if Qltb peak value then value else peak).
    assert (Hp' : 0 < peak').
    { subst peak'. destruct (Qltb peak value) eqn:E; [|exact Hpos].
      apply Qltb_lt in E. eapply Qlt_trans; eassumption. }
    unfold py_div.
    destruct (Qeq_bool peak' 0) eqn:E.
    + apply Qeq_bool_eq in E. rewrite E in Hp'. exfalso. apply (Qlt_irrefl 0 Hp').
    + cbn [bind]. apply IH. exact Hp'.
Qed.

Lemma profit_factor_no_loss (trades : list Trade) :
  gross_loss trades == 0 -> profit_factor trades = PosInf.
Proof.
  intros H. unfold profit_factor.
  assert (E : Qltb 0 (gross_loss trades) = false).
  { apply Qltb_ge. rewrite H. apply Qle_refl. }
  rewrite E. reflexivity.
Qed.

(** C10.  For a non-empty trade list with zero gross loss the profit
    factor is the [+inf] sentinel, also when the gross profit is zero: the
    computed value is [PosInf], every metrics dict returned carries it,
    and a metrics dict is returned whenever the initial capital and the
    first equity value are positive. *)
Theorem profit_factor_sentinel (X : Extern) (trades : list Trade) :
  trades <> [] ->
  gross_loss trades == 0 ->
  profit_factor trades = PosInf
  /\ (forall equity_curve initial_capital kv,
        calculate_metrics X trades equity_curve initial_capital = MetricsDict kv ->
        dict_get "profit_factor" kv = Some PosInf)
  /\ (forall v equity_curve initial_capital,
        0 < initial_capital -> 0 < v ->
        exists kv,
          calculate_metrics X trades (v :: equity_curve) initial_capital = MetricsDict kv).
Proof.
  intros Hne Hloss.
  pose proof (profit_factor_no_loss trades Hloss) as Hpf.
  destruct trades as [|t0 ts]; [contradiction|].
  split; [exact Hpf|]. split.
  - intros ec ic kv. unfold calculate_metrics, calculate_metrics_body.
    destruct (py_div (last ec ic - ic) ic) as [r|e]; cbn [bind]; [|discriminate].
    destruct ec as [|v ec]; cbn [bind]; [discriminate|].
    destruct (drawdown_loop (v :: ec) v 0) as [d|e]; cbn [bind]; [|discriminate].
    intros H. injection H as <-. cbn [dict_get String.eqb Ascii.eqb Bool.eqb].
    cbn. rewrite Hpf. reflexivity.
  - intros v ec ic Hic Hv. unfold calculate_metrics, calculate_metrics_body.
    unfold py_div at 1.
    destruct (Qeq_bool ic 0) eqn:E.
    { apply Qeq_bool_eq in E. rewrite E in Hic. exfalso. apply (Qlt_irrefl 0 Hic). }
    cbn [bind].
    destruct (drawdown_loop_total (v :: ec) v 0 Hv) as [d Hd]. rewrite Hd.
    cbn [bind]. eexists. reflexivity.
Qed.

Lemma profit_factor_sentinel_witness :
  gross_profit [flat_trade] == 0
  /\ dict_get "profit_factor"
       match calculate_metrics sample_lib [flat_trade] [1000; 1000] 1000 with
       | MetricsDict kv => kv
       | MetricsError _ => []
       end = Some PosInf.
Proof.
  split; [reflexivity|].
  destruct (profit_factor_sentinel sample_lib [flat_trade]) as [_ [H _]].
  - discriminate.
  - reflexivity.
  - apply (H [1000; 1000] 1000). vm_compute. reflexivity.
Defined.

(** * Properties of the search engines *)

(** ** The Cartesian product *)

Lemma in_product {A : Type} (ls : list (list A)) :
  forall l, In l (product ls) <-> Forall2 (fun x xs => In x xs) l ls.
Proof.
  induction ls as [|xs ls IH]; intros l; cbn [product].
  - split.
    + intros [<- | []]. constructor.
    + intros H. inversion H. left. reflexivity.
  - rewrite in_flat_map. split.
    + intros [x [Hx Hl]]. apply in_map_iff in Hl. destruct Hl as [l' [<- Hl']].
      constructor; [exact Hx | apply IH; exact Hl'].
    + intros H. inversion H as [|x xs' l' ls' Hx Hl']; subst.
      exists x. split; [exact Hx|]. apply in_map_iff.
      exists l'. split; [reflexivity | apply IH; exact Hl'].
Qed.

Lemma product_length {A : Type} (ls : list (list A)) :
  length (product ls) = fold_right Nat.mul 1%nat (map (@length A) ls).
Proof.
  induction ls as [|xs ls IH]; cbn [product map fold_right]; [reflexivity|].
  rewrite <- IH. clear IH.
  induction xs as [|x xs IHx]; cbn [flat_map length]; [reflexivity|].
  rewrite length_app, length_map, IHx. cbn. lia.
Qed.

Lemma NoDup_map_injective {A B : Type} (f : A -> B) (l : list A) :
  (forall x y, f x = f y -> x = y) -> NoDup l -> NoDup (map f l).
Proof.
  intros Hinj H. induction H as [|x l Hnin Hnd IH]; cbn [map]; constructor.
  - intros Hin. apply in_map_iff in Hin. destruct Hin as [y [E Hy]].
    apply Hinj in E. subst y. contradiction.
  - exact IH.
Qed.

Lemma product_NoDup {A : Type} (ls : list (list A)) :
  Forall (@NoDup A) ls -> NoDup (product ls).
Proof.
  induction ls as [|xs ls IH]; intros H; cbn [product].
  - constructor; [intros [] | constructor].
  - inversion H as [|? ? Hxs Hls]; subst. specialize (IH Hls).
    clear H Hls. induction Hxs as [|x xs Hnin Hnd IHx]; cbn [flat_map].
    + constructor.
    + apply NoDup_app.
      * apply NoDup_map_injective; [|exact IH].
        intros a b E. now injection E.
      * exact IHx.
      * intros l Hl Hl'. apply in_map_iff in Hl. destruct Hl as [l1 [<- _]].
        apply in_flat_map in Hl'. destruct Hl' as [y [Hy Hl2]].
        apply in_map_iff in Hl2. destruct Hl2 as [l2 [E _]].
        injection E as -> _. contradiction.
Qed.

Lemma map_fst_combine {A B : Type} (l : list A) :
  forall l' : list B, length l = length l' -> map fst (combine l l') = l.
Proof.
  induction l as [|a l IH]; intros [|b l'] H; try discriminate; cbn.
  - reflexivity.
  - f_equal. apply IH. now injection H.
Qed.

Lemma map_snd_combine {A B : Type} (l : list A) :
  forall l' : list B, length l = length l' -> map snd (combine l l') = l'.
Proof.
  induction l as [|a l IH]; intros [|b l'] H; try discriminate; cbn.
  - reflexivity.
  - f_equal. apply IH. now injection H.
Qed.

Lemma combine_fst_snd {A B : Type} (d : list (A * B)) :
  combine (map fst d) (map snd d) = d.
Proof.
  induction d as [|[a b] d IH]; cbn; [reflexivity | now rewrite IH].
Qed.

(** ** The integer grid *)

Lemma py_range_count (lo hi s : Z) :
  (0 < s)%Z ->
  Z.to_nat ((hi + 1 - lo + s - 1) / s)
  = if (lo <=? hi)%Z then Z.to_nat ((hi - lo) / s + 1) else 0%nat.
Proof.
  intros Hs.
  replace (hi + 1 - lo + s - 1)%Z with ((hi - lo) + 1 * s)%Z by ring.
  rewrite Z.div_add by lia.
  destruct (Z.leb_spec lo hi) as [H|H]; [reflexivity|].
  assert ((hi - lo) / s < 0)%Z by (apply Z.div_lt_upper_bound; lia).
  lia.
Qed.

Lemma py_range_member (lo hi s : Z) (k : nat) :
  (0 < s)%Z ->
  (k < Z.to_nat ((hi + 1 - lo + s - 1) / s))%nat
  <-> (lo + Z.of_nat k * s <= hi)%Z.
Proof.
  intros Hs.
  replace (hi + 1 - lo + s - 1)%Z with ((hi - lo) + 1 * s)%Z by ring.
  rewrite Z.div_add by lia.
  split; intros H.
  - assert (Hk : (Z.of_nat k < (hi - lo) / s + 1)%Z) by lia.
    assert (Hk' : (Z.of_nat k <= (hi - lo) / s)%Z) by lia.
    assert (s * Z.of_nat k <= hi - lo)%Z.
    { etransitivity; [apply Z.mul_le_mono_nonneg_l; [lia | exact Hk']|].
      apply Z.mul_div_le. lia. }
    lia.
  - assert (Z.of_nat k <= (hi - lo) / s)%Z.
    { apply Z.div_le_lower_bound; lia. }
    lia.
Qed.

Lemma range_values_int (r : ParamRange) :
  int_range r = true ->
  exists vs, range_values r = Ok vs
    /\ length vs = grid_size r
    /\ NoDup vs
    /\ forall v, In v vs <-> grid_point v r.
Proof.
  destruct r as [lo hi step| | | |]; try discriminate. intros Hr.
  assert (Hs : (0 < step_of step)%Z).
  { destruct step as [s|]; cbn in *; [apply Z.ltb_lt; exact Hr | lia]. }
  cbn [range_values]. fold (step_of step). unfold py_range.
  destruct (Z.eqb_spec (step_of step) 0) as [E|_]; [lia|].
  destruct (Z.ltb_spec 0 (step_of step)) as [_|E]; [|lia].
  cbn [Backtesting.bind].
  eexists. split; [reflexivity|]. split; [|split].
  - rewrite !length_map, length_seq. cbn [grid_size].
    apply py_range_count. exact Hs.
  - apply NoDup_map_injective; [intros a b E; now injection E|].
    apply NoDup_map_injective; [|apply seq_NoDup].
    intros a b E. nia.
  - intros v. cbn [grid_point]. rewrite in_map_iff. split.
    + intros [z [<- Hz]]. apply in_map_iff in Hz. destruct Hz as [k [<- Hk]].
      apply in_seq in Hk. exists k. split; [reflexivity|].
      apply py_range_member; [exact Hs | lia].
    + intros [k [-> Hk]]. eexists. split; [reflexivity|].
      apply in_map_iff. exists k. split; [reflexivity|].
      apply in_seq. split; [lia|]. cbn.
      apply py_range_member; assumption.
Qed.

Lemma all_values_int (rs : list ParamRange) :
  forallb int_range rs = true ->
  exists vss, all_values rs = Ok vss
    /\ Forall2 (fun vs r => length vs = grid_size r /\ NoDup vs
                            /\ forall v, In v vs <-> grid_point v r) vss rs.
Proof.
  induction rs as [|r rs IH]; cbn [forallb all_values]; intros H.
  - exists []. split; [reflexivity | constructor].
  - apply andb_true_iff in H. destruct H as [Hr Hrs].
    destruct (range_values_int r Hr) as [vs [E Hvs]].
    destruct (IH Hrs) as [vss [E' Hvss]].
    rewrite E, E'. cbn [Backtesting.bind].
    exists (vs :: vss). split; [reflexivity | constructor; assumption].
Qed.

(** The enumeration over an integer domain: as many combinations as the
    product of the step counts, no combination twice, and exactly the
    points of the grid. *)
Lemma generate_int_grid (parameter_ranges : list (string * ParamRange)) :
  forallb int_range (map snd parameter_ranges) = true ->
  exists combos,
    generate_parameter_combinations parameter_ranges = Ok combos
    /\ length combos = fold_right Nat.mul 1%nat (map grid_size (map snd parameter_ranges))
    /\ NoDup combos
    /\ forall d, In d combos <-> in_grid parameter_ranges d.
Proof.
  intros Hint. unfold generate_parameter_combinations.
  destruct (all_values_int _ Hint) as [vss [E Hvss]].
  rewrite E. cbn [Backtesting.bind].
  eexists. split; [reflexivity|].
  set (names := map fst parameter_ranges).
  set (rs := map snd parameter_ranges) in *.
  assert (Hlen : length names = length rs) by (subst names rs; now rewrite !length_map).
  assert (Hvl : length vss = length rs) by (eapply Forall2_length; exact Hvss).
  assert (Hpl : forall l, In l (product vss) -> length names = length l).
  { intros l Hl. apply in_product in Hl. apply Forall2_length in Hl. lia. }
  split; [|split].
  - rewrite length_map, product_length. f_equal.
    clear - Hvss. induction Hvss as [|vs r vss rs [H _] _ IH]; cbn [map];
      [reflexivity | now rewrite H, IH].
  - assert (Hnd : NoDup (product vss)).
    { apply product_NoDup. clear - Hvss.
      induction Hvss as [|vs r vss rs [_ [H _]] _ IH]; constructor; assumption. }
    revert Hpl Hnd. generalize (product vss) as ls.
    induction ls as [|l ls IH]; intros Hpl Hnd; cbn [map]; [constructor|].
    inversion Hnd as [|? ? Hnin Hnd']; subst. constructor.
    + intros Hin. apply in_map_iff in Hin. destruct Hin as [l' [E' Hl']].
      apply (f_equal (map snd)) in E'.
      assert (H1 : length names = length l') by (apply Hpl; right; exact Hl').
      assert (H2 : length names = length l) by (apply Hpl; left; reflexivity).
      rewrite (map_snd_combine names l' H1), (map_snd_combine names l H2) in E'.
      subst l'. contradiction.
    + apply IH; [intros; apply Hpl; right; assumption | exact Hnd'].
  - intros d. rewrite in_map_iff. unfold in_grid. fold names rs. split.
    + intros [l [<- Hl]]. pose proof (Hpl l Hl) as Hll.
      rewrite map_fst_combine, map_snd_combine by exact Hll.
      split; [reflexivity|].
      apply in_product in Hl. clear - Hl Hvss.
      revert l Hl. induction Hvss as [|vs r vss rs [_ [_ H]] _ IH]; intros l Hl;
        inversion Hl; subst; constructor; [apply H; assumption | apply IH; assumption].
    + intros [Hn Hg]. exists (map snd d). split.
      * rewrite <- Hn. apply combine_fst_snd.
      * apply in_product. clear - Hg Hvss.
        revert Hg. generalize (map snd d) as l. intros l Hg. revert vss Hvss.
        induction Hg as [|v r l rs Hv _ IH]; intros vss Hvss;
          inversion Hvss as [|vs ? vss' ? [_ [_ H]] Hrest]; subst; constructor;
          [apply H; exact Hv | apply IH; exact Hrest].
Qed.

(** ** Grid search *)

Section GridSearch.

Variable world : Type.
Variable backtester : BacktestParams -> world -> BacktestResult * world.

(** The sweep loop sends one request per combination, in order. *)
Lemma sweep_loop_calls (tp : TaskParams) (combos : list dict) :
  forall st s, exists st' s',
    foldM (sweep_step backtester tp) combos st s = (Ok st', s')
    /\ map fst (calls s')
       = map fst (calls s)
         ++ map (fun d => request tp (Some d) (start_date_of tp) (end_date_of tp)) combos.
Proof.
  induction combos as [|d combos IH]; intros st s; cbn [foldM map].
  - exists st, s. rewrite app_nil_r. split; reflexivity.
  - unfold mbind at 1. unfold sweep_step at 1. unfold mbind at 1.
    unfold backtest, call_backtest.
    destruct (backtester _ (ext s)) as [r w] eqn:E.
    set (s1 := {| ext := w; calls := calls s ++ [(_, r)] |}).
    assert (Hs1 : map fst (calls s1)
                  = map fst (calls s)
                    ++ [request tp (Some d) (start_date_of tp) (end_date_of tp)]).
    { subst s1. cbn [calls]. rewrite map_app. reflexivity. }
    destruct (is_success r); cbn [ret].
    + match goal with |- context [foldM _ combos ?x s1] =>
        destruct (IH x s1) as [st' [s' [H1 H2]]] end.
      exists st', s'. split; [exact H1|].
      rewrite H2, Hs1, <- app_assoc. reflexivity.
    + destruct (IH st s1) as [st' [s' [H1 H2]]].
      exists st', s'. split; [exact H1|].
      rewrite H2, Hs1, <- app_assoc. reflexivity.
Qed.

(** The best parameters the loop holds are a combination it evaluated. *)
Lemma sweep_loop_best_in (tp : TaskParams) (combos : list dict) :
  forall st s st' s',
    foldM (sweep_step backtester tp) combos st s = (Ok st', s') ->
    forall d, sw_best_params st' = Some d -> sw_best_params st = Some d \/ In d combos.
Proof.
  induction combos as [|c combos IH]; intros st s st' s'; cbn [foldM].
  - unfold ret. intros H. injection H as <- _. intros d Hd. left. exact Hd.
  - unfold mbind at 1. unfold sweep_step at 1. unfold mbind at 1.
    unfold backtest, call_backtest.
    destruct (backtester _ (ext s)) as [r w].
    destruct (is_success r); cbn [ret]; intros H d Hd;
      destruct (IH _ _ _ _ H d Hd) as [H0 | H0]; try (right; right; exact H0).
    + cbn [sw_best_params] in H0.
      destruct (fl_gt _ (sw_best_value st)); [|left; exact H0].
      injection H0 as <-. right. left. reflexivity.
    + left. exact H0.
Qed.

Lemma cap_combinations_firstn (combos : list dict) :
  cap_combinations combos = firstn 1000 combos.
Proof.
  unfold cap_combinations.
  destruct (Nat.ltb_spec 1000 (length combos)) as [H|H]; [reflexivity|].
  symmetry. apply firstn_all2. exact H.
Qed.

(** C6.  Over a domain of integer parameters with positive steps the
    grid search generates exactly the Cartesian product of the steps, as
    many combinations as the product of the step counts, each once; it
    keeps the first 1000 in generation order (all of them when there are
    at most 1000) and sends them to the backtester one by one in that
    order.  One more backtest follows the sweep, the closing one of the
    best parameters: they are one of the combinations kept, which is thus
    evaluated a second time, or [None] when no combination succeeded.  The
    domain [a: 1..3, b: 1..2] gives the six combinations of the example. *)
Theorem grid_search_exhaustive (tp : TaskParams) (s : St world) :
  forallb int_range (map snd (tp_parameter_ranges tp)) = true ->
  exists combos res s',
    generate_parameter_combinations (tp_parameter_ranges tp) = Ok combos
    /\ length combos
       = fold_right Nat.mul 1%nat (map grid_size (map snd (tp_parameter_ranges tp)))
    /\ NoDup combos
    /\ (forall d, In d combos <-> in_grid (tp_parameter_ranges tp) d)
    /\ parameter_sweep backtester tp s = (Ok res, s')
    /\ sr_total_combinations res = Nat.min 1000 (length combos)
    /\ map fst (calls s')
       = map fst (calls s)
         ++ map (fun d => request tp (Some d) (start_date_of tp) (end_date_of tp))
                (firstn 1000 combos)
         ++ [request tp (sr_best_parameters res) (start_date_of tp) (end_date_of tp)]
    /\ (forall d, sr_best_parameters res = Some d -> In d (firstn 1000 combos))
    /\ ((length combos <= 1000)%nat -> firstn 1000 combos = combos)
    /\ generate_parameter_combinations
         [ ("a"%string, RInt 1 3 None); ("b"%string, RInt 1 2 None) ]
       = Ok [ [ ("a"%string, VInt 1); ("b"%string, VInt 1) ];
              [ ("a"%string, VInt 1); ("b"%string, VInt 2) ];
              [ ("a"%string, VInt 2); ("b"%string, VInt 1) ];
              [ ("a"%string, VInt 2); ("b"%string, VInt 2) ];
              [ ("a"%string, VInt 3); ("b"%string, VInt 1) ];
              [ ("a"%string, VInt 3); ("b"%string, VInt 2) ] ].
Proof.
  intros Hint.
  destruct (generate_int_grid _ Hint) as [combos [E [Hlen [Hnd Hin]]]].
  destruct (sweep_loop_calls tp (cap_combinations combos) sweep_init s)
    as [st [s1 [Hloop Hcalls]]].
  destruct (backtester (request tp (sw_best_params st) (start_date_of tp) (end_date_of tp))
                       (ext s1)) as [fin w] eqn:Efin.
  exists combos. eexists. eexists.
  split; [exact E|]. split; [exact Hlen|]. split; [exact Hnd|]. split; [exact Hin|].
  split.
  { unfold parameter_sweep. unfold mbind at 1. unfold of_result. rewrite E.
    unfold mbind at 1. rewrite Hloop.
    unfold mbind at 1. unfold backtest, call_backtest. rewrite Efin.
    unfold ret. reflexivity. }
  cbn [sr_total_combinations sr_best_parameters calls].
  split; [rewrite cap_combinations_firstn; apply length_firstn|].
  split.
  { rewrite map_app, Hcalls, cap_combinations_firstn, <- app_assoc. reflexivity. }
  split.
  { intros d Hd. rewrite <- cap_combinations_firstn.
    destruct (sweep_loop_best_in tp _ _ _ _ _ Hloop d Hd) as [H0 | H0];
      [discriminate | exact H0]. }
  split; [apply firstn_all2 | reflexivity].
Qed.

End GridSearch.

Lemma grid_search_exhaustive_witness :
  exists res s',
    parameter_sweep sample_service (sample_task "ma_crossover" ab_ranges) start_state
      = (Ok res, s')
    /\ sr_total_combinations res = 6%nat
    /\ length (calls s') = 7%nat.
Proof.
  destruct (grid_search_exhaustive nat sample_service
              (sample_task "ma_crossover" ab_ranges) start_state)
    as [combos [res [s' [_ [Hlen [_ [_ [E [Ht [Hc _]]]]]]]]]].
  - reflexivity.
  - exists res, s'. split; [exact E|].
    rewrite Hlen in Ht. split; [exact Ht|].
    apply (f_equal (@length _)) in Hc.
    rewrite length_map in Hc. rewrite Hc.
    rewrite !length_app, !length_map, length_firstn, Hlen. reflexivity.
Defined.

(** The six combinations of the example cost seven backtests: the first
    combination, the best one found, is sent to the backtester a second
    time after the sweep. *)
Lemma grid_search_repeats_best :
  map (fun c => bp_parameters (fst c)) grid_example_log
  = [ Some [ ("a"%string, VInt 1); ("b"%string, VInt 1) ];
      Some [ ("a"%string, VInt 1); ("b"%string, VInt 2) ];
      Some [ ("a"%string, VInt 2); ("b"%string, VInt 1) ];
      Some [ ("a"%string, VInt 2); ("b"%string, VInt 2) ];
      Some [ ("a"%string, VInt 3); ("b"%string, VInt 1) ];
      Some [ ("a"%string, VInt 3); ("b"%string, VInt 2) ];
      Some [ ("a"%string, VInt 1); ("b"%string, VInt 1) ] ]
  /\ ~ NoDup (map fst grid_example_log).
Proof.
  split; [vm_compute; reflexivity|].
  intros H.
  assert (E : exists r l, map fst grid_example_log = r :: l ++ [r]).
  { eexists. exists (firstn 5 (tl (map fst grid_example_log))).
    vm_compute. reflexivity. }
  destruct E as [r [l E]]. rewrite E in H. inversion H as [|x l' Hnin _]. subst.
  apply Hnin. apply in_or_app. right. left. reflexivity.
Qed.

(** ** Bounds of the probed values *)

(** The integer grid stays within the bounds. *)
Lemma grid_point_within (lo hi : Z) (step : option Z) (v : pval) :
  int_range (RInt lo hi step) = true ->
  grid_point v (RInt lo hi step) -> within (RInt lo hi step) v.
Proof.
  intros Hr [k [-> Hk]]. cbn [within].
  assert (Hs : (0 < step_of step)%Z).
  { destruct step as [s|]; cbn in *; [apply Z.ltb_lt; exact Hr | lia]. }
  eexists. split; [reflexivity|]. split; [nia | exact Hk].
Qed.

(** So do the random draws of the genetic search, for a generator that
    keeps the contract of [numpy.random]. *)
Lemma random_value_within (world : Type) (L : Lib world) (r : ParamRange)
    (s s' : St world) (v : pval) :
  (forall lo hi w z w', randint L lo hi w = (Ok z, w') -> (lo <= z < hi)%Z) ->
  (forall lo hi w, lo <= hi -> lo <= fst (uniform L lo hi w) <= hi) ->
  ordered_range r ->
  random_value L r s = (Ok (Some v), s') ->
  within r v.
Proof.
  intros Hint Hfl Hr.
  destruct r as [lo hi st|lo hi st|ch|d|lo hi]; cbn [within ordered_range] in *;
    try (intros; exact I).
  - unfold random_value, mbind, lift_r, ret.
    destruct (randint L lo (hi + 1) (ext s)) as [[z|e] w] eqn:E; [|discriminate].
    intros H. injection H as <- _. exists z. split; [reflexivity|].
    apply Hint in E. lia.
  - unfold random_value, mbind, lift, ret.
    pose proof (Hfl lo hi (ext s) Hr) as Hu.
    destruct (uniform L lo hi (ext s)) as [q w].
    intros H. injection H as <- _. exists q. split; [reflexivity | exact Hu].
  - unfold random_value, mbind, lift, ret.
    pose proof (Hfl lo hi (ext s) Hr) as Hu.
    destruct (uniform L lo hi (ext s)) as [q w].
    intros H. injection H as <- _. exists q. split; [reflexivity | exact Hu].
Qed.

(** C3.  The grid of a float parameter is [np.arange(min, max + step, step)],
    which passes [max] when the step does not divide the range: the domain
    [x: float 0..1, step 0.75] is probed at 0, 0.75 and 1.5. *)
Theorem grid_float_step_overshoots :
  exists combos,
    generate_parameter_combinations
      [ ("x"%string, RFloat 0 1 (Some (3 # 4))) ] = Ok combos
    /\ map (map (fun kv : string * pval => (fst kv, Qred (to_Q (snd kv))))) combos
       = [ [ ("x"%string, 0) ]; [ ("x"%string, 3 # 4) ]; [ ("x"%string, 3 # 2) ] ]
    /\ ~ Forall (Forall (fun kv : string * pval =>
                           within (RFloat 0 1 (Some (3 # 4))) (snd kv))) combos.
Proof.
  eexists. split; [vm_compute; reflexivity|]. split; [vm_compute; reflexivity|].
  intros H.
  inversion H as [|? ? _ H1]; subst. inversion H1 as [|? ? _ H2]; subst.
  inversion H2 as [|? ? H3 _]; subst. inversion H3 as [|? ? H4 _]; subst.
  cbn in H4. destruct H4 as [q [Hq [_ Hle]]]. injection Hq as <-.
  vm_compute in Hle. apply Hle. reflexivity.
Qed.

(** ** Walk-forward analysis *)

Lemma window_count_member (D W stp : Z) (k : nat) :
  (0 < stp)%Z ->
  (k < window_count D W stp)%nat <-> (W + Z.of_nat k * stp <= D)%Z.
Proof.
  intros HS. unfold window_count.
  rewrite <- (py_range_count W D stp HS).
  apply py_range_member. exact HS.
Qed.

Section WalkForward.

Variable world : Type.
Variable backtester : BacktestParams -> world -> BacktestResult * world.

Lemma walk_loop_windows (tp : TaskParams) (W stp end_date : Z) (n : nat) :
  forall fuel current_date results s,
    (forall k : nat, (k < n)%nat <-> (current_date + Z.of_nat k * stp + W <= end_date)%Z) ->
    (n < fuel)%nat ->
    exists results' s',
      walk_loop backtester fuel tp W stp end_date current_date results s
        = Some (results', s')
      /\ map fst (calls s')
         = map fst (calls s) ++ map (window_request tp W stp current_date) (seq 0 n).
Proof.
  induction n as [|n IH]; intros fuel cur results s Hn Hfuel;
    (destruct fuel as [|fuel]; [lia|]); cbn [walk_loop].
  - destruct (Z.leb_spec (cur + W) end_date) as [H|H].
    + exfalso. assert (0 < 0)%nat; [apply (Hn 0%nat); cbn; lia | lia].
    + exists results, s. cbn [seq map]. rewrite app_nil_r. split; reflexivity.
  - destruct (Z.leb_spec (cur + W) end_date) as [H|H].
    2:{ exfalso. assert (cur + Z.of_nat 0 * stp + W <= end_date)%Z; [apply Hn; lia | cbn in *; lia]. }
    unfold call_backtest.
    destruct (backtester _ (ext s)) as [r w].
    match goal with |- context [walk_loop _ fuel _ _ _ _ _ ?res ?st] =>
      destruct (IH fuel (cur + stp)%Z res st) as [results' [s' [E Hc]]] end.
    + intros k. pose proof (Hn (S k)) as Hk. rewrite Nat2Z.inj_succ in Hk.
      split; intros H0.
      * assert (H1 : (S k < S n)%nat) by lia. apply Hk in H1. lia.
      * assert (H1 : (cur + Z.succ (Z.of_nat k) * stp + W <= end_date)%Z) by lia.
        apply Hk in H1. lia.
    + lia.
    + exists results', s'. split; [exact E|]. rewrite Hc. cbn [calls].
      rewrite map_app, <- app_assoc. cbn [map fst app seq]. f_equal. f_equal.
      * unfold window_request. f_equal; ring.
      * rewrite <- seq_shift, map_map. apply map_ext. intros k.
        unfold window_request. rewrite Nat2Z.inj_succ. f_equal; ring.
Qed.

(** C8.  With a positive step [stp] the walk-forward loop ends, and it
    runs one backtest per window: [floor((D - W) / stp) + 1] backtests when
    the range of [D] days holds a window of [W] days, none otherwise; the
    [k]-th one covers the days [start + k stp .. start + k stp + W]. *)
Theorem walk_forward_window_count (tp : TaskParams) (s : St world) :
  let W := match tp_window_size tp with Some n => n | None => 90%Z end in
  let stp := match tp_step_size tp with Some n => n | None => 30%Z end in
  let D := (end_date_of tp - start_date_of tp)%Z in
  (0 < stp)%Z ->
  exists fuel0, forall fuel, (fuel0 <= fuel)%nat ->
    exists results s',
      walk_forward_analysis backtester fuel tp s = Some (results, s')
      /\ length (calls s') = (length (calls s) + window_count D W stp)%nat
      /\ map fst (calls s')
         = map fst (calls s)
           ++ map (window_request tp W stp (start_date_of tp)) (seq 0 (window_count D W stp))
      /\ window_count D W stp
         = (if (W <=? D)%Z then Z.to_nat ((D - W) / stp + 1) else 0%nat).
Proof.
  intros W stp D HS.
  exists (S (window_count D W stp)). intros fuel Hfuel.
  destruct (walk_loop_windows tp W stp (end_date_of tp) (window_count D W stp)
              fuel (start_date_of tp) [] s) as [results [s' [E Hc]]].
  - intros k. rewrite (window_count_member D W stp k HS). subst D. split; intros; lia.
  - lia.
  - exists results, s'. split; [exact E|]. split; [|split; [exact Hc | reflexivity]].
    apply (f_equal (@length _)) in Hc.
    rewrite length_app, !length_map, length_seq in Hc. exact Hc.
Qed.

End WalkForward.

Lemma walk_forward_window_count_witness :
  exists fuel0, forall fuel, (fuel0 <= fuel)%nat ->
    exists results s',
      walk_forward_analysis sample_service fuel ma_task start_state = Some (results, s')
      /\ length (calls s') = 10%nat.
Proof.
  destruct (walk_forward_window_count nat sample_service ma_task start_state)
    as [fuel0 H].
  - reflexivity.
  - exists fuel0. intros fuel Hf.
    destruct (H fuel Hf) as [results [s' [E [Hl _]]]].
    exists results, s'. split; [exact E | exact Hl].
Defined.

(** ** Computations that make no backtest *)

Section MonadFacts.

Variable world : Type.

Lemma keeps_ret {A : Type} (a : A) : keeps_calls (@ret world A a).
Proof. intros s. reflexivity. Qed.

Lemma keeps_raise {A : Type} (e : exn) : keeps_calls (@raise world A e).
Proof. intros s. reflexivity. Qed.

Lemma keeps_of_result {A : Type} (r : result A) : keeps_calls (@of_result world A r).
Proof. intros s. reflexivity. Qed.

Lemma keeps_lift {A : Type} (f : world -> A * world) : keeps_calls (lift f).
Proof. intros s. unfold lift. destruct (f (ext s)). reflexivity. Qed.

Lemma keeps_lift_r {A : Type} (f : world -> result A * world) : keeps_calls (lift_r f).
Proof. intros s. unfold lift_r. destruct (f (ext s)). reflexivity. Qed.

Lemma keeps_bind {A B : Type} (c : M world A) (f : A -> M world B) :
  keeps_calls c -> (forall a, keeps_calls (f a)) -> keeps_calls (mbind c f).
Proof.
  intros Hc Hf s. unfold mbind. specialize (Hc s).
  destruct (c s) as [[a|e] s1]; cbn [snd] in *.
  - rewrite (Hf a s1). exact Hc.
  - exact Hc.
Qed.

Lemma keeps_foldM {A B : Type} (f : A -> B -> M world A) (l : list B) :
  (forall a b, keeps_calls (f a b)) -> forall a, keeps_calls (foldM f l a).
Proof.
  intros Hf. induction l as [|b l IH]; intros a; cbn [foldM].
  - apply keeps_ret.
  - apply keeps_bind; [apply Hf | exact IH].
Qed.

Lemma keeps_mapM {A B : Type} (f : A -> M world B) (l : list A) :
  (forall a, keeps_calls (f a)) -> keeps_calls (mapM f l).
Proof.
  intros Hf. induction l as [|a l IH]; cbn [mapM].
  - apply keeps_ret.
  - apply keeps_bind; [apply Hf | intros b].
    apply keeps_bind; [exact IH | intros bs; apply keeps_ret].
Qed.

Lemma keeps_index {A : Type} (l : list A) (i : nat) : keeps_calls (@index world A l i).
Proof.
  unfold index. destruct (nth_error l i); [apply keeps_ret | apply keeps_raise].
Qed.

Lemma foldM_app {A B : Type} (f : A -> B -> M world A) (l1 l2 : list B) :
  forall a s,
    foldM f (l1 ++ l2) a s
    = match foldM f l1 a s with
      | (Ok a', s') => foldM f l2 a' s'
      | (Raise e, s') => (Raise e, s')
      end.
Proof.
  induction l1 as [|b l1 IH]; intros a s; cbn [app foldM].
  - reflexivity.
  - unfold mbind. destruct (f a b s) as [[a'|e] s1]; [apply IH | reflexivity].
Qed.

End MonadFacts.

Create HintDb calls.

#[local] Hint Resolve keeps_ret keeps_raise keeps_of_result keeps_lift keeps_lift_r
  keeps_index : calls.

#[local] Ltac keeps :=
  repeat first
    [ progress intros
    | apply keeps_bind
    | apply keeps_foldM
    | apply keeps_mapM
    | solve [auto with calls]
    | match goal with
      | |- keeps_calls (match ?x with _ => _ end) => destruct x
      | |- keeps_calls (if ?x then _ else _) => destruct x
      end ].

(** ** An unknown strategy *)

Section UnknownStrategy.

Variable X : Extern.
Variable world : Type.
Variable market : string -> Z -> world -> result (list Bar) * world.
Variable L : Lib world.

(** The [ValueError] raised by the validation is caught inside
    [run_backtest], which answers with the failure dict. *)
Lemma run_backtest_unknown (bp : BacktestParams) (w : world) :
  unknown (bp_strategy_name bp) ->
  (service X world market) bp w
  = (Failure ("Estrategia no encontrada: " ++ bp_strategy_name bp)
             (bp_strategy_name bp) (bp_symbol bp), w).
Proof.
  unfold unknown, service, run_backtest. intros H. rewrite H. reflexivity.
Qed.

Lemma backtest_unknown (tp : TaskParams) (params : option dict) (sd ed : Z)
    (s : St world) :
  unknown (tp_strategy_name tp) ->
  exists r s',
    backtest (service X world market) (request tp params sd ed) s = (Ok r, s')
    /\ is_success r = false
    /\ (all_failed (calls s) -> all_failed (calls s')).
Proof.
  intros H. unfold backtest, call_backtest.
  rewrite run_backtest_unknown by exact H.
  eexists. eexists. split; [reflexivity|]. split; [reflexivity|].
  cbn [calls]. intros Hall. apply Forall_app. split; [exact Hall|].
  constructor; [reflexivity | constructor].
Qed.

Lemma suggest_params_keeps (tp : TaskParams) (trial : nat) :
  keeps_calls (suggest_params L tp trial).
Proof.
  unfold suggest_params. apply keeps_foldM. intros a [n r]. unfold suggest.
  cbn [fst snd]. keeps.
Qed.

(** A trial on an unknown strategy: it ends normally, scores [-inf] when
    it is recorded at all, and leaves the best-so-far as it is. *)
Lemma trial_step_unknown (tp : TaskParams) (st : BayesState) (i : nat) (s : St world) :
  unknown (tp_strategy_name tp) ->
  by_best_value st = NegInf ->
  exists st' s',
    trial_step (service X world market) L tp st i s = (Ok st', s')
    /\ by_best_params st' = by_best_params st
    /\ by_best_value st' = NegInf
    /\ (Forall (fun t => trial_value t = NegInf) (by_trial_results st) ->
        Forall (fun t => trial_value t = NegInf) (by_trial_results st'))
    /\ (all_failed (calls s) -> all_failed (calls s')).
Proof.
  intros Hu Hb. unfold trial_step. unfold mbind at 1. unfold lift at 1.
  destruct (ask L (ext s)) as [trial w].
  set (s0 := {| ext := w; calls := calls s |}).
  unfold catch. unfold mbind at 1. unfold objective_function. unfold mbind at 1.
  pose proof (suggest_params_keeps tp trial s0) as Hk.
  destruct (suggest_params L tp trial s0) as [[params|e] s1]; cbn [snd] in Hk.
  - destruct (backtest_unknown tp (Some params) (start_date_of tp) (end_date_of tp) s1 Hu)
      as [r [s2 [E [Hr Hall]]]].
    unfold mbind at 1. rewrite E, Hr. cbn [negb ret].
    unfold mbind, lift, ret. rewrite Hb. cbn [fl_gt].
    eexists. eexists. split; [reflexivity|]. cbn.
    split; [reflexivity|]. split; [reflexivity|]. split.
    + intros H. apply Forall_app. split; [exact H|]. constructor; [reflexivity|constructor].
    + intros H. apply Hall. rewrite Hk. exact H.
  - unfold mbind, lift, ret.
    eexists. eexists. split; [reflexivity|]. cbn.
    split; [reflexivity|]. split; [exact Hb|]. split; [tauto|].
    rewrite Hk. tauto.
Qed.

Lemma trials_unknown (tp : TaskParams) (l : list nat) :
  unknown (tp_strategy_name tp) ->
  forall st s,
    by_best_value st = NegInf ->
    exists st' s',
      foldM (trial_step (service X world market) L tp) l st s = (Ok st', s')
      /\ by_best_params st' = by_best_params st
      /\ by_best_value st' = NegInf
      /\ (Forall (fun t => trial_value t = NegInf) (by_trial_results st) ->
          Forall (fun t => trial_value t = NegInf) (by_trial_results st'))
      /\ (all_failed (calls s) -> all_failed (calls s')).
Proof.
  intros Hu. induction l as [|i l IH]; intros st s Hb; cbn [foldM].
  - exists st, s. unfold ret. repeat split; auto.
  - destruct (trial_step_unknown tp st i s Hu Hb) as [st1 [s1 [E [Hp [Hv [Ht Hc]]]]]].
    unfold mbind. rewrite E.
    destruct (IH st1 s1 Hv) as [st2 [s2 [E2 [Hp2 [Hv2 [Ht2 Hc2]]]]]].
    exists st2, s2. split; [exact E2|]. split; [congruence|]. split; [exact Hv2|].
    split; auto.
Qed.

Lemma sweep_unknown (tp : TaskParams) (combos : list dict) :
  unknown (tp_strategy_name tp) ->
  forall st s, exists s',
    foldM (sweep_step (service X world market) tp) combos st s = (Ok st, s')
    /\ (all_failed (calls s) -> all_failed (calls s')).
Proof.
  intros Hu. induction combos as [|d combos IH]; intros st s; cbn [foldM].
  - exists s. split; [reflexivity | tauto].
  - unfold mbind at 1. unfold sweep_step at 1. unfold mbind at 1.
    destruct (backtest_unknown tp (Some d) (start_date_of tp) (end_date_of tp) s Hu)
      as [r [s1 [E [Hr Hall]]]].
    rewrite E, Hr. cbn [ret].
    destruct (IH st s1) as [s2 [E2 Hall2]].
    exists s2. split; [exact E2 | tauto].
Qed.

Lemma Forall_skipn {A : Type} (P : A -> Prop) (n : nat) (l : list A) :
  Forall P l -> Forall P (skipn n l).
Proof.
  intros H. rewrite <- (firstn_skipn n l) in H.
  apply Forall_app in H. tauto.
Qed.

(** C2, as the code has it.  With a strategy name that is not in the
    registry, [run_backtest] does not raise: it answers with the failure
    dict that carries the message.  The Bayesian search scores every such
    trial [-inf] and runs to its end, returning no best parameters and the
    best value [-inf]; the grid search skips every combination and ends
    the same way. *)
Theorem unknown_strategy_is_scored (tp : TaskParams) (s : St world) :
  unknown (tp_strategy_name tp) ->
  (forall params sd ed w,
      (service X world market) (request tp params sd ed) w
      = (Failure ("Estrategia no encontrada: " ++ tp_strategy_name tp)
                 (tp_strategy_name tp) (tp_symbol tp), w))
  /\ (exists res s',
        bayesian_optimization (service X world market) L tp s = (Ok res, s')
        /\ br_best_parameters res = None
        /\ br_best_value res = NegInf
        /\ Forall (fun t => trial_value t = NegInf) (br_trial_history res)
        /\ br_successful_trials res = 0%nat
        /\ is_success (br_final_backtest res) = false
        /\ (all_failed (calls s) -> all_failed (calls s')))
  /\ (forall combos,
        generate_parameter_combinations (tp_parameter_ranges tp) = Ok combos ->
        exists res s',
          parameter_sweep (service X world market) tp s = (Ok res, s')
          /\ sr_best_parameters res = None
          /\ sr_best_value res = NegInf
          /\ sr_total_combinations res = Nat.min 1000 (length combos)
          /\ sr_successful_combinations res = 0%nat
          /\ is_success (sr_final_backtest res) = false
          /\ (all_failed (calls s) -> all_failed (calls s'))).
Proof.
  intros Hu. split; [|split].
  - intros params sd ed w. apply (run_backtest_unknown (request tp params sd ed) w Hu).
  - unfold bayesian_optimization. unfold mbind at 1. unfold lift at 1.
    set (s0 := {| ext := _; calls := calls s |}).
    match goal with |- context [foldM ?f ?l bayes_init] =>
      destruct (trials_unknown tp l Hu bayes_init s0 eq_refl)
        as [st [s1 [E [Hp [Hv [Ht Hc]]]]]] end.
    unfold mbind at 1. rewrite E.
    destruct (backtest_unknown tp (by_best_params st) (start_date_of tp) (end_date_of tp)
                s1 Hu) as [r [s2 [E2 [Hr Hall]]]].
    unfold mbind. rewrite E2. unfold ret.
    eexists. eexists. split; [reflexivity|].
    cbn [br_best_parameters br_best_value br_trial_history br_successful_trials
         br_final_backtest].
    assert (Hall_inf : Forall (fun t => trial_value t = NegInf) (by_trial_results st))
      by (apply Ht; constructor).
    split; [rewrite Hp; reflexivity|]. split; [exact Hv|].
    split; [apply Forall_skipn; exact Hall_inf|].
    split; [|split; [exact Hr | intros H; apply Hall, Hc; exact H]].
    clear - Hall_inf. induction Hall_inf as [|t l Ht _ IH]; [reflexivity|].
    cbn [filter]. rewrite Ht. cbn [fl_gt]. exact IH.
  - intros combos Eg. unfold parameter_sweep. unfold mbind at 1. unfold of_result.
    rewrite Eg.
    destruct (sweep_unknown tp (cap_combinations combos) Hu sweep_init s) as [s1 [E Hc]].
    unfold mbind at 1. rewrite E.
    destruct (backtest_unknown tp (sw_best_params sweep_init) (start_date_of tp)
                (end_date_of tp) s1 Hu) as [r [s2 [E2 [Hr Hall]]]].
    unfold mbind. rewrite E2. unfold ret.
    eexists. eexists. split; [reflexivity|].
    cbn [sr_best_parameters sr_best_value sr_total_combinations
         sr_successful_combinations sr_final_backtest sweep_init sw_results
         sw_best_params sw_best_value length].
    repeat split; try reflexivity.
    + rewrite cap_combinations_firstn. apply length_firstn.
    + exact Hr.
    + intros H. apply Hall, Hc. exact H.
Qed.

End UnknownStrategy.

(** A Bayesian session on the unregistered strategy ["nope"] raises
    nothing.  It runs its three trials, each a backtest that fails and is
    scored [-inf], and returns. *)
Lemma unknown_strategy_session_completes :
  unknown "nope"
  /\ (forall e s',
        bayesian_optimization sample_service sample_oracles nope_task start_state
        <> (Raise e, s'))
  /\ exists res s',
       bayesian_optimization sample_service sample_oracles nope_task start_state
         = (Ok res, s')
       /\ map trial_value (br_trial_history res) = [NegInf; NegInf; NegInf]
       /\ map (fun c => is_success (snd c)) (calls s') = [false; false; false; false].
Proof.
  split; [reflexivity|]. split.
  - intros e s'. vm_compute. discriminate.
  - eexists. eexists. split; [vm_compute; reflexivity|].
    split; vm_compute; reflexivity.
Qed.

Lemma unknown_strategy_is_scored_witness :
  exists res s',
    bayesian_optimization sample_service sample_oracles nope_task start_state
      = (Ok res, s')
    /\ br_best_parameters res = None
    /\ br_best_value res = NegInf.
Proof.
  destruct (unknown_strategy_is_scored sample_lib nat sample_market sample_oracles
              nope_task start_state)
    as [_ [[res [s' [E [Hp [Hv _]]]]] _]].
  - reflexivity.
  - exists res, s'. split; [exact E|]. split; [exact Hp | exact Hv].
Defined.

(** The genetic search on the same unregistered strategy: its first
    generation is evaluated, every fitness is [-inf], and the statistics of
    the generation raise on the empty list of finite scores. *)
Lemma genetic_unknown_strategy_raises :
  exists s',
    genetic_optimization sample_service sample_oracles nope_task start_state
      = (Raise (ValueError "min() arg is an empty sequence"), s')
    /\ length (calls s') = 4%nat.
Proof.
  eexists. split; vm_compute; reflexivity.
Qed.

(** ** Genetic search *)

Lemma fl_gt_ge (a b : fl) : fl_gt a b = true -> fl_ge a b = true.
Proof.
  destruct a, b; cbn; try discriminate; try reflexivity.
  intros H. apply Qltb_lt in H. apply Qle_bool_iff. apply Qlt_le_weak. exact H.
Qed.

Lemma fl_ge_refl (a : fl) : a <> NaN -> fl_ge a a = true.
Proof.
  destruct a; cbn; try reflexivity; [|congruence].
  intros _. apply Qle_bool_iff. apply Qle_refl.
Qed.

Lemma fl_ge_trans (a b c : fl) :
  fl_ge a b = true -> fl_ge b c = true -> fl_ge a c = true.
Proof.
  destruct a, b, c; cbn; try discriminate; try reflexivity.
  intros H1 H2. apply Qle_bool_iff in H1, H2. apply Qle_bool_iff.
  eapply Qle_trans; eassumption.
Qed.

Lemma fl_gt_irrefl (a : fl) : fl_gt a a = false.
Proof.
  destruct a; cbn; try reflexivity. apply Qltb_ge. apply Qle_refl.
Qed.

Lemma fl_ge_not_nan (a b : fl) : fl_ge a b = true -> a <> NaN.
Proof. destruct a, b; cbn; congruence. Qed.

(** A value that does not beat [b] does not beat anything above [b]. *)
Lemma fl_not_gt_mono (f b b' : fl) :
  fl_gt f b = false -> fl_ge b' b = true -> fl_gt f b' = false.
Proof.
  destruct f, b, b'; cbn; try discriminate; try reflexivity.
  intros H1 H2. apply Qltb_ge in H1. apply Qle_bool_iff in H2. apply Qltb_ge.
  eapply Qle_trans; eassumption.
Qed.

Section Genetic.

Variable world : Type.
Variable backtester : BacktestParams -> world -> BacktestResult * world.
Variable L : Lib world.

Lemma best_seen_step (tp : TaskParams) log bi bf (ind : dict) (r : BacktestResult) :
  best_seen tp log bi bf ->
  let f := fitness_of tp r in
  let c := (request tp (Some ind) (start_date_of tp) (end_date_of tp), r) in
  let best' := if fl_gt f bf then (Some ind, f) else (bi, bf) in
  best_seen tp (log ++ [c]) (fst best') (snd best') /\ fl_ge (snd best') bf = true.
Proof.
  intros [Hnan [Hdom Hatt]] f c best'. subst best'.
  destruct (fl_gt f bf) eqn:E; cbn [fst snd].
  - pose proof (fl_gt_ge _ _ E) as Hge. split; [|exact Hge].
    split; [apply (fl_ge_not_nan _ _ Hge)|]. split.
    + intros c' Hin. apply in_app_or in Hin. destruct Hin as [Hin | [<- | []]].
      * apply (fl_not_gt_mono _ bf); [apply Hdom; exact Hin | exact Hge].
      * apply fl_gt_irrefl.
    + right. exists ind, r. split; [reflexivity|]. split; [|reflexivity].
      apply in_or_app. right. left. reflexivity.
  - split; [|apply fl_ge_refl; exact Hnan].
    split; [exact Hnan|]. split.
    + intros c' Hin. apply in_app_or in Hin. destruct Hin as [Hin | [<- | []]].
      * apply Hdom; exact Hin.
      * exact E.
    + destruct Hatt as [Hatt | [ind' [r' [H1 [H2 H3]]]]]; [left; exact Hatt|].
      right. exists ind', r'. split; [exact H1|]. split; [|exact H3].
      apply in_or_app. left. exact H2.
Qed.

(** The evaluation of a population always comes to its end. *)
Lemma evaluate_population (tp : TaskParams) (pop : list dict) :
  forall scores bi bf s base log,
    calls s = base ++ log ->
    best_seen tp log bi bf ->
    scored_in tp log scores ->
    exists scores' bi' bf' s' log',
      foldM (evaluate_individual backtester tp) pop (scores, (bi, bf)) s
        = (Ok (scores', (bi', bf')), s')
      /\ calls s' = base ++ log'
      /\ best_seen tp log' bi' bf'
      /\ scored_in tp log' scores'
      /\ fl_ge bf' bf = true.
Proof.
  induction pop as [|ind pop IH]; intros scores bi bf s base log Hc Hb Hs; cbn [foldM].
  - exists scores, bi, bf, s, log. unfold ret.
    split; [reflexivity|]. split; [exact Hc|]. split; [exact Hb|]. split; [exact Hs|].
    apply fl_ge_refl. apply Hb.
  - unfold mbind at 1. unfold evaluate_individual at 1. unfold mbind at 1.
    unfold backtest, call_backtest.
    destruct (backtester _ (ext s)) as [r w]. unfold ret.
    destruct (best_seen_step tp log bi bf ind r Hb) as [Hb' Hge].
    set (best' := if fl_gt (fitness_of tp r) bf then (Some ind, fitness_of tp r)
                  else (bi, bf)) in *.
    destruct best' as [bi1 bf1] eqn:Ebest. cbn [fst snd] in Hb', Hge.
    match goal with |- context [foldM _ pop (?sc, _) ?st] =>
      destruct (IH sc bi1 bf1 st base (log ++ [(request tp (Some ind) (start_date_of tp)
                                                   (end_date_of tp), r)]))
        as [scores' [bi' [bf' [s' [log' [E [Hc' [Hb'' [Hs' Hge']]]]]]]]] end.
    + cbn [calls]. rewrite Hc, <- app_assoc. reflexivity.
    + exact Hb'.
    + apply Forall_app. split.
      * eapply Forall_impl; [|exact Hs]. intros f [c [Hin Hf]].
        exists c. split; [apply in_or_app; left; exact Hin | exact Hf].
      * constructor; [|constructor].
        exists (request tp (Some ind) (start_date_of tp) (end_date_of tp), r).
        split; [|reflexivity]. apply in_or_app. right. left. reflexivity.
    + exists scores', bi', bf', s', log'. split; [exact E|]. split; [exact Hc'|].
      split; [exact Hb''|]. split; [exact Hs'|]. eapply fl_ge_trans; eassumption.
Qed.

Lemma random_value_keeps (r : ParamRange) : keeps_calls (random_value L r).
Proof. unfold random_value. keeps. Qed.

Lemma tournament_selection_keeps population fitness_scores :
  keeps_calls (tournament_selection L population fitness_scores).
Proof. unfold tournament_selection. keeps. Qed.

Lemma crossover_keeps parent1 parent2 : keeps_calls (crossover L parent1 parent2).
Proof. unfold crossover. keeps. Qed.

Lemma mutate_keeps individual parameter_ranges rate :
  keeps_calls (mutate L individual parameter_ranges rate).
Proof.
  unfold mutate. apply keeps_foldM. intros a b.
  apply keeps_bind; [auto with calls|]. intros u.
  destruct (Qltb u rate); [|auto with calls].
  apply keeps_bind; [apply random_value_keeps | auto with calls].
Qed.

Lemma refill_keeps tp n population fitness_scores :
  forall new_population,
    keeps_calls (refill L tp n population fitness_scores new_population).
Proof.
  induction n as [|n IH]; intros new_population; cbn [refill]; [auto with calls|].
  apply keeps_bind; [apply tournament_selection_keeps | intros p1].
  apply keeps_bind; [apply tournament_selection_keeps | intros p2].
  apply keeps_bind; [apply crossover_keeps | intros c].
  apply keeps_bind; [apply mutate_keeps | intros c'].
  apply IH.
Qed.

Lemma next_population_keeps tp population_size population fitness_scores :
  keeps_calls (next_population L tp population_size population fitness_scores).
Proof.
  unfold next_population.
  apply keeps_bind; [apply keeps_mapM; auto with calls | intros elite].
  apply refill_keeps.
Qed.

Lemma initial_population_keeps tp population_size :
  keeps_calls (initial_population L tp population_size).
Proof.
  unfold initial_population, random_individual.
  apply keeps_mapM. intros _. apply keeps_foldM. intros a b.
  apply keeps_bind; [apply random_value_keeps | intros v; auto with calls].
Qed.

Lemma fl_max_in (l : list fl) (m : fl) : fl_max l = Ok m -> In m l.
Proof.
  destruct l as [|x l]; cbn [fl_max]; [discriminate|].
  intros H. injection H as <-.
  assert (G : forall l a, In (fold_left (fun m y => if fl_gt y m then y else m) l a)
                             (a :: l)).
  { clear. induction l as [|y l IH]; intros a; cbn [fold_left]; [left; reflexivity|].
    destruct (IH (if fl_gt y a then y else a)) as [H | H].
    - rewrite <- H. destruct (fl_gt y a); [right; left | left]; reflexivity.
    - right. right. exact H. }
  apply G.
Qed.

(** The best fitness of the generation statistics is one of the scores. *)
Lemma generation_stats_best (tp : TaskParams) log (g : nat) (scores : list fl)
    (stats : GenerationStats) :
  generation_stats L g scores = Ok stats ->
  scored_in tp log scores ->
  exists c, In c log /\ fitness_of tp (snd c) = gs_best_fitness stats.
Proof.
  unfold generation_stats. intros H Hs.
  destruct (fl_max scores) as [m|e] eqn:Em; cbn [Backtesting.bind] in H; [|discriminate].
  destruct (fl_min _) as [m'|e]; cbn [Backtesting.bind] in H; [|discriminate].
  injection H as <-. cbn [gs_best_fitness].
  apply fl_max_in in Em. unfold scored_in in Hs.
  rewrite Forall_forall in Hs. apply Hs. exact Em.
Qed.

(** A generation that ends keeps the best-so-far pair sound for the
    backtests made since [base], and does not lower the best fitness. *)
Lemma generation_step_best (tp : TaskParams) (population_size generations : nat)
    (st : GAState) (g : nat) (s : St world) (st' : GAState) (s' : St world)
    (base log : list (BacktestParams * BacktestResult)) :
  calls s = base ++ log ->
  best_seen tp log (best_individual st) (best_fitness st) ->
  history_below (generation_history st) (best_fitness st) ->
  generation_step backtester L tp population_size generations st g s = (Ok st', s') ->
  fl_ge (best_fitness st') (best_fitness st) = true
  /\ history_below (generation_history st') (best_fitness st')
  /\ exists log', calls s' = base ++ log'
       /\ best_seen tp log' (best_individual st') (best_fitness st').
Proof.
  intros Hc Hb Hh. unfold generation_step. unfold mbind at 1.
  destruct (evaluate_population tp (population st) [] (best_individual st)
              (best_fitness st) s base log Hc Hb (Forall_nil _))
    as [scores [bi [bf [s1 [log1 [E [Hc1 [Hb1 [Hs1 Hge]]]]]]]]].
  rewrite E. unfold mbind at 1. unfold of_result.
  destruct (generation_stats L g scores) as [stats|e] eqn:Estats; [|discriminate].
  unfold mbind at 1.
  match goal with |- context [(if ?c then ?a else ?b) s1] =>
    pose proof ((if c as c0 return keeps_calls (if c0 then a else b)
                 then next_population_keeps tp population_size (population st) scores
                 else keeps_ret world (population st)) s1) as Hk;
    destruct ((if c then a else b) s1) as [[pop|e] s2] end; [|discriminate].
  cbn [snd] in Hk. unfold ret. intros H. injection H as <- <-.
  cbn [best_fitness best_individual generation_history]. split; [exact Hge|].
  split; [|exists log1; split; [rewrite Hk; exact Hc1 | exact Hb1]].
  intros stats' Hin. apply in_app_or in Hin. destruct Hin as [Hin | [<- | []]].
  - apply (fl_not_gt_mono _ (best_fitness st)); [apply Hh; exact Hin | exact Hge].
  - destruct (generation_stats_best tp log1 g scores stats Estats Hs1) as [c [Hin Hf]].
    rewrite <- Hf. apply Hb1. exact Hin.
Qed.

Lemma run_generations_succ (tp : TaskParams) (population_size generations g : nat)
    (population : list dict) (s : St world) :
  run_generations backtester L tp population_size generations (S g) population s
  = match run_generations backtester L tp population_size generations g population s with
    | (Ok st, s1) => generation_step backtester L tp population_size generations st g s1
    | (Raise e, s1) => (Raise e, s1)
    end.
Proof.
  unfold run_generations. rewrite seq_S, foldM_app. cbn [Nat.add].
  destruct (foldM _ (seq 0 g) _ s) as [[st|e] s1]; [|reflexivity].
  cbn [foldM]. unfold mbind, ret.
  destruct (generation_step backtester L tp population_size generations st g s1)
    as [[st'|e] s']; reflexivity.
Qed.

Lemma run_generations_best (tp : TaskParams) (population_size generations : nat)
    (population : list dict) (s : St world) (g : nat) :
  forall st' s',
    run_generations backtester L tp population_size generations g population s
      = (Ok st', s') ->
    history_below (generation_history st') (best_fitness st')
    /\ exists log, calls s' = calls s ++ log
         /\ best_seen tp log (best_individual st') (best_fitness st').
Proof.
  induction g as [|g IH]; intros st' s'.
  - unfold run_generations. cbn [seq foldM]. unfold ret. intros H. injection H as <- <-.
    split; [intros stats []|].
    exists []. rewrite app_nil_r. split; [reflexivity|].
    cbn [ga_init best_individual best_fitness]. split; [discriminate|].
    split; [intros c []|]. left. split; reflexivity.
  - rewrite run_generations_succ.
    destruct (run_generations backtester L tp population_size generations g population s)
      as [[st1|e] s1]; [|discriminate].
    destruct (IH st1 s1 eq_refl) as [Hh [log [Hc Hb]]]. intros H.
    destruct (generation_step_best tp population_size generations st1 g s1 st' s'
                (calls s) log Hc Hb Hh H) as [_ Hn].
    exact Hn.
Qed.

(** The genetic search returns the best pair of its last generation. *)
Lemma genetic_optimization_returns (tp : TaskParams) (s : St world)
    (res : GeneticResult) (s_end : St world) :
  genetic_optimization backtester L tp s = (Ok res, s_end) ->
  exists population s0 st s1 fin,
    initial_population L tp (gr_population_size res) s = (Ok population, s0)
    /\ calls s0 = calls s
    /\ run_generations backtester L tp (gr_population_size res) (gr_generations res)
         (gr_generations res) population s0 = (Ok st, s1)
    /\ calls s_end = calls s1 ++ [fin]
    /\ fst fin = request tp (best_individual st) (start_date_of tp) (end_date_of tp)
    /\ gr_best_parameters res = best_individual st
    /\ gr_best_fitness res = best_fitness st
    /\ gr_generation_history res = generation_history st.
Proof.
  unfold genetic_optimization. unfold mbind at 1.
  match goal with |- context [initial_population L tp ?n s] =>
    pose proof (initial_population_keeps tp n s) as Hk;
    destruct (initial_population L tp n s) as [[population|e] s0] eqn:E0
  end; [|discriminate].
  cbn [snd] in Hk. unfold mbind at 1.
  match goal with |- context [run_generations _ _ _ ?n ?m ?m' _ s0] =>
    destruct (run_generations backtester L tp n m m' population s0) as [[st|e] s1] eqn:E1
  end; [|discriminate].
  unfold mbind, backtest, call_backtest, ret.
  destruct (backtester _ (ext s1)) as [fin w].
  intros H. injection H as <- <-.
  exists population, s0, st, s1. eexists. cbn. repeat split; try assumption; reflexivity.
Qed.

(** A run of [n] generations went through each of them, and no generation
    lowered the best fitness. *)
Lemma run_generations_monotone (tp : TaskParams) (population_size generations : nat)
    (population : list dict) (s : St world) (n : nat) :
  forall st s',
    run_generations backtester L tp population_size generations n population s
      = (Ok st, s') ->
    forall g, (g < n)%nat ->
      exists st0 s0 st1 s1,
        run_generations backtester L tp population_size generations g population s
          = (Ok st0, s0)
        /\ run_generations backtester L tp population_size generations (S g) population s
           = (Ok st1, s1)
        /\ fl_ge (best_fitness st1) (best_fitness st0) = true.
Proof.
  induction n as [|n IH]; intros st s' H g Hg; [lia|].
  pose proof H as H'. rewrite run_generations_succ in H'.
  destruct (run_generations backtester L tp population_size generations n population s)
    as [[stn|e] sn] eqn:E; [|discriminate].
  destruct (Nat.eq_dec g n) as [->|Hne].
  - destruct (run_generations_best tp population_size generations population s n stn sn E)
      as [Hh [log [Hc Hb]]].
    destruct (generation_step_best tp population_size generations stn n sn st s'
                (calls s) log Hc Hb Hh H') as [Hge _].
    exists stn, sn, st, s'. split; [exact E|]. split; [exact H | exact Hge].
  - apply (IH stn sn eq_refl g). lia.
Qed.

(** C7.  When the genetic loop gets through generation [g + 1], it got
    through generation [g], and the best fitness it holds afterwards is
    at least the one it held before.  That best fitness is beaten by no
    backtest made in any generation so far nor by any best fitness
    recorded in the generation history, and, unless it still is the
    initial [-inf] with no individual, it is the fitness of a backtest of
    the best individual held with it.

    What [_genetic_optimization] returns is that pair after the last
    generation: every generation of the run kept or raised the best
    fitness, the [best_fitness] returned is beaten by no backtest of any
    generation nor by any entry of the returned [generation_history], and
    [best_parameters] is an individual whose backtest, in some generation,
    had that fitness. *)
Theorem genetic_elitism (tp : TaskParams) (population_size generations g : nat)
    (population : list dict) (s : St world) (st' : GAState) (s' : St world) :
  (run_generations backtester L tp population_size generations (S g) population s
     = (Ok st', s') ->
   exists st1 s1 log,
     run_generations backtester L tp population_size generations g population s
       = (Ok st1, s1)
     /\ fl_ge (best_fitness st') (best_fitness st1) = true
     /\ calls s' = calls s ++ log
     /\ (forall c, In c log ->
           fl_gt (fitness_of tp (snd c)) (best_fitness st') = false)
     /\ (forall stats, In stats (generation_history st') ->
           fl_gt (gs_best_fitness stats) (best_fitness st') = false)
     /\ ((best_individual st' = None /\ best_fitness st' = NegInf)
         \/ exists ind r,
              best_individual st' = Some ind
              /\ In (request tp (Some ind) (start_date_of tp) (end_date_of tp), r) log
              /\ fitness_of tp r = best_fitness st'))
  /\ forall (s_start : St world) (res : GeneticResult) (s_end : St world),
       genetic_optimization backtester L tp s_start = (Ok res, s_end) ->
       exists first_population s0 log fin,
         initial_population L tp (gr_population_size res) s_start
           = (Ok first_population, s0)
         /\ calls s_end = calls s_start ++ log ++ [fin]
         /\ fst fin = request tp (gr_best_parameters res)
                        (start_date_of tp) (end_date_of tp)
         /\ (forall k, (k < gr_generations res)%nat ->
               exists st0 s1 st1 s2,
                 run_generations backtester L tp (gr_population_size res)
                   (gr_generations res) k first_population s0 = (Ok st0, s1)
                 /\ run_generations backtester L tp (gr_population_size res)
                      (gr_generations res) (S k) first_population s0 = (Ok st1, s2)
                 /\ fl_ge (best_fitness st1) (best_fitness st0) = true)
         /\ (exists st_last s_last,
               run_generations backtester L tp (gr_population_size res)
                 (gr_generations res) (gr_generations res) first_population s0
                 = (Ok st_last, s_last)
               /\ gr_best_fitness res = best_fitness st_last
               /\ gr_best_parameters res = best_individual st_last)
         /\ (forall c, In c log ->
               fl_gt (fitness_of tp (snd c)) (gr_best_fitness res) = false)
         /\ (forall stats, In stats (gr_generation_history res) ->
               fl_gt (gs_best_fitness stats) (gr_best_fitness res) = false)
         /\ ((gr_best_parameters res = None /\ gr_best_fitness res = NegInf)
             \/ exists ind r,
                  gr_best_parameters res = Some ind
                  /\ In (request tp (Some ind) (start_date_of tp) (end_date_of tp), r)
                        log
                  /\ fitness_of tp r = gr_best_fitness res).
Proof.
  split.
  - intros H. pose proof H as H'. rewrite run_generations_succ in H'.
    destruct (run_generations backtester L tp population_size generations g population s)
      as [[st1|e] s1] eqn:E; [|discriminate].
    destruct (run_generations_best tp population_size generations population s g st1 s1 E)
      as [Hh1 [log1 [Hc1 Hb1]]].
    destruct (generation_step_best tp population_size generations st1 g s1 st' s'
                (calls s) log1 Hc1 Hb1 Hh1 H') as [Hge [Hh [log [Hc [_ [Hdom Hatt]]]]]].
    exists st1, s1, log. repeat split; assumption.
  - intros s_start res s_end H.
    destruct (genetic_optimization_returns tp s_start res s_end H)
      as [pop [s0 [st [s1 [fin [E0 [Hk [E1 [Hc [Hq [Hp [Hf Hh]]]]]]]]]]]].
    destruct (run_generations_best tp (gr_population_size res) (gr_generations res)
                pop s0 (gr_generations res) st s1 E1) as [Hbelow [log [Hlog Hbest]]].
    destruct Hbest as [_ [Hdom Hatt]].
    exists pop, s0, log, fin. split; [exact E0|].
    split; [rewrite Hc, Hlog, Hk, <- app_assoc; reflexivity|].
    split.
    { rewrite Hp. exact Hq. }
    split; [apply (run_generations_monotone tp _ _ pop s0 _ st s1 E1)|].
    split; [exists st, s1; split; [exact E1 | split; assumption]|].
    rewrite Hf, Hp, Hh. split; [exact Hdom|]. split; [exact Hbelow | exact Hatt].
Qed.

End Genetic.

Lemma sample_population_drawn :
  fst (initial_population sample_oracles ma_task 4 start_state) = Ok sample_population.
Proof. vm_compute. reflexivity. Qed.

Lemma genetic_elitism_witness :
  (exists st1 s1,
     run_generations sample_service sample_oracles ma_task 4 2 1 sample_population
       start_state = (Ok st1, s1)
     /\ fl_ge (best_fitness sample_final) (best_fitness st1) = true
     /\ length (calls (snd sample_generations)) = 8%nat)
  /\ exists res s_end,
       genetic_optimization sample_service sample_oracles ma_task start_state
         = (Ok res, s_end)
       /\ length (calls s_end) = 9%nat
       /\ forall c, In c (removelast (calls s_end)) ->
                    fl_gt (fitness_of ma_task (snd c)) (gr_best_fitness res) = false.
Proof.
  assert (H : run_generations sample_service sample_oracles ma_task 4 2 2
                sample_population start_state
              = (Ok sample_final, snd sample_generations))
    by (vm_compute; reflexivity).
  assert (E : exists res s_end,
             genetic_optimization sample_service sample_oracles ma_task start_state
             = (Ok res, s_end) /\ length (calls s_end) = 9%nat).
  { eexists. eexists. split; vm_compute; reflexivity. }
  destruct E as [res [s_end [E El]]].
  destruct (genetic_elitism nat sample_service sample_oracles ma_task 4 2 1
              sample_population start_state sample_final (snd sample_generations))
    as [Hloop Hret].
  split.
  - destruct (Hloop H) as [st1 [s1 [log [E1 [Hge _]]]]].
    exists st1, s1. split; [exact E1|]. split; [exact Hge|].
    vm_compute. reflexivity.
  - exists res, s_end. split; [exact E|]. split; [exact El|].
    destruct (Hret start_state res s_end E)
      as [pop [s0 [log [fin [_ [Hc [_ [_ [_ [Hdom _]]]]]]]]]].
    intros c Hin. apply Hdom. rewrite Hc in Hin. cbn [calls start_state app] in Hin.
    rewrite removelast_last in Hin. exact Hin.
Defined.

(** * Further properties of the backtesting service *)

(** ** Parameters of an evaluation *)

(** X1.  The evaluator is handed exactly the parameters the registry
    declares for the strategy, in the order of the registry: each with the
    caller's value when the caller gave one and with the default
    otherwise.  A key the registry does not declare is not passed on. *)
Theorem resolve_params_lookup (sc : StrategyConfig) (user : list (string * pval)) :
  map fst (resolve_params sc user) = map fst (parameters sc)
  /\ forall k,
       dict_get k (resolve_params sc user)
       = match dict_get k (parameters sc) with
         | Some c => Some (resolved_value c user k)
         | None => None
         end.
Proof.
  unfold resolve_params. split.
  - rewrite map_map. reflexivity.
  - intros k. induction (parameters sc) as [|[k' c] l IH]; cbn [map dict_get fst snd].
    + reflexivity.
    + destruct (String.eqb_spec k k') as [->|_]; [reflexivity | exact IH].
Qed.

Lemma Qsum_from (l : list Q) : forall a, fold_left Qplus l a == a + Qsum l.
Proof.
  unfold Qsum. induction l as [|x l IH]; intros a; cbn [fold_left].
  - ring.
  - rewrite IH, (IH (0 + x)). ring.
Qed.

Lemma Qsum_cons (x : Q) (l : list Q) : Qsum (x :: l) == x + Qsum l.
Proof.
  unfold Qsum at 1. cbn [fold_left]. rewrite Qsum_from. ring.
Qed.

(** ** [run_backtest] *)

(** An evaluation is one of the four loops or the fallback of the
    exception handler. *)
Lemma execute_strategy_cases (X : Extern) (strategy_name : string) (df : list Bar)
    (user : option (list (string * pval))) (ic : Q) :
  (exists step, bar_step X step
     /\ execute_strategy X strategy_name df user ic = outcome (run_loop step df ic))
  \/ execute_strategy X strategy_name df user ic = ([], [ic]).
Proof.
  unfold execute_strategy.
  destruct (execute_strategy_body X strategy_name df user ic) as [r|e] eqn:E.
  - destruct (execute_strategy_body_loop X strategy_name df user ic r E)
      as [_ [_ [step [Hstep ->]]]].
    left. exists step. split; [exact Hstep | reflexivity].
  - right. reflexivity.
Qed.

Section RunnerFacts.

Variable X : Extern.
Variable world : Type.
Variable market : string -> Z -> world -> result (list Bar) * world.

(** X2.  [run_backtest] succeeds exactly when the strategy is registered
    and the exchange gave at least one bar inside the date range.  The
    report of a success counts those bars, starts from the capital of the
    request (1000 when none was given) and ends at the last value of its
    equity curve, which is never empty. *)
Theorem run_backtest_success (bp : BacktestParams) (w : world) :
  (is_success (fst (run_backtest X world market bp w)) = true
   <-> dict_mem (bp_strategy_name bp) strategies = true /\ frame_of world market bp w <> [])
  /\ forall rep,
       fst (run_backtest X world market bp w) = Success rep ->
       r_data_points rep = length (frame_of world market bp w)
       /\ r_initial_capital rep
          = match bp_initial_capital bp with Some c => c | None => 1000 end
       /\ r_equity_curve rep <> []
       /\ r_final_capital rep = last (r_equity_curve rep) (r_initial_capital rep).
Proof.
  unfold frame_of, run_backtest.
  destruct (dict_mem (bp_strategy_name bp) strategies); cbn [negb].
  2:{ cbn. split; [split; [discriminate | intros [H _]; discriminate] | discriminate]. }
  destruct (get_historical_data world market _ _ _ w) as [df w'].
  destruct df as [|b df]; cbn [fst].
  { split; [split; [discriminate | intros [_ H]; contradiction] | discriminate]. }
  set (ic := match bp_initial_capital bp with Some c => c | None => 1000 end).
  pose proof (execute_strategy_cases X (bp_strategy_name bp) (b :: df)
                (bp_parameters bp) ic) as Hc.
  destruct (execute_strategy X (bp_strategy_name bp) (b :: df) (bp_parameters bp) ic)
    as [trades ec] eqn:E.
  cbn [fst is_success]. split; [split; [intros _; split; [reflexivity | discriminate]
                                      | reflexivity] |].
  intros rep H. injection H as <-. cbn.
  repeat split.
  destruct Hc as [[step [Hstep Ho]] | Ho].
  - unfold outcome, run_loop in Ho. injection Ho as _ ->.
    destruct (fold_equity_curve X step Hstep (bars_from_1 (b :: df)) (init_state ic))
      as [rest [Hr _]].
    rewrite Hr. cbn. discriminate.
  - injection Ho as _ ->. discriminate.
Qed.

(** X3.  A request without a parameter dict on a registered strategy is
    reported as a success: the evaluation raises on the missing dict, the
    handler turns that into no trades on the bare seed curve, and the
    report carries the zero metrics and the untouched capital. *)
Theorem run_backtest_without_parameters (bp : BacktestParams) (w : world) :
  dict_mem (bp_strategy_name bp) strategies = true ->
  bp_parameters bp = None ->
  frame_of world market bp w <> [] ->
  exists rep,
    fst (run_backtest X world market bp w) = Success rep
    /\ r_trades rep = []
    /\ r_equity_curve rep = [r_initial_capital rep]
    /\ r_final_capital rep = r_initial_capital rep
    /\ r_metrics rep = MetricsDict zero_metrics.
Proof.
  unfold frame_of, run_backtest. intros Hreg Hnone Hdf. rewrite Hreg. cbn [negb].
  destruct (get_historical_data world market _ _ _ w) as [df w'].
  destruct df as [|b df]; cbn [fst] in *; [contradiction|].
  rewrite Hnone. unfold execute_strategy, execute_strategy_body.
  destruct (dict_get (bp_strategy_name bp) strategies); cbn [fst];
    eexists; (split; [reflexivity|]); cbn; repeat split; reflexivity.
Qed.

End RunnerFacts.

Lemma run_backtest_without_parameters_witness :
  exists rep,
    fst (run_backtest sample_lib nat sample_market
           (request ma_task None 19358 19723) 0%nat) = Success rep
    /\ r_trades rep = []
    /\ r_metrics rep = MetricsDict zero_metrics.
Proof.
  destruct (run_backtest_without_parameters sample_lib nat sample_market
              (request ma_task None 19358 19723) 0%nat)
    as [rep [E [Ht [_ [_ Hm]]]]].
  - reflexivity.
  - reflexivity.
  - vm_compute. discriminate.
  - exists rep. split; [exact E|]. split; [exact Ht | exact Hm].
Defined.

(** ** Metrics *)

(** What a returned metrics dict holds, key by key. *)
Lemma calculate_metrics_dict (X : Extern) (trades : list Trade) (equity_curve : list Q)
    (initial_capital : Q) (kv : list (string * fl)) :
  trades <> [] ->
  calculate_metrics X trades equity_curve initial_capital = MetricsDict kv ->
  exists d,
    drawdown_loop equity_curve (hd 0 equity_curve) 0 = Ok d
    /\ equity_curve <> []
    /\ dict_get "total_trades" kv = Some (Fin (of_nat (length trades)))
    /\ dict_get "winning_trades" kv
       = Some (Fin (of_nat (length (winning_trades trades))))
    /\ dict_get "losing_trades" kv
       = Some (Fin (of_nat (length (losing_trades trades))))
    /\ dict_get "total_return" kv = Some (Fin (Qsum (map pnl trades)))
    /\ dict_get "win_rate" kv
       = Some (Fin (of_nat (length (winning_trades trades))
                    / of_nat (length trades)))
    /\ dict_get "profit_factor" kv = Some (profit_factor trades)
    /\ dict_get "max_drawdown" kv = Some (Fin d)
    /\ dict_get "largest_win" kv
       = Some (Fin (max_list (hd 0 (map pnl trades)) (tl (map pnl trades))))
    /\ dict_get "largest_loss" kv
       = Some (Fin (min_list (hd 0 (map pnl trades)) (tl (map pnl trades)))).
Proof.
  intros Hne. destruct trades as [|t0 ts]; [contradiction|].
  unfold calculate_metrics, calculate_metrics_body.
  destruct (py_div (last equity_curve initial_capital - initial_capital) initial_capital)
    as [r|e]; cbn [bind]; [|discriminate].
  destruct equity_curve as [|v ec]; cbn [bind]; [discriminate|].
  destruct (drawdown_loop (v :: ec) v 0) as [d|e] eqn:Ed; cbn [bind]; [|discriminate].
  intros H. injection H as <-. exists d.
  split; [exact Ed|]. split; [discriminate|].
  repeat split; reflexivity.
Qed.

Lemma py_max_ge (a b : Q) : a <= py_max a b /\ b <= py_max a b.
Proof.
  unfold py_max. destruct (Qltb a b) eqn:E.
  - apply Qltb_lt in E. split; [apply Qlt_le_weak; exact E | apply Qle_refl].
  - apply Qltb_ge in E. split; [apply Qle_refl | exact E].
Qed.

(** The scan never lowers the running maximum, keeps it non-negative, and
    keeps it at most 1 on a curve without negative values. *)
Lemma drawdown_loop_bounds (values : list Q) :
  forall peak m d,
    0 < peak -> 0 <= m ->
    drawdown_loop values peak m = Ok d ->
    m <= d /\ (Forall (fun x => 0 <= x) values -> m <= 1 -> d <= 1).
Proof.
  induction values as [|value rest IH]; intros peak m d Hp Hm; cbn [drawdown_loop].
  - intros H. injection H as <-. split; [apply Qle_refl | tauto].
  - set (peak' := if Qltb peak value then value else peak).
    assert (Hp' : 0 < peak' /\ value <= peak').
    { subst peak'. destruct (Qltb peak value) eqn:E.
      - apply Qltb_lt in E. split; [eapply Qlt_trans; eassumption | apply Qle_refl].
      - apply Qltb_ge in E. split; assumption. }
    destruct Hp' as [Hp' Hv]. unfold py_div.
    destruct (Qeq_bool peak' 0) eqn:E0.
    { apply Qeq_bool_eq in E0. rewrite E0 in Hp'. exfalso. apply (Qlt_irrefl 0 Hp'). }
    cbn [bind]. intros H.
    set (dd := (peak' - value) / peak') in *.
    assert (Hdd : 0 <= dd).
    { subst dd. apply Qle_shift_div_l; [exact Hp'|]. lra. }
    destruct (py_max_ge m dd) as [Hm1 Hm2].
    destruct (IH peak' (py_max m dd) d Hp' (Qle_trans _ _ _ Hm Hm1) H) as [H1 H2].
    split; [eapply Qle_trans; eassumption|].
    intros Hall Hm'. inversion Hall as [|? ? Hv0 Hrest]; subst.
    apply H2; [exact Hrest|].
    unfold py_max. destruct (Qltb m dd); [|exact Hm'].
    subst dd. apply Qle_shift_div_r; [exact Hp'|]. lra.
Qed.

(** On a curve that never falls below its running peak the scan finds no
    drawdown. *)
Lemma drawdown_loop_flat (values : list Q) :
  forall peak,
    0 < peak -> non_decreasing (peak :: values) ->
    drawdown_loop values peak 0 = Ok 0.
Proof.
  induction values as [|value rest IH]; intros peak Hp Hnd; cbn [drawdown_loop].
  - reflexivity.
  - cbn [non_decreasing] in Hnd. destruct Hnd as [Hle Hnd].
    set (peak' := if Qltb peak value then value else peak).
    assert (Hp' : 0 < peak' /\ peak' == value).
    { subst peak'. destruct (Qltb peak value) eqn:E.
      - apply Qltb_lt in E. split; [eapply Qlt_trans; eassumption | reflexivity].
      - apply Qltb_ge in E. split; [exact Hp | apply Qle_antisym; assumption]. }
    destruct Hp' as [Hp' He]. unfold py_div.
    destruct (Qeq_bool peak' 0) eqn:E0.
    { apply Qeq_bool_eq in E0. rewrite E0 in Hp'. exfalso. apply (Qlt_irrefl 0 Hp'). }
    cbn [bind].
    assert (Hdd : (peak' - value) / peak' == 0).
    { rewrite He. unfold Qminus. rewrite Qplus_opp_r. unfold Qdiv. ring. }
    assert (Hmax : py_max 0 ((peak' - value) / peak') = 0).
    { unfold py_max.
      destruct (Qltb 0 ((peak' - value) / peak')) eqn:E; [|reflexivity].
      apply Qltb_lt in E. rewrite Hdd in E. exfalso. apply (Qlt_irrefl 0 E). }
    rewrite Hmax. apply IH; [exact Hp'|].
    destruct rest as [|y rest']; cbn [non_decreasing] in *; [exact I|].
    destruct Hnd as [Hy Hnd]. split; [rewrite He; exact Hy | exact Hnd].
Qed.

(** X5.  On an equity curve that starts positive the reported maximum
    drawdown is never negative; it is at most 1 when no equity value is
    negative, and it is 0 when the curve never falls. *)
Theorem max_drawdown_bounds (X : Extern) (trades : list Trade) (v : Q)
    (equity_curve : list Q) (initial_capital : Q) (kv : list (string * fl)) :
  trades <> [] ->
  0 < v ->
  calculate_metrics X trades (v :: equity_curve) initial_capital = MetricsDict kv ->
  exists d,
    dict_get "max_drawdown" kv = Some (Fin d)
    /\ 0 <= d
    /\ (Forall (fun x => 0 <= x) equity_curve -> d <= 1)
    /\ (non_decreasing (v :: equity_curve) -> d = 0).
Proof.
  intros Hne Hv H.
  destruct (calculate_metrics_dict X trades (v :: equity_curve) initial_capital kv Hne H)
    as [d [Hd [_ [_ [_ [_ [_ [_ [_ [Hk _]]]]]]]]]].
  cbn [hd] in Hd. exists d. split; [exact Hk|].
  destruct (drawdown_loop_bounds (v :: equity_curve) v 0 d Hv (Qle_refl 0) Hd)
    as [H0 H1].
  split; [exact H0|]. split.
  - intros Hall. apply H1; [|discriminate].
    constructor; [apply Qlt_le_weak; exact Hv | exact Hall].
  - intros Hnd.
    assert (Hflat : drawdown_loop (v :: equity_curve) v 0 = Ok 0).
    { apply drawdown_loop_flat; [exact Hv|].
      cbn [non_decreasing]. split; [apply Qle_refl | exact Hnd]. }
    rewrite Hflat in Hd. injection Hd as <-. reflexivity.
Qed.

Lemma max_drawdown_bounds_witness :
  exists d,
    metrics_get (calculate_metrics sample_lib [flat_trade] [1000; 900; 1200] 1000)
      "max_drawdown" NaN = Fin d
    /\ 0 <= d <= 1.
Proof.
  destruct (max_drawdown_bounds sample_lib [flat_trade] 1000 [900; 1200] 1000
              match calculate_metrics sample_lib [flat_trade] [1000; 900; 1200] 1000 with
              | MetricsDict kv => kv
              | MetricsError _ => []
              end)
    as [d [Hk [H0 [H1 _]]]].
  - discriminate.
  - reflexivity.
  - vm_compute. reflexivity.
  - exists d. split.
    + revert Hk. vm_compute. intros H. injection H as <-. reflexivity.
    + split; [exact H0|]. apply H1. repeat constructor; discriminate.
Defined.

Lemma winning_losing_count (trades : list Trade) :
  (length (winning_trades trades) + length (losing_trades trades) <= length trades)%nat.
Proof.
  unfold winning_trades, losing_trades.
  induction trades as [|t ts IH]; cbn [filter length]; [lia|].
  destruct (Qltb 0 (pnl t)) eqn:Ew, (Qltb (pnl t) 0) eqn:El; cbn [length]; try lia.
  apply Qltb_lt in Ew, El. exfalso. apply (Qlt_irrefl 0). eapply Qlt_trans; eassumption.
Qed.

Lemma of_nat_le (a b : nat) : (a <= b)%nat -> of_nat a <= of_nat b.
Proof.
  intros H. unfold of_nat. rewrite <- Zle_Qle. lia.
Qed.

Lemma of_nat_pos (n : nat) : (0 < n)%nat -> 0 < of_nat n.
Proof.
  intros H. unfold of_nat. replace 0 with (inject_Z 0) by reflexivity.
  rewrite <- Zlt_Qlt. lia.
Qed.

(** X6.  The win rate of a metrics dict is the share of trades with a
    positive pnl and lies between 0 and 1.  Winning and losing trades
    together are at most all trades: a break-even trade counts as
    neither. *)
Theorem win_rate_bounds (X : Extern) (trades : list Trade) (equity_curve : list Q)
    (initial_capital : Q) (kv : list (string * fl)) :
  trades <> [] ->
  calculate_metrics X trades equity_curve initial_capital = MetricsDict kv ->
  exists n wins losses rate,
    dict_get "total_trades" kv = Some (Fin (of_nat n))
    /\ dict_get "winning_trades" kv = Some (Fin (of_nat wins))
    /\ dict_get "losing_trades" kv = Some (Fin (of_nat losses))
    /\ dict_get "win_rate" kv = Some (Fin rate)
    /\ n = length trades
    /\ wins = length (filter (fun t => Qltb 0 (pnl t)) trades)
    /\ losses = length (filter (fun t => Qltb (pnl t) 0) trades)
    /\ (wins + losses <= n)%nat
    /\ rate == of_nat wins / of_nat n
    /\ 0 <= rate <= 1.
Proof.
  intros Hne H.
  destruct (calculate_metrics_dict X trades equity_curve initial_capital kv Hne H)
    as [d [_ [_ [Hn [Hw [Hl [_ [Hr _]]]]]]]].
  exists (length trades), (length (winning_trades trades)),
         (length (losing_trades trades)),
         (of_nat (length (winning_trades trades)) / of_nat (length trades)).
  split; [exact Hn|]. split; [exact Hw|]. split; [exact Hl|]. split; [exact Hr|].
  split; [reflexivity|]. split; [reflexivity|]. split; [reflexivity|].
  pose proof (winning_losing_count trades) as Hc.
  split; [exact Hc|]. split; [reflexivity|].
  assert (Hpos : 0 < of_nat (length trades)).
  { apply of_nat_pos. destruct trades; [contradiction | cbn; lia]. }
  split.
  - apply Qle_shift_div_l; [exact Hpos|]. rewrite Qmult_0_l.
    replace 0 with (of_nat 0) by reflexivity. apply of_nat_le. lia.
  - apply Qle_shift_div_r; [exact Hpos|]. rewrite Qmult_1_l. apply of_nat_le. lia.
Qed.

Lemma win_rate_bounds_witness :
  exists rate,
    metrics_get (calculate_metrics sample_lib [flat_trade] [1000; 1000] 1000)
      "win_rate" NaN = Fin rate
    /\ 0 <= rate <= 1.
Proof.
  destruct (win_rate_bounds sample_lib [flat_trade] [1000; 1000] 1000
              match calculate_metrics sample_lib [flat_trade] [1000; 1000] 1000 with
              | MetricsDict kv => kv
              | MetricsError _ => []
              end)
    as [n [wins [losses [rate [_ [_ [_ [Hk [_ [_ [_ [_ [_ Hb]]]]]]]]]]]]].
  - discriminate.
  - vm_compute. reflexivity.
  - exists rate. split; [|exact Hb].
    revert Hk. vm_compute. intros H. injection H as <-. reflexivity.
Defined.

Lemma max_list_bound (l : list Q) :
  forall x, In (max_list x l) (x :: l)
            /\ forall y, In y (x :: l) -> y <= max_list x l.
Proof.
  unfold max_list. induction l as [|z l IH]; intros x; cbn [fold_left].
  - split; [left; reflexivity|]. intros y [<- | []]. apply Qle_refl.
  - destruct (IH (py_max x z)) as [Hin Hle].
    destruct (py_max_ge x z) as [Hx Hz]. split.
    + destruct Hin as [Hin | Hin]; [|right; right; exact Hin].
      rewrite <- Hin. unfold py_max. destruct (Qltb x z); [right; left | left]; reflexivity.
    + intros y [<- | [<- | Hy]].
      * eapply Qle_trans; [exact Hx | apply Hle; left; reflexivity].
      * eapply Qle_trans; [exact Hz | apply Hle; left; reflexivity].
      * apply Hle. right. exact Hy.
Qed.

Lemma py_min_le (a b : Q) : py_min a b <= a /\ py_min a b <= b.
Proof.
  unfold py_min. destruct (Qltb b a) eqn:E.
  - apply Qltb_lt in E. split; [apply Qlt_le_weak; exact E | apply Qle_refl].
  - apply Qltb_ge in E. split; [apply Qle_refl | exact E].
Qed.

Lemma min_list_bound (l : list Q) :
  forall x, In (min_list x l) (x :: l)
            /\ forall y, In y (x :: l) -> min_list x l <= y.
Proof.
  unfold min_list. induction l as [|z l IH]; intros x; cbn [fold_left].
  - split; [left; reflexivity|]. intros y [<- | []]. apply Qle_refl.
  - destruct (IH (py_min x z)) as [Hin Hle].
    destruct (py_min_le x z) as [Hx Hz]. split.
    + destruct Hin as [Hin | Hin]; [|right; right; exact Hin].
      rewrite <- Hin. unfold py_min. destruct (Qltb z x); [right; left | left]; reflexivity.
    + intros y [<- | [<- | Hy]].
      * eapply Qle_trans; [apply Hle; left; reflexivity | exact Hx].
      * eapply Qle_trans; [apply Hle; left; reflexivity | exact Hz].
      * apply Hle. right. exact Hy.
Qed.

(** X7.  [largest_win] and [largest_loss] are the largest and the smallest
    pnl of the trade list, each the pnl of one of the trades; so
    [largest_loss] is a gain when every trade won, and [largest_win] a loss
    when every trade lost. *)
Theorem largest_win_and_loss (X : Extern) (trades : list Trade) (equity_curve : list Q)
    (initial_capital : Q) (kv : list (string * fl)) :
  trades <> [] ->
  calculate_metrics X trades equity_curve initial_capital = MetricsDict kv ->
  exists hi lo,
    dict_get "largest_win" kv = Some (Fin hi)
    /\ dict_get "largest_loss" kv = Some (Fin lo)
    /\ In hi (map pnl trades)
    /\ In lo (map pnl trades)
    /\ forall t, In t trades -> lo <= pnl t <= hi.
Proof.
  intros Hne H.
  destruct (calculate_metrics_dict X trades equity_curve initial_capital kv Hne H)
    as [d [_ [_ [_ [_ [_ [_ [_ [_ [_ [Hw Hl]]]]]]]]]]].
  destruct trades as [|t0 ts]; [contradiction|]. cbn [map hd tl] in Hw, Hl.
  destruct (max_list_bound (map pnl ts) (pnl t0)) as [Hin1 Hle1].
  destruct (min_list_bound (map pnl ts) (pnl t0)) as [Hin2 Hle2].
  eexists. eexists. split; [exact Hw|]. split; [exact Hl|].
  split; [exact Hin1|]. split; [exact Hin2|].
  intros t Ht. assert (Hp : In (pnl t) (pnl t0 :: map pnl ts)).
  { change (In (pnl t) (map pnl (t0 :: ts))). apply in_map. exact Ht. }
  split; [apply Hle2 | apply Hle1]; exact Hp.
Qed.

Lemma largest_win_and_loss_witness :
  exists hi lo,
    metrics_get (calculate_metrics sample_lib [winning_trade; losing_trade]
                   [1000; 1020; 1015] 1000) "largest_win" NaN = Fin hi
    /\ metrics_get (calculate_metrics sample_lib [winning_trade; losing_trade]
                      [1000; 1020; 1015] 1000) "largest_loss" NaN = Fin lo
    /\ lo <= pnl losing_trade /\ pnl winning_trade <= hi.
Proof.
  destruct (largest_win_and_loss sample_lib [winning_trade; losing_trade]
              [1000; 1020; 1015] 1000
              match calculate_metrics sample_lib [winning_trade; losing_trade]
                      [1000; 1020; 1015] 1000 with
              | MetricsDict kv => kv
              | MetricsError _ => []
              end)
    as [hi [lo [Hw [Hl [_ [_ Hb]]]]]].
  - discriminate.
  - vm_compute. reflexivity.
  - exists hi, lo. split; [|split].
    + revert Hw. vm_compute. intros H. injection H as <-. reflexivity.
    + revert Hl. vm_compute. intros H. injection H as <-. reflexivity.
    + split; [apply (Hb losing_trade) | apply (Hb winning_trade)];
        cbn; tauto.
Defined.

(** * Further properties of the search engines *)

(** ** Grid search on any domain *)

Lemma all_values_length (rs : list ParamRange) :
  forall vss, all_values rs = Ok vss ->
    Forall2 (fun r vs => range_values r = Ok vs) rs vss.
Proof.
  induction rs as [|r rs IH]; intros vss; cbn [all_values].
  - intros H. injection H as <-. constructor.
  - destruct (range_values r) as [vs|e] eqn:E; cbn [Backtesting.bind]; [|discriminate].
    destruct (all_values rs) as [rest|e]; cbn [Backtesting.bind]; [|discriminate].
    intros H. injection H as <-. constructor; [exact E | apply IH; reflexivity].
Qed.

(** X10.  Whatever the kinds of the parameters, when the enumeration
    succeeds it yields as many combinations as the product of the numbers
    of candidate values, and every combination binds exactly the
    parameters of the domain, in the order of the domain, each to one of
    its candidate values.  The empty domain yields the single empty
    combination. *)
Theorem generate_parameter_combinations_shape
    (parameter_ranges : list (string * ParamRange)) (combos : list dict) :
  generate_parameter_combinations parameter_ranges = Ok combos ->
  exists vss,
    Forall2 (fun r vs => range_values r = Ok vs) (map snd parameter_ranges) vss
    /\ length combos = fold_right Nat.mul 1%nat (map (@length pval) vss)
    /\ (forall d, In d combos <->
          map fst d = map fst parameter_ranges
          /\ Forall2 (fun v vs => In v vs) (map snd d) vss)
    /\ (parameter_ranges = [] -> combos = [[]]).
Proof.
  unfold generate_parameter_combinations.
  destruct (all_values (map snd parameter_ranges)) as [vss|e] eqn:E;
    cbn [Backtesting.bind]; [|discriminate].
  intros H. injection H as <-.
  pose proof (all_values_length _ _ E) as Hv.
  assert (Hlen : length (map fst parameter_ranges) = length vss).
  { apply Forall2_length in Hv. rewrite !length_map in *. exact Hv. }
  exists vss. split; [exact Hv|]. split; [|split].
  - rewrite length_map. apply product_length.
  - intros d. rewrite in_map_iff. split.
    + intros [l [<- Hl]]. apply in_product in Hl.
      assert (Hll : length (map fst parameter_ranges) = length l).
      { apply Forall2_length in Hl. lia. }
      rewrite map_fst_combine, map_snd_combine by exact Hll.
      split; [reflexivity | exact Hl].
    + intros [Hn Hg]. exists (map snd d). split.
      * rewrite <- Hn. apply combine_fst_snd.
      * apply in_product. exact Hg.
  - intros ->. cbn in E. injection E as <-. reflexivity.
Qed.

Lemma generate_parameter_combinations_shape_witness :
  exists vss,
    Forall2 (fun r vs => range_values r = Ok vs) (map snd ab_ranges) vss
    /\ map (@length pval) vss = [3%nat; 2%nat].
Proof.
  destruct (generate_parameter_combinations_shape ab_ranges
              (map (combine ["a"%string; "b"%string])
                   (product [[VInt 1; VInt 2; VInt 3]; [VInt 1; VInt 2]])))
    as [vss [Hv _]].
  - reflexivity.
  - exists vss. split; [exact Hv|].
    inversion Hv as [|r1 vs1 rs1 vss1 H1 Hv1]; subst.
    inversion Hv1 as [|r2 vs2 rs2 vss2 H2 Hv2]; subst.
    inversion Hv2; subst.
    vm_compute in H1, H2. injection H1 as <-. injection H2 as <-. reflexivity.
Defined.

Lemma range_values_empty (r : ParamRange) :
  empty_range r = true -> range_values r = Ok [].
Proof.
  destruct r as [lo hi step| |ch| |]; try discriminate.
  - cbn [empty_range]. intros H. apply andb_true_iff in H. destruct H as [Hs Hb].
    apply Z.ltb_lt in Hs, Hb.
    cbn [range_values]. fold (step_of step). unfold py_range.
    destruct (Z.eqb_spec (step_of step) 0) as [E|_]; [lia|].
    destruct (Z.ltb_spec 0 (step_of step)) as [_|E]; [|lia].
    assert (Hn : Z.to_nat ((hi + 1 - lo + step_of step - 1) / step_of step) = 0%nat).
    { rewrite (py_range_count lo hi (step_of step) Hs).
      destruct (Z.leb_spec lo hi); [lia | reflexivity]. }
    rewrite Hn. reflexivity.
  - destruct ch; [reflexivity | discriminate].
Qed.

Lemma product_empty {A : Type} (ls : list (list A)) :
  In [] ls -> product ls = [].
Proof.
  induction ls as [|l ls IH]; intros H; [destruct H|]. cbn [product].
  destruct H as [-> | H]; [reflexivity|].
  rewrite (IH H). induction l as [|x l IHl]; [reflexivity | exact IHl].
Qed.

Section GridFacts.

Variable world : Type.
Variable backtester : BacktestParams -> world -> BacktestResult * world.

(** X11.  When the enumeration raises, grid search raises the same
    exception before it makes any backtest; it does so on every domain
    that holds an integer parameter with step 0. *)
Theorem parameter_sweep_enumeration_error (tp : TaskParams) (s : St world) :
  (forall e, generate_parameter_combinations (tp_parameter_ranges tp) = Raise e ->
             parameter_sweep backtester tp s = (Raise e, s))
  /\ (forall k lo hi,
        In (k, RInt lo hi (Some 0%Z)) (tp_parameter_ranges tp) ->
        exists e, parameter_sweep backtester tp s = (Raise e, s)).
Proof.
  assert (H1 : forall e,
             generate_parameter_combinations (tp_parameter_ranges tp) = Raise e ->
             parameter_sweep backtester tp s = (Raise e, s)).
  { intros e E. unfold parameter_sweep, mbind, of_result. rewrite E. reflexivity. }
  split; [exact H1|].
  intros k lo hi Hin.
  assert (H2 : exists e,
             generate_parameter_combinations (tp_parameter_ranges tp) = Raise e).
  { unfold generate_parameter_combinations.
    apply (in_map snd) in Hin. cbn [snd] in Hin. revert Hin.
    generalize (map snd (tp_parameter_ranges tp)) as rs.
    induction rs as [|r rs IH]; intros Hin; [destruct Hin|]. cbn [all_values].
    destruct Hin as [-> | Hin].
    - cbn. eexists. reflexivity.
    - destruct (range_values r) as [vs|e]; cbn [Backtesting.bind];
        [|eexists; reflexivity].
      destruct (IH Hin) as [e He].
      destruct (all_values rs) as [rest|e']; cbn [Backtesting.bind] in *;
        [discriminate | eexists; reflexivity]. }
  destruct H2 as [e He]. exists e. apply H1. exact He.
Qed.

(** X12.  When one parameter of the domain has no candidate value (integer
    bounds in the wrong order, or an empty list of choices) and the
    enumeration succeeds, there is no combination at all: grid search
    makes a single backtest, the closing one with no parameters, and
    returns no best parameters with the best value [-inf]. *)
Theorem parameter_sweep_empty_range (tp : TaskParams) (s : St world)
    (combos : list dict) :
  generate_parameter_combinations (tp_parameter_ranges tp) = Ok combos ->
  existsb empty_range (map snd (tp_parameter_ranges tp)) = true ->
  combos = []
  /\ exists res fin,
       parameter_sweep backtester tp s
         = (Ok res, {| ext := snd (backtester (request tp None (start_date_of tp)
                                                (end_date_of tp)) (ext s));
                       calls := calls s ++ [(request tp None (start_date_of tp)
                                               (end_date_of tp), fin)] |})
       /\ sr_best_parameters res = None
       /\ sr_best_value res = NegInf
       /\ sr_total_combinations res = 0%nat
       /\ sr_final_backtest res = fin.
Proof.
  intros E He.
  assert (Hc : combos = []).
  { unfold generate_parameter_combinations in E.
    destruct (all_values (map snd (tp_parameter_ranges tp))) as [vss|e] eqn:Ev;
      cbn [Backtesting.bind] in E; [|discriminate].
    injection E as <-.
    apply all_values_length in Ev. apply existsb_exists in He.
    destruct He as [r [Hin Hr]]. apply range_values_empty in Hr.
    rewrite product_empty; [reflexivity|].
    clear - Ev Hin Hr. induction Ev as [|r' vs rs vss H _ IH]; [destruct Hin|].
    destruct Hin as [-> | Hin]; [left; congruence | right; apply IH; exact Hin]. }
  split; [exact Hc|]. subst combos.
  unfold parameter_sweep, mbind, of_result. rewrite E.
  cbn [cap_combinations length Nat.ltb Nat.leb foldM ret sweep_init sw_best_params
       sw_best_value sw_results].
  unfold backtest, call_backtest.
  destruct (backtester (request tp None (start_date_of tp) (end_date_of tp)) (ext s))
    as [fin w]. cbn [snd ret].
  eexists. exists fin. split; [reflexivity|]. repeat split; reflexivity.
Qed.

End GridFacts.

Lemma parameter_sweep_empty_range_witness :
  exists res s',
    parameter_sweep sample_service reversed_task start_state = (Ok res, s')
    /\ sr_best_parameters res = None
    /\ length (calls s') = 1%nat.
Proof.
  destruct (parameter_sweep_empty_range nat sample_service reversed_task start_state [])
    as [_ [res [fin [E [Hp _]]]]].
  - reflexivity.
  - reflexivity.
  - eexists. eexists. split; [exact E|]. split; [exact Hp | reflexivity].
Defined.

Lemma parameter_sweep_enumeration_error_witness :
  parameter_sweep sample_service
    (sample_task "ma_crossover" [ ("fast_ma"%string, RInt 2 5 (Some 0%Z)) ]) start_state
  = (Raise (ValueError "range() arg 3 must not be zero"), start_state).
Proof.
  destruct (parameter_sweep_enumeration_error nat sample_service
              (sample_task "ma_crossover" [ ("fast_ma"%string, RInt 2 5 (Some 0%Z)) ])
              start_state) as [H _].
  apply H. reflexivity.
Defined.

Section GridBest.

Variable world : Type.
Variable backtester : BacktestParams -> world -> BacktestResult * world.

Lemma fl_gt_neginf (b : fl) : fl_gt NegInf b = false.
Proof. destruct b; reflexivity. Qed.

Lemma successes_app (l1 l2 : list (BacktestParams * BacktestResult)) :
  successes (l1 ++ l2) = successes l1 ++ successes l2.
Proof. unfold successes. apply filter_app. Qed.

Lemma sweep_loop_best (tp : TaskParams) (combos : list dict) :
  forall st s base log,
    calls s = base ++ log ->
    best_seen tp log (sw_best_params st) (sw_best_value st) ->
    length (sw_results st) = length (successes log) ->
    exists st' s' log',
      foldM (sweep_step backtester tp) combos st s = (Ok st', s')
      /\ calls s' = base ++ log'
      /\ best_seen tp log' (sw_best_params st') (sw_best_value st')
      /\ length (sw_results st') = length (successes log')
      /\ length log' = (length log + length combos)%nat.
Proof.
  induction combos as [|d combos IH]; intros st s base log Hc Hb Hl; cbn [foldM].
  - exists st, s, log. unfold ret. cbn [length].
    split; [reflexivity|]. split; [exact Hc|]. split; [exact Hb|].
    split; [exact Hl | lia].
  - unfold mbind at 1. unfold sweep_step at 1. unfold mbind at 1.
    unfold backtest, call_backtest.
    destruct (backtester _ (ext s)) as [r w].
    set (c := (request tp (Some d) (start_date_of tp) (end_date_of tp), r)).
    set (s1 := {| ext := w; calls := calls s ++ [c] |}).
    assert (Hc1 : calls s1 = base ++ (log ++ [c])).
    { subst s1. cbn [calls]. rewrite Hc, <- app_assoc. reflexivity. }
    destruct (best_seen_step tp log (sw_best_params st) (sw_best_value st) d r Hb)
      as [Hb' _]. fold c in Hb'.
    destruct (is_success r) eqn:Er; cbn [ret].
    + match goal with |- context [foldM _ combos ?x s1] =>
        destruct (IH x s1 base (log ++ [c])) as [st' [s' [log' [E [H1 [H2 [H3 H4]]]]]]]
      end.
      * exact Hc1.
      * cbn [sw_best_params sw_best_value].
        unfold fitness_of in Hb'. rewrite Er in Hb'.
        destruct (fl_gt _ (sw_best_value st)); exact Hb'.
      * cbn [sw_results]. rewrite successes_app, !length_app, Hl.
        unfold successes, c. cbn [filter snd]. rewrite Er. reflexivity.
      * exists st', s', log'. split; [exact E|]. split; [exact H1|].
        split; [exact H2|]. split; [exact H3|].
        rewrite H4, length_app. cbn [length]. lia.
    + destruct (IH st s1 base (log ++ [c])) as [st' [s' [log' [E [H1 [H2 [H3 H4]]]]]]].
      * exact Hc1.
      * unfold fitness_of in Hb'. rewrite Er, fl_gt_neginf in Hb'. exact Hb'.
      * rewrite successes_app, length_app, Hl.
        unfold successes, c. cbn [filter snd]. rewrite Er. cbn [length]. lia.
      * exists st', s', log'. split; [exact E|]. split; [exact H1|].
        split; [exact H2|]. split; [exact H3|].
        rewrite H4, length_app. cbn [length]. lia.
Qed.

(** X13.  When the enumeration succeeds grid search returns.  It has then
    made one backtest per kept combination and the closing one; the best
    value it returns is beaten by the objective of none of those
    backtests, a failed one counting as [-inf], and, unless it is the
    initial [-inf] with no parameters, it is the objective of the backtest
    of the returned best parameters.  The count of successful
    combinations is the number of successful backtests of the sweep. *)
Theorem parameter_sweep_best (tp : TaskParams) (s : St world) (combos : list dict) :
  generate_parameter_combinations (tp_parameter_ranges tp) = Ok combos ->
  exists res s' log fin,
    parameter_sweep backtester tp s = (Ok res, s')
    /\ calls s' = calls s ++ log ++ [fin]
    /\ length log = sr_total_combinations res
    /\ sr_successful_combinations res = length (successes log)
    /\ (sr_successful_combinations res <= sr_total_combinations res)%nat
    /\ (forall c, In c log ->
          fl_gt (fitness_of tp (snd c)) (sr_best_value res) = false)
    /\ ((sr_best_parameters res = None /\ sr_best_value res = NegInf)
        \/ exists d r,
             sr_best_parameters res = Some d
             /\ In (request tp (Some d) (start_date_of tp) (end_date_of tp), r) log
             /\ fitness_of tp r = sr_best_value res).
Proof.
  intros E.
  destruct (sweep_loop_best tp (cap_combinations combos) sweep_init s (calls s) [])
    as [st [s1 [log [Hloop [Hc [[_ [Hdom Hatt]] [Hl Hn]]]]]]].
  - rewrite app_nil_r. reflexivity.
  - cbn. split; [discriminate|]. split; [intros c []|]. left. split; reflexivity.
  - reflexivity.
  - unfold parameter_sweep. unfold mbind at 1. unfold of_result. rewrite E.
    unfold mbind at 1. rewrite Hloop. unfold mbind, backtest, call_backtest, ret.
    destruct (backtester _ (ext s1)) as [fin w].
    eexists. eexists. exists log. eexists.
    split; [reflexivity|].
    cbn [calls sr_total_combinations sr_successful_combinations sr_best_value
         sr_best_parameters].
    split; [rewrite Hc, <- app_assoc; reflexivity|].
    cbn [length Nat.add] in Hn. split; [exact Hn|]. split; [exact Hl|].
    split; [|split; [exact Hdom | exact Hatt]].
    rewrite Hl, <- Hn. unfold successes. apply filter_length_le.
Qed.

End GridBest.

Lemma parameter_sweep_best_witness :
  exists res s',
    parameter_sweep sample_service ma_task start_state = (Ok res, s')
    /\ sr_total_combinations res = 4%nat
    /\ sr_best_value res = Fin 0.
Proof.
  destruct (parameter_sweep_best nat sample_service ma_task start_state
              (map (combine ["fast_ma"%string; "slow_ma"%string])
                   (product [[VInt 2; VInt 3]; [VInt 3; VInt 4]])))
    as [res [s' [log [fin [E _]]]]].
  - reflexivity.
  - exists res, s'. split; [exact E|].
    revert E. vm_compute. intros E. injection E as <- _. split; reflexivity.
Defined.

(** ** Bayesian search *)

Lemma length_skipn_le {A : Type} (n : nat) (l : list A) :
  (length (skipn n l) <= length l)%nat.
Proof. rewrite length_skipn. lia. Qed.

Section Bayes.

Variable world : Type.
Variable backtester : BacktestParams -> world -> BacktestResult * world.
Variable L : Lib world.

Lemma best_trial_step (results : list TrialResult) bp bv (t : TrialResult) :
  best_trial results bp bv ->
  let better := fl_gt (trial_value t) bv in
  best_trial (results ++ [t])
    (if better then Some (trial_parameters t) else bp)
    (if better then trial_value t else bv).
Proof.
  intros [Hnan [Hdom Hatt]] better. subst better.
  destruct (fl_gt (trial_value t) bv) eqn:E.
  - pose proof (fl_gt_ge _ _ E) as Hge.
    split; [apply (fl_ge_not_nan _ _ Hge)|]. split.
    + intros t' Hin. apply in_app_or in Hin. destruct Hin as [Hin | [<- | []]].
      * apply (fl_not_gt_mono _ bv); [apply Hdom; exact Hin | exact Hge].
      * apply fl_gt_irrefl.
    + right. exists t. split; [apply in_or_app; right; left; reflexivity|].
      split; reflexivity.
  - split; [exact Hnan|]. split.
    + intros t' Hin. apply in_app_or in Hin. destruct Hin as [Hin | [<- | []]].
      * apply Hdom; exact Hin.
      * exact E.
    + destruct Hatt as [Hatt | [t' [H1 [H2 H3]]]]; [left; exact Hatt|].
      right. exists t'. split; [apply in_or_app; left; exact H1|]. split; assumption.
Qed.

(** A trial always ends: it records at most one result, makes at most one
    backtest, and keeps the best pair sound. *)
Lemma trial_step_ends (tp : TaskParams) (st : BayesState) (i : nat) (s : St world) :
  best_trial (by_trial_results st) (by_best_params st) (by_best_value st) ->
  exists st' s' log,
    trial_step backtester L tp st i s = (Ok st', s')
    /\ calls s' = calls s ++ log
    /\ (length log <= 1)%nat
    /\ (length (by_trial_results st') <= length (by_trial_results st) + 1)%nat
    /\ best_trial (by_trial_results st') (by_best_params st') (by_best_value st').
Proof.
  intros Hb. unfold trial_step. unfold mbind at 1. unfold lift at 1.
  destruct (ask L (ext s)) as [trial w].
  set (s0 := {| ext := w; calls := calls s |}).
  unfold catch. unfold mbind at 1. unfold objective_function. unfold mbind at 1.
  pose proof (suggest_params_keeps world L tp trial s0) as Hk.
  destruct (suggest_params L tp trial s0) as [[params|e] s1]; cbn [snd] in Hk.
  - unfold mbind at 1. unfold backtest, call_backtest.
    destruct (backtester _ (ext s1)) as [r w1].
    match goal with |- context [if ?c then ret ?a else ret ?b] =>
      replace (if c then ret a else ret b)
        with (@ret world _ (if c then a else b)) by (destruct c; reflexivity);
      set (pv := if c then a else b)
    end.
    assert (Hpv : fst pv = params) by (subst pv; destruct (negb _); reflexivity).
    destruct pv as [params' value]. cbn [fst] in Hpv. subst params'.
    unfold ret at 1. unfold mbind, lift, ret. cbn [ext calls].
    eexists. eexists. eexists. split; [reflexivity|]. cbn [calls].
    split; [rewrite Hk; reflexivity|]. split; [cbn; lia|].
    cbn [by_trial_results by_best_params by_best_value].
    split; [rewrite length_app; cbn; lia|].
    apply (best_trial_step (by_trial_results st) (by_best_params st) (by_best_value st)
             {| trial_number := i + 1; trial_parameters := params;
                trial_value := value |} Hb).
  - unfold mbind, lift, ret. cbn [ext calls].
    exists st. eexists. exists []. split; [reflexivity|]. cbn [calls].
    split; [rewrite Hk, app_nil_r; reflexivity|]. split; [cbn; lia|].
    split; [lia | exact Hb].
Qed.

Lemma trials_end (tp : TaskParams) (l : list nat) :
  forall st s,
    best_trial (by_trial_results st) (by_best_params st) (by_best_value st) ->
    exists st' s' log,
      foldM (trial_step backtester L tp) l st s = (Ok st', s')
      /\ calls s' = calls s ++ log
      /\ (length log <= length l)%nat
      /\ (length (by_trial_results st') <= length (by_trial_results st) + length l)%nat
      /\ best_trial (by_trial_results st') (by_best_params st') (by_best_value st').
Proof.
  induction l as [|i l IH]; intros st s Hb; cbn [foldM].
  - exists st, s, []. unfold ret. rewrite app_nil_r. cbn [length].
    split; [reflexivity|]. split; [reflexivity|]. split; [lia|]. split; [lia | exact Hb].
  - destruct (trial_step_ends tp st i s Hb) as [st1 [s1 [log1 [E [Hc [Hl [Hr Hb1]]]]]]].
    unfold mbind. rewrite E.
    destruct (IH st1 s1 Hb1) as [st2 [s2 [log2 [E2 [Hc2 [Hl2 [Hr2 Hb2]]]]]]].
    exists st2, s2, (log1 ++ log2). split; [exact E2|].
    split; [rewrite Hc2, Hc, <- app_assoc; reflexivity|].
    split; [rewrite length_app; cbn [length]; lia|].
    split; [cbn [length]; lia | exact Hb2].
Qed.


(** X15.  The best value the Bayesian search returns is beaten by no
    recorded trial, and, unless it is the initial [-inf] with no
    parameters, it is the value of a recorded trial whose parameters are
    the best parameters returned; the trial history handed back is the
    tail of the recorded trials. *)
Theorem bayesian_optimization_best (tp : TaskParams) (s : St world)
    (res : BayesResult) (s' : St world) :
  bayesian_optimization backtester L tp s = (Ok res, s') ->
  exists results,
    br_trial_history res = skipn (length results - 10) results
    /\ (forall t, In t results -> fl_gt (trial_value t) (br_best_value res) = false)
    /\ ((br_best_parameters res = None /\ br_best_value res = NegInf)
        \/ exists t, In t results
                     /\ br_best_parameters res = Some (trial_parameters t)
                     /\ trial_value t = br_best_value res).
Proof.
  unfold bayesian_optimization. unfold mbind at 1. unfold lift at 1.
  set (n := match tp_n_trials tp with Some n => n | None => 100%nat end).
  set (s0 := {| ext := _; calls := calls s |}).
  destruct (trials_end tp (seq 0 n) bayes_init s0)
    as [st [s1 [log [E [_ [_ [_ [_ [Hdom Hatt]]]]]]]]].
  { cbn. split; [discriminate|]. split; [intros t []|]. left. split; reflexivity. }
  unfold mbind at 1. rewrite E. unfold mbind, backtest, call_backtest, ret.
  destruct (backtester _ (ext s1)) as [fin w].
  intros H. injection H as <- _.
  exists (by_trial_results st). cbn [br_trial_history br_best_value br_best_parameters].
  split; [reflexivity|]. split; [exact Hdom | exact Hatt].
Qed.

End Bayes.

Lemma bayesian_optimization_best_witness :
  exists res s',
    bayesian_optimization sample_service sample_oracles ma_task start_state = (Ok res, s')
    /\ br_best_value res = Fin 0
    /\ forall t, In t (br_trial_history res) ->
                 fl_gt (trial_value t) (br_best_value res) = false.
Proof.
  assert (E : exists res s',
             bayesian_optimization sample_service sample_oracles ma_task start_state
             = (Ok res, s') /\ br_best_value res = Fin 0).
  { eexists. eexists. split; vm_compute; reflexivity. }
  destruct E as [res [s' [E Hv]]].
  destruct (bayesian_optimization_best nat sample_service sample_oracles ma_task
              start_state res s' E) as [results [Hh [Hdom _]]].
  exists res, s'. split; [exact E|]. split; [exact Hv|].
  intros t Ht. apply Hdom. rewrite Hh in Ht.
  rewrite <- (firstn_skipn (length results - 10) results).
  apply in_or_app. right. exact Ht.
Defined.

(** ** Values within the declared bounds *)

Lemma in_dict_set (k : string) (v : pval) (d : dict) (k' : string) (v' : pval) :
  In (k', v') (dict_set k v d) -> (k', v') = (k, v) \/ In (k', v') d.
Proof.
  induction d as [|[k0 v0] d IH]; cbn [dict_set].
  - intros [H | []]. left. symmetry. exact H.
  - destruct (String.eqb k k0).
    + intros [H | H]; [left; symmetry; exact H | right; right; exact H].
    + intros [H | H]; [right; left; exact H|].
      destruct (IH H) as [H' | H']; [left; exact H' | right; right; exact H'].
Qed.

Lemma dict_get_in {V : Type} (k : string) (d : list (string * V)) (v : V) :
  dict_get k d = Some v -> In (k, v) d.
Proof.
  induction d as [|[k0 v0] d IH]; cbn [dict_get]; [discriminate|].
  destruct (String.eqb_spec k k0) as [->|_].
  - intros H. injection H as ->. left. reflexivity.
  - intros H. right. apply IH. exact H.
Qed.

Lemma bounded_set (ranges : list (string * ParamRange)) (d : dict)
    (k : string) (r : ParamRange) (v : pval) :
  bounded ranges d -> In (k, r) ranges -> within r v ->
  bounded ranges (dict_set k v d).
Proof.
  intros Hb Hin Hw k' v' H. apply in_dict_set in H. destruct H as [H | H].
  - injection H as -> ->. exists r. split; assumption.
  - apply Hb. exact H.
Qed.

Section Invariants.

Variable world : Type.

Lemma foldM_invariant {A B : Type} (f : A -> B -> M world A) (P : A -> Prop)
    (l : list B) :
  (forall a b s a' s', In b l -> P a -> f a b s = (Ok a', s') -> P a') ->
  forall a s a' s', P a -> foldM f l a s = (Ok a', s') -> P a'.
Proof.
  induction l as [|b l IH]; intros Hf a s a' s' Ha; cbn [foldM].
  - unfold ret. intros H. injection H as <- _. exact Ha.
  - unfold mbind. destruct (f a b s) as [[a1|e] s1] eqn:E; [|discriminate].
    apply IH.
    + intros a0 b0 s0 a0' s0' Hin. apply Hf. right. exact Hin.
    + apply (Hf a b s a1 s1); [left; reflexivity | exact Ha | exact E].
Qed.


Lemma index_in {A : Type} (l : list A) (i : nat) (s : St world) (a : A) (s' : St world) :
  index l i s = (Ok a, s') -> In a l.
Proof.
  unfold index. destruct (nth_error l i) as [x|] eqn:E; [|discriminate].
  unfold ret. intros H. injection H as <- _. apply (nth_error_In _ _ E).
Qed.

End Invariants.

Section BayesBounds.

Variable world : Type.
Variable backtester : BacktestParams -> world -> BacktestResult * world.
Variable L : Lib world.
Hypothesis Hoptuna : optuna_contract L.

Lemma suggest_within (trial : nat) (k : string) (r : ParamRange)
    (s : St world) (v : pval) (s' : St world) :
  suggest L trial k r s = (Ok (Some v), s') -> within r v.
Proof.
  destruct Hoptuna as [Hint Hfl].
  destruct r as [lo hi st|lo hi st|ch|d|lo hi]; cbn [within]; try (intros; exact I).
  - unfold suggest, mbind, lift_r, ret.
    destruct (suggest_int L trial k lo hi (ext s)) as [[z|e] w] eqn:E; [|discriminate].
    intros H. injection H as <- _. exists z. split; [reflexivity|].
    apply (Hint _ _ _ _ _ _ _ E).
  - unfold suggest, mbind, lift_r, ret.
    destruct (suggest_float L trial k lo hi (ext s)) as [[q|e] w] eqn:E; [|discriminate].
    intros H. injection H as <- _. exists q. split; [reflexivity|].
    apply (Hfl _ _ _ _ _ _ _ E).
  - unfold suggest, mbind, lift_r, ret.
    destruct (suggest_float L trial k lo hi (ext s)) as [[q|e] w] eqn:E; [|discriminate].
    intros H. injection H as <- _. exists q. split; [reflexivity|].
    apply (Hfl _ _ _ _ _ _ _ E).
Qed.

Lemma suggest_params_bounded (tp : TaskParams) (trial : nat) (s : St world)
    (d : dict) (s' : St world) :
  suggest_params L tp trial s = (Ok d, s') -> bounded (tp_parameter_ranges tp) d.
Proof.
  unfold suggest_params.
  apply (foldM_invariant world _ (bounded (tp_parameter_ranges tp))).
  - intros a [k r] s0 a' s0' Hin Ha. cbn [fst snd]. unfold mbind.
    destruct (suggest L trial k r s0) as [[[v|]|e] s1] eqn:E; unfold ret;
      intros H; try discriminate; injection H as <- _.
    + apply (bounded_set _ _ _ r); [exact Ha | exact Hin|].
      apply (suggest_within trial k r s0 v s1 E).
    + exact Ha.
  - intros k v [].
Qed.

Lemma trial_step_bounded (tp : TaskParams) (st : BayesState) (i : nat) (s : St world)
    (st' : BayesState) (s' : St world) (base log : list (BacktestParams * BacktestResult)) :
  calls s = base ++ log ->
  bounded_calls (tp_parameter_ranges tp) log ->
  Forall (fun t => bounded (tp_parameter_ranges tp) (trial_parameters t))
         (by_trial_results st) ->
  (forall d, by_best_params st = Some d -> bounded (tp_parameter_ranges tp) d) ->
  trial_step backtester L tp st i s = (Ok st', s') ->
  (exists log', calls s' = base ++ log' /\ bounded_calls (tp_parameter_ranges tp) log')
  /\ Forall (fun t => bounded (tp_parameter_ranges tp) (trial_parameters t))
            (by_trial_results st')
  /\ (forall d, by_best_params st' = Some d -> bounded (tp_parameter_ranges tp) d).
Proof.
  intros Hc Hlog Hres Hbest. unfold trial_step. unfold mbind at 1. unfold lift at 1.
  destruct (ask L (ext s)) as [trial w].
  set (s0 := {| ext := w; calls := calls s |}).
  unfold catch. unfold mbind at 1. unfold objective_function. unfold mbind at 1.
  pose proof (suggest_params_keeps world L tp trial s0) as Hk.
  destruct (suggest_params L tp trial s0) as [[params|e] s1] eqn:Es; cbn [snd] in Hk;
    unfold s0 in Hk; cbn [calls] in Hk.
  - pose proof (suggest_params_bounded tp trial s0 params s1 Es) as Hp.
    unfold mbind at 1. unfold backtest, call_backtest.
    destruct (backtester _ (ext s1)) as [r w1].
    match goal with |- context [if ?c then ret ?a else ret ?b] =>
      replace (if c then ret a else ret b)
        with (@ret world _ (if c then a else b)) by (destruct c; reflexivity);
      set (pv := if c then a else b)
    end.
    assert (Hpv : fst pv = params) by (subst pv; destruct (negb _); reflexivity).
    destruct pv as [params' value]. cbn [fst] in Hpv. subst params'.
    unfold ret at 1. unfold mbind, lift, ret. cbn [ext calls].
    intros H. injection H as <- <-. cbn [calls by_trial_results by_best_params].
    split; [|split].
    + eexists. split; [rewrite Hk; cbn [calls]; rewrite Hc, <- app_assoc; reflexivity|].
      apply Forall_app. split; [exact Hlog|].
      constructor; [|constructor]. exists params. split; [reflexivity | exact Hp].
    + apply Forall_app. split; [exact Hres|]. constructor; [exact Hp | constructor].
    + destruct (fl_gt value (by_best_value st)); [|exact Hbest].
      intros d H. injection H as <-. exact Hp.
  - unfold mbind, lift, ret. cbn [ext calls].
    intros H. injection H as <- <-. cbn [calls].
    split; [|split; assumption].
    exists log. split; [rewrite Hk; exact Hc | exact Hlog].
Qed.

(** X16.  With suggestions that keep the contract of optuna, every
    backtest of a trial is asked with a parameter dict whose values lie
    within the declared bounds, and so do the recorded trials and the best
    parameters returned. *)
Theorem bayesian_optimization_bounded (tp : TaskParams) (s : St world)
    (res : BayesResult) (s' : St world) :
  bayesian_optimization backtester L tp s = (Ok res, s') ->
  exists log fin,
    calls s' = calls s ++ log ++ [fin]
    /\ bounded_calls (tp_parameter_ranges tp) log
    /\ Forall (fun t => bounded (tp_parameter_ranges tp) (trial_parameters t))
              (br_trial_history res)
    /\ (forall d, br_best_parameters res = Some d ->
                  bounded (tp_parameter_ranges tp) d).
Proof.
  unfold bayesian_optimization. unfold mbind at 1. unfold lift at 1.
  set (n := match tp_n_trials tp with Some n => n | None => 100%nat end).
  set (s0 := {| ext := _; calls := calls s |}).
  unfold mbind at 1.
  destruct (foldM (trial_step backtester L tp) (seq 0 n) bayes_init s0)
    as [[st|e] s1] eqn:E; [|discriminate].
  assert (Hinv : (exists log, calls s1 = calls s ++ log
                              /\ bounded_calls (tp_parameter_ranges tp) log)
                 /\ Forall (fun t => bounded (tp_parameter_ranges tp) (trial_parameters t))
                           (by_trial_results st)
                 /\ (forall d, by_best_params st = Some d ->
                               bounded (tp_parameter_ranges tp) d)).
  { revert E. generalize (seq 0 n) as l.
    assert (H0 : (exists log, calls s0 = calls s ++ log
                              /\ bounded_calls (tp_parameter_ranges tp) log)
                 /\ Forall (fun t => bounded (tp_parameter_ranges tp)
                                       (trial_parameters t))
                           (by_trial_results bayes_init)
                 /\ (forall d, by_best_params bayes_init = Some d ->
                               bounded (tp_parameter_ranges tp) d)).
    { split; [exists []; split; [symmetry; apply app_nil_r | constructor]|].
      split; [constructor | discriminate]. }
    revert H0. generalize bayes_init as st0. generalize s0 as sa.
    intros sa st0 H0 l. revert sa st0 H0.
    induction l as [|i l IH]; intros sa st0 H0; cbn [foldM].
    - unfold ret. intros H. injection H as <- <-. exact H0.
    - unfold mbind.
      destruct (trial_step backtester L tp st0 i sa) as [[st1|e] sb] eqn:E1;
        [|discriminate].
      apply IH. destruct H0 as [[log [Hc Hlog]] [Hres Hbest]].
      apply (trial_step_bounded tp st0 i sa st1 sb (calls s) log Hc Hlog Hres Hbest E1). }
  destruct Hinv as [[log [Hc Hlog]] [Hres Hbest]].
  unfold mbind, backtest, call_backtest, ret.
  destruct (backtester _ (ext s1)) as [fin w].
  intros H. injection H as <- <-.
  exists log. eexists.
  cbn [calls br_trial_history br_best_parameters].
  split; [rewrite Hc, <- app_assoc; reflexivity|]. split; [exact Hlog|].
  split; [apply Forall_skipn; exact Hres | exact Hbest].
Qed.

End BayesBounds.

Lemma tenth_bounds (n : nat) : 0 <= of_nat (n mod 10) / 10 <= 1.
Proof.
  assert (H : (n mod 10 < 10)%nat) by (apply Nat.mod_upper_bound; discriminate).
  unfold of_nat. set (z := Z.of_nat (n mod 10)).
  assert (Hz : (0 <= z < 10)%Z) by (unfold z; lia).
  clearbody z. clear H.
  split.
  - apply Qle_shift_div_l; [reflexivity|]. rewrite Qmult_0_l.
    change 0 with (inject_Z 0). rewrite <- Zle_Qle. lia.
  - apply Qle_shift_div_r; [reflexivity|]. rewrite Qmult_1_l.
    change 10 with (inject_Z 10). rewrite <- Zle_Qle. lia.
Qed.

Lemma convex_bounds (lo hi c : Q) :
  lo <= hi -> 0 <= c <= 1 -> lo <= lo + c * (hi - lo) <= hi.
Proof.
  intros Hle [H0 H1].
  assert (A : 0 <= c * (hi - lo)) by (apply Qmult_le_0_compat; lra).
  assert (B : 0 <= (1 - c) * (hi - lo)) by (apply Qmult_le_0_compat; lra).
  split; [lra|].
  assert (E : hi - (lo + c * (hi - lo)) == (1 - c) * (hi - lo)) by ring.
  lra.
Qed.

Lemma sample_oracles_optuna : optuna_contract sample_oracles.
Proof.
  split.
  - intros t k lo hi w z w'. cbn [suggest_int sample_oracles].
    destruct (Z.leb_spec lo hi) as [Hle|Hgt]; [|discriminate].
    intros H. injection H as <- _.
    pose proof (Z.mod_pos_bound (Z.of_nat t) (hi - lo + 1)). lia.
  - intros t k lo hi w q w'. cbn [suggest_float sample_oracles].
    destruct (Qle_bool lo hi) eqn:E; [|discriminate].
    apply Qle_bool_iff in E. intros H. injection H as <- _.
    apply convex_bounds; [exact E | apply tenth_bounds].
Qed.

Lemma sample_oracles_numpy : numpy_contract sample_oracles.
Proof.
  split.
  - intros lo hi w z w'. cbn [randint sample_oracles].
    destruct (Z.ltb_spec lo hi) as [Hlt|Hge]; [|discriminate].
    intros H. injection H as <- _.
    match goal with |- context [Z.of_nat ?x] => generalize (Z.of_nat x) end. intros m.
    pose proof (Z.mod_pos_bound m (hi - lo)). lia.
  - intros lo hi w Hle. cbn [uniform sample_oracles fst].
    apply convex_bounds; [exact Hle | apply tenth_bounds].
Qed.

Lemma bayesian_optimization_bounded_witness :
  exists res s' log fin,
    bayesian_optimization sample_service sample_oracles pair_task start_state = (Ok res, s')
    /\ calls s' = calls start_state ++ log ++ [fin]
    /\ bounded_calls (tp_parameter_ranges pair_task) log
    /\ Forall (fun t => bounded (tp_parameter_ranges pair_task) (trial_parameters t))
              (br_trial_history res)
    /\ (forall d, br_best_parameters res = Some d ->
                  bounded (tp_parameter_ranges pair_task) d).
Proof.
  assert (E : exists res s',
             bayesian_optimization sample_service sample_oracles pair_task start_state
             = (Ok res, s')).
  { eexists. eexists. vm_compute. reflexivity. }
  destruct E as [res [s' E]].
  destruct (bayesian_optimization_bounded nat sample_service sample_oracles
              sample_oracles_optuna pair_task start_state res s' E)
    as [log [fin H]].
  exists res, s', log, fin. split; [exact E | exact H].
Defined.

(** ** A logic of the engines: what a computation keeps and returns *)

Section Triples.

Variable world : Type.
Variable backtester : BacktestParams -> world -> BacktestResult * world.
Variable I : list (BacktestParams * BacktestResult) -> Prop.

Lemma triple_ret {A : Type} (a : A) (Q : A -> Prop) :
  Q a -> triple I (@ret world A a) Q.
Proof.
  intros H s Hs. cbn. split; [exact Hs|]. intros a' E. injection E as <-. exact H.
Qed.

Lemma triple_raise {A : Type} (e : exn) (Q : A -> Prop) :
  triple I (@raise world A e) Q.
Proof. intros s Hs. cbn. split; [exact Hs | discriminate]. Qed.

Lemma triple_of_result {A : Type} (r : result A) (Q : A -> Prop) :
  (forall a, r = Ok a -> Q a) -> triple I (@of_result world A r) Q.
Proof. intros H s Hs. cbn. split; [exact Hs | exact H]. Qed.

Lemma triple_keeps {A : Type} (c : M world A) (Q : A -> Prop) :
  keeps_calls c -> (forall s a, fst (c s) = Ok a -> Q a) -> triple I c Q.
Proof.
  intros Hk HQ s Hs. split; [rewrite (Hk s); exact Hs | apply HQ].
Qed.

Lemma triple_true {A : Type} (c : M world A) :
  keeps_calls c -> triple I c (fun _ => True).
Proof. intros Hk. apply triple_keeps; [exact Hk | trivial]. Qed.

Lemma triple_index {A : Type} (l : list A) (i : nat) :
  triple I (@index world A l i) (fun a => In a l).
Proof.
  apply triple_keeps; [apply keeps_index|].
  intros s a. unfold index. destruct (nth_error l i) as [x|] eqn:E; cbn; [|discriminate].
  intros H. injection H as <-. apply (nth_error_In _ _ E).
Qed.

Lemma triple_bind {A B : Type} (c : M world A) (k : A -> M world B)
    (P : A -> Prop) (Q : B -> Prop) :
  triple I c P -> (forall a, P a -> triple I (k a) Q) -> triple I (mbind c k) Q.
Proof.
  intros Hc Hk s Hs. unfold mbind. destruct (Hc s Hs) as [H1 H2].
  destruct (c s) as [[a|e] s1]; cbn [fst snd] in *.
  - apply (Hk a (H2 a eq_refl) s1 H1).
  - split; [exact H1 | discriminate].
Qed.

Lemma triple_foldM {A B : Type} (f : A -> B -> M world A) (l : list B) (P : A -> Prop) :
  (forall a b, In b l -> P a -> triple I (f a b) P) ->
  forall a, P a -> triple I (foldM f l a) P.
Proof.
  induction l as [|b l IH]; intros Hf a Ha; cbn [foldM].
  - apply triple_ret. exact Ha.
  - apply (triple_bind _ _ P); [apply Hf; [left; reflexivity | exact Ha]|].
    intros a' Ha'. apply IH; [|exact Ha'].
    intros a0 b0 Hin. apply Hf. right. exact Hin.
Qed.

Lemma triple_mapM {A B : Type} (f : A -> M world B) (l : list A) (Q : B -> Prop) :
  (forall a, In a l -> triple I (f a) Q) -> triple I (mapM f l) (Forall Q).
Proof.
  induction l as [|a l IH]; intros Hf; cbn [mapM].
  - apply triple_ret. constructor.
  - apply (triple_bind _ _ Q); [apply Hf; left; reflexivity|]. intros b Hb.
    apply (triple_bind _ _ (Forall Q)).
    + apply IH. intros a0 Hin. apply Hf. right. exact Hin.
    + intros bs Hbs. apply triple_ret. constructor; assumption.
Qed.

Lemma triple_backtest (bp : BacktestParams) :
  (forall log r, I log -> I (log ++ [(bp, r)])) ->
  triple I (backtest backtester bp) (fun _ => True).
Proof.
  intros H s Hs. unfold backtest, call_backtest.
  destruct (backtester bp (ext s)) as [r w]. cbn. split; [apply H; exact Hs | trivial].
Qed.

End Triples.

Lemma extends_within_snoc (ranges : list (string * ParamRange))
    (base log : list (BacktestParams * BacktestResult))
    (tp : TaskParams) (p : option dict) (sd ed : Z) (r : BacktestResult) :
  (forall d, p = Some d -> bounded ranges d) ->
  extends_within ranges base log ->
  extends_within ranges base (log ++ [(request tp p sd ed, r)]).
Proof.
  intros Hp [l [-> Hl]]. exists (l ++ [(request tp p sd ed, r)]).
  split; [symmetry; apply app_assoc|].
  apply Forall_app. split; [exact Hl|]. constructor; [|constructor].
  cbn [fst request bp_parameters]. exact Hp.
Qed.

Lemma bounded_put (ranges : list (string * ParamRange)) (d : dict)
    (k : string) (v : pval) :
  bounded ranges d -> (exists r, In (k, r) ranges /\ within r v) ->
  bounded ranges (dict_set k v d).
Proof.
  intros Hb [r [Hin Hw]]. apply (bounded_set ranges d k r v Hb Hin Hw).
Qed.

Section GeneticBounds.

Variable world : Type.
Variable backtester : BacktestParams -> world -> BacktestResult * world.
Variable L : Lib world.
Variable tp : TaskParams.
Variable base : list (BacktestParams * BacktestResult).

Hypothesis Hnumpy : numpy_contract L.
Hypothesis Hordered : Forall (fun nr => ordered_range (snd nr)) (tp_parameter_ranges tp).

Lemma random_value_triple (r : ParamRange) :
  ordered_range r ->
  triple (extends_within (tp_parameter_ranges tp) base) (random_value L r)
         (fun v => forall x, v = Some x -> within r x).
Proof.
  intros Hr. apply triple_keeps; [apply random_value_keeps|].
  intros s a E x ->. destruct Hnumpy as [Hint Hfl].
  apply (random_value_within world L r s (snd (random_value L r s)) x Hint Hfl).
  - exact Hr.
  - destruct (random_value L r s) as [a s']. cbn [fst snd] in *. now rewrite E.
Qed.

Lemma ordered_in (k : string) (r : ParamRange) :
  In (k, r) (tp_parameter_ranges tp) -> ordered_range r.
Proof.
  intros Hin. rewrite Forall_forall in Hordered. apply (Hordered (k, r) Hin).
Qed.

Lemma random_individual_triple :
  triple (extends_within (tp_parameter_ranges tp) base)
         (random_individual L (tp_parameter_ranges tp))
         (bounded (tp_parameter_ranges tp)).
Proof.
  unfold random_individual. apply triple_foldM; [|intros k v []].
  intros a [k r] Hin Ha. cbn [fst snd].
  apply (triple_bind _ _ _ _ _ _ (random_value_triple r (ordered_in k r Hin))).
  intros [x|] Hx; apply triple_ret; [|exact Ha].
  apply (bounded_set _ _ _ r); [exact Ha | exact Hin | apply Hx; reflexivity].
Qed.

Lemma mutate_triple (individual : dict) (rate : Q) :
  bounded (tp_parameter_ranges tp) individual ->
  triple (extends_within (tp_parameter_ranges tp) base)
         (mutate L individual (tp_parameter_ranges tp) rate)
         (bounded (tp_parameter_ranges tp)).
Proof.
  intros Hb. unfold mutate. apply triple_foldM; [|exact Hb].
  intros a [k r] Hin Ha. cbn [fst snd].
  apply (triple_bind _ _ _ _ (fun _ => True)); [apply triple_true, keeps_lift|].
  intros u _. destruct (Qltb u rate); [|apply triple_ret; exact Ha].
  apply (triple_bind _ _ _ _ _ _ (random_value_triple r (ordered_in k r Hin))).
  intros [x|] Hx; apply triple_ret; [|exact Ha].
  apply (bounded_set _ _ _ r); [exact Ha | exact Hin | apply Hx; reflexivity].
Qed.

Lemma crossover_triple (parent1 parent2 : dict) :
  bounded (tp_parameter_ranges tp) parent1 ->
  bounded (tp_parameter_ranges tp) parent2 ->
  triple (extends_within (tp_parameter_ranges tp) base)
         (crossover L parent1 parent2)
         (bounded (tp_parameter_ranges tp)).
Proof.
  intros H1 H2. unfold crossover. apply triple_foldM; [|intros k v []].
  intros a [k v] Hin Ha. cbn [fst snd].
  apply (triple_bind _ _ _ _ (fun _ => True)); [apply triple_true, keeps_lift|].
  intros u _. destruct (Qltb u (1#2)).
  - apply triple_ret. apply bounded_put; [exact Ha | apply H1; exact Hin].
  - destruct (dict_get k parent2) as [v2|] eqn:E; [|apply triple_raise].
    apply triple_ret. apply bounded_put; [exact Ha|]. apply H2.
    apply dict_get_in. exact E.
Qed.

Lemma tournament_selection_triple (population : list dict) (fitness_scores : list fl) :
  triple (extends_within (tp_parameter_ranges tp) base)
         (tournament_selection L population fitness_scores)
         (fun d => In d population).
Proof.
  unfold tournament_selection.
  apply (triple_bind _ _ _ _ (fun _ => True)); [apply triple_true, keeps_lift_r|].
  intros idx _.
  apply (triple_bind _ _ _ _ (fun _ => True)).
  { apply triple_true, keeps_mapM. intros i. apply keeps_index. }
  intros fit _.
  apply (triple_bind _ _ _ _ (fun _ => True)); [apply triple_true, keeps_index|].
  intros w _. apply triple_index.
Qed.

Lemma refill_triple (n : nat) (population : list dict) (fitness_scores : list fl) :
  Forall (bounded (tp_parameter_ranges tp)) population ->
  forall new_population,
    Forall (bounded (tp_parameter_ranges tp)) new_population ->
    triple (extends_within (tp_parameter_ranges tp) base)
           (refill L tp n population fitness_scores new_population)
           (Forall (bounded (tp_parameter_ranges tp))).
Proof.
  intros Hpop. rewrite Forall_forall in Hpop.
  induction n as [|n IH]; intros new_population Hnew; cbn [refill].
  - apply triple_ret. exact Hnew.
  - apply (triple_bind _ _ _ _ _ _ (tournament_selection_triple _ _)). intros p1 Hp1.
    apply (triple_bind _ _ _ _ _ _ (tournament_selection_triple _ _)). intros p2 Hp2.
    apply (triple_bind _ _ _ _ _ _ (crossover_triple p1 p2 (Hpop _ Hp1) (Hpop _ Hp2))).
    intros child Hc.
    apply (triple_bind _ _ _ _ _ _ (mutate_triple child (1#10) Hc)).
    intros child' Hc'. apply IH. apply Forall_app. split; [exact Hnew|].
    constructor; [exact Hc' | constructor].
Qed.

Lemma next_population_triple (population_size : nat) (population : list dict)
    (fitness_scores : list fl) :
  Forall (bounded (tp_parameter_ranges tp)) population ->
  triple (extends_within (tp_parameter_ranges tp) base)
         (next_population L tp population_size population fitness_scores)
         (Forall (bounded (tp_parameter_ranges tp))).
Proof.
  intros Hpop. unfold next_population.
  apply (triple_bind _ _ _ _ (Forall (fun d => In d population))).
  - apply triple_mapM. intros i _. apply triple_index.
  - intros elite He. apply refill_triple; [exact Hpop|].
    rewrite Forall_forall in Hpop. eapply Forall_impl; [|exact He]. exact Hpop.
Qed.

Lemma evaluate_individual_triple (acc : list fl * (option dict * fl)) (individual : dict) :
  bounded (tp_parameter_ranges tp) individual ->
  (forall d, fst (snd acc) = Some d -> bounded (tp_parameter_ranges tp) d) ->
  triple (extends_within (tp_parameter_ranges tp) base)
         (evaluate_individual backtester tp acc individual)
         (fun acc' => forall d, fst (snd acc') = Some d ->
                                bounded (tp_parameter_ranges tp) d).
Proof.
  intros Hi Hacc. destruct acc as [scores [bi bf]]. cbn [fst snd] in Hacc.
  unfold evaluate_individual.
  apply (triple_bind _ _ _ _ (fun _ => True)).
  - apply triple_backtest. intros log r. apply extends_within_snoc.
    intros d H. injection H as <-. exact Hi.
  - intros r _. apply triple_ret. cbn [fst snd].
    destruct (fl_gt (fitness_of tp r) bf); cbn [fst]; [|exact Hacc].
    intros d H. injection H as <-. exact Hi.
Qed.

Lemma generation_step_triple (population_size generations : nat) (st : GAState)
    (generation : nat) :
  Forall (bounded (tp_parameter_ranges tp)) (population st) ->
  (forall d, best_individual st = Some d -> bounded (tp_parameter_ranges tp) d) ->
  triple (extends_within (tp_parameter_ranges tp) base)
         (generation_step backtester L tp population_size generations st generation)
         (fun st' =>
            Forall (bounded (tp_parameter_ranges tp)) (population st')
            /\ forall d, best_individual st' = Some d ->
                         bounded (tp_parameter_ranges tp) d).
Proof.
  intros Hpop Hbest. unfold generation_step.
  apply (triple_bind _ _ _ _
           (fun acc => forall d, fst (snd acc) = Some d ->
                                 bounded (tp_parameter_ranges tp) d)).
  - apply triple_foldM; [|exact Hbest].
    intros a ind Hin Ha. apply evaluate_individual_triple; [|exact Ha].
    rewrite Forall_forall in Hpop. apply Hpop. exact Hin.
  - intros [scores [bi bf]] Hacc. cbn [fst snd] in Hacc.
    apply (triple_bind _ _ _ _ (fun _ => True));
      [apply triple_true, keeps_of_result|].
    intros stats _.
    apply (triple_bind _ _ _ _ (Forall (bounded (tp_parameter_ranges tp)))).
    + destruct (generation <? generations - 1)%nat.
      * apply next_population_triple. exact Hpop.
      * apply triple_ret. exact Hpop.
    + intros pop Hp. apply triple_ret. cbn [population best_individual].
      split; assumption.
Qed.

Lemma genetic_optimization_triple :
  triple (extends_within (tp_parameter_ranges tp) base)
         (genetic_optimization backtester L tp)
         (fun res => forall d, gr_best_parameters res = Some d ->
                               bounded (tp_parameter_ranges tp) d).
Proof.
  unfold genetic_optimization.
  apply (triple_bind _ _ _ _ (Forall (bounded (tp_parameter_ranges tp)))).
  { unfold initial_population. apply triple_mapM. intros i _.
    apply random_individual_triple. }
  intros pop Hpop.
  apply (triple_bind _ _ _ _
           (fun st => Forall (bounded (tp_parameter_ranges tp)) (population st)
                      /\ forall d, best_individual st = Some d ->
                                   bounded (tp_parameter_ranges tp) d)).
  { unfold run_generations. apply triple_foldM.
    - intros st g _ [H1 H2]. apply generation_step_triple; assumption.
    - cbn [ga_init population best_individual]. split; [exact Hpop | discriminate]. }
  intros st [_ Hbest].
  apply (triple_bind _ _ _ _ (fun _ => True)).
  { apply triple_backtest. intros log r. apply extends_within_snoc. exact Hbest. }
  intros fin _. apply triple_ret. cbn [gr_best_parameters]. exact Hbest.
Qed.

End GeneticBounds.

(** X17.  With draws that keep the contract of [numpy.random] on ranges
    whose bounds are in order, the genetic search never asks for a backtest
    with a value outside the declared bounds, whether it returns or raises,
    and the best parameters it returns lie within the bounds. *)
Theorem genetic_optimization_within_bounds (world : Type)
    (backtester : BacktestParams -> world -> BacktestResult * world)
    (L : Lib world) (tp : TaskParams) (s : St world) :
  numpy_contract L ->
  Forall (fun nr => ordered_range (snd nr)) (tp_parameter_ranges tp) ->
  (exists log,
     calls (snd (genetic_optimization backtester L tp s)) = calls s ++ log
     /\ calls_within (tp_parameter_ranges tp) log)
  /\ forall res, fst (genetic_optimization backtester L tp s) = Ok res ->
       forall d, gr_best_parameters res = Some d ->
                 bounded (tp_parameter_ranges tp) d.
Proof.
  intros Hnumpy Hordered.
  destruct (genetic_optimization_triple world backtester L tp (calls s) Hnumpy Hordered s)
    as [[log [Hlog Hw]] Hres].
  - exists []. split; [symmetry; apply app_nil_r | constructor].
  - split; [|exact Hres]. exists log. split; assumption.
Qed.

Lemma genetic_optimization_within_bounds_witness :
  (exists log,
     calls (snd (genetic_optimization sample_service sample_oracles pair_task start_state))
       = calls start_state ++ log
     /\ calls_within (tp_parameter_ranges pair_task) log)
  /\ forall res,
       fst (genetic_optimization sample_service sample_oracles pair_task start_state)
         = Ok res ->
       forall d, gr_best_parameters res = Some d ->
                 bounded (tp_parameter_ranges pair_task) d.
Proof.
  apply (genetic_optimization_within_bounds nat sample_service sample_oracles pair_task
           start_state sample_oracles_numpy).
  repeat (constructor; [cbn [ordered_range snd]; try exact I; try discriminate|]).
  constructor.
Defined.

(** ** The evaluations of the genetic search *)



Section GeneticEvaluations.

Variable world : Type.
Variable backtester : BacktestParams -> world -> BacktestResult * world.
Variable L : Lib world.
Variable tp : TaskParams.










End GeneticEvaluations.



(** ** Walk-forward analysis: the windows kept and the step *)

Section WalkForwardFacts.

Variable world : Type.
Variable backtester : BacktestParams -> world -> BacktestResult * world.

Lemma walk_loop_stalls (tp : TaskParams) (W end_date cur : Z) :
  (cur + W <= end_date)%Z ->
  forall fuel results s,
    walk_loop backtester fuel tp W 0 end_date cur results s = None.
Proof.
  intros H. induction fuel as [|fuel IH]; intros results s; cbn [walk_loop];
    [reflexivity|].
  destruct (Z.leb_spec (cur + W) end_date) as [_|Hgt]; [|lia].
  unfold call_backtest. destruct (backtester _ (ext s)) as [r w].
  rewrite Z.add_0_r. apply IH.
Qed.

(** X20.  With [step_size = 0] and a date range that holds one window, the
    walk-forward loop never leaves its [while]: whatever the number of
    passes allowed, the analysis has not returned. *)
Theorem walk_forward_zero_step_never_ends (tp : TaskParams) (s : St world) :
  let W := match tp_window_size tp with Some n => n | None => 90%Z end in
  tp_step_size tp = Some 0%Z ->
  (start_date_of tp + W <= end_date_of tp)%Z ->
  forall fuel, walk_forward_analysis backtester fuel tp s = None.
Proof.
  intros W Hstep Hfit fuel. unfold walk_forward_analysis. rewrite Hstep.
  apply walk_loop_stalls. exact Hfit.
Qed.

Lemma walk_loop_results (tp : TaskParams) (W stp end_date : Z) :
  forall fuel cur results s results' s',
    walk_loop backtester fuel tp W stp end_date cur results s = Some (results', s') ->
    exists log,
      calls s' = calls s ++ log
      /\ results' = results ++ map window_of (filter (fun c => is_success (snd c)) log)
      /\ Forall (fun c => bp_end_date (fst c) = (bp_start_date (fst c) + W)%Z
                          /\ (bp_end_date (fst c) <= end_date)%Z
                          /\ bp_parameters (fst c)
                             = Some (match tp_parameters tp with
                                     | Some d => d
                                     | None => []
                                     end)) log.
Proof.
  induction fuel as [|fuel IH]; intros cur results s results' s'; cbn [walk_loop];
    [discriminate|].
  destruct (Z.leb_spec (cur + W) end_date) as [Hle|Hgt].
  - unfold call_backtest. destruct (backtester _ (ext s)) as [r w] eqn:Er.
    intros H. apply IH in H. destruct H as [log [Hc [Hr Hw]]].
    cbn [calls] in Hc. rewrite <- app_assoc in Hc. cbn [app] in Hc.
    eexists. split; [exact Hc|]. split.
    + rewrite Hr. cbn [filter snd]. destruct (is_success r).
      * rewrite <- app_assoc. reflexivity.
      * reflexivity.
    + constructor; [|exact Hw]. cbn [fst request bp_end_date bp_start_date bp_parameters].
      split; [reflexivity|]. split; [exact Hle | reflexivity].
  - intros H. injection H as <- <-. exists [].
    split; [symmetry; apply app_nil_r|]. split; [|constructor].
    cbn [filter map]. symmetry. apply app_nil_r.
Qed.

(** X21.  The windows the analysis reports are the successful backtests
    of its loop, in the order of the calls and with their dates; a window
    whose backtest fails is dropped without a trace.  Every call covers
    [window_size] days ending within the date range and carries the base
    parameters ([{}] when the task gives none). *)
Theorem walk_forward_reports_successes (fuel : nat) (tp : TaskParams) (s : St world)
    (results : list WindowResult) (s' : St world) :
  let W := match tp_window_size tp with Some n => n | None => 90%Z end in
  walk_forward_analysis backtester fuel tp s = Some (results, s') ->
  exists log,
    calls s' = calls s ++ log
    /\ results = map window_of (filter (fun c => is_success (snd c)) log)
    /\ Forall (fun c => bp_end_date (fst c) = (bp_start_date (fst c) + W)%Z
                        /\ (bp_end_date (fst c) <= end_date_of tp)%Z
                        /\ bp_parameters (fst c)
                           = Some (match tp_parameters tp with
                                   | Some d => d
                                   | None => []
                                   end)) log.
Proof.
  intros W H. unfold walk_forward_analysis in H. apply walk_loop_results in H.
  exact H.
Qed.

End WalkForwardFacts.

Lemma walk_forward_zero_step_never_ends_witness :
  walk_forward_analysis sample_service 1000 stalled_task start_state = None.
Proof.
  apply (walk_forward_zero_step_never_ends nat sample_service stalled_task start_state).
  - reflexivity.
  - vm_compute. discriminate.
Defined.

Lemma walk_forward_reports_successes_witness :
  exists results s' log,
    walk_forward_analysis sample_service 20 ma_task start_state = Some (results, s')
    /\ calls s' = calls start_state ++ log
    /\ results = map window_of (filter (fun c => is_success (snd c)) log).
Proof.
  assert (E : exists results s',
             walk_forward_analysis sample_service 20 ma_task start_state
             = Some (results, s')).
  { eexists. eexists. vm_compute. reflexivity. }
  destruct E as [results [s' E]].
  destruct (walk_forward_reports_successes nat sample_service 20 ma_task start_state
              results s' E) as [log [Hc [Hr _]]].
  exists results, s', log. split; [exact E|]. split; [exact Hc | exact Hr].
Defined.

(** ** The robustness score *)

Lemma py_min_glb (a b c : Q) : c <= a -> c <= b -> c <= py_min a b.
Proof. intros Ha Hb. unfold py_min. destruct (Qltb b a); assumption. Qed.

(** X22.  The robustness score is at most 100, and it is not negative
    when the win rate of the statistics is not negative. *)
Theorem robustness_score_range (stats : list (string * Q)) :
  calculate_robustness_score stats <= 100
  /\ (0 <= stats_get stats "win_rate" 0 -> 0 <= calculate_robustness_score stats).
Proof.
  destruct stats as [|kv stats']; [split; [|intros _]; discriminate|].
  set (stats := kv :: stats'). unfold calculate_robustness_score. fold stats.
  cbv zeta.
  set (wr := stats_get stats "win_rate" 0).
  set (std := stats_get stats "sharpe_std" 1).
  set (sc := py_max 0 (1 - std / py_max (Qabs (stats_get stats "average_sharpe" 0)) (1#10))).
  set (dd := py_max 0 (1 - stats_get stats "max_drawdown" 1)).
  set (ar := stats_get stats "average_return" 0).
  split; [apply py_min_le|]. intros Hwr.
  assert (Hw : 0 <= py_min (wr * 30) 30) by (apply py_min_glb; lra).
  assert (Hsc : 0 <= sc) by apply py_max_ge.
  assert (Hdd : 0 <= dd) by apply py_max_ge.
  apply py_min_glb; [|lra].
  destruct (Qltb 0 std); destruct (Qltb 0 ar) eqn:Ear.
  - apply Qltb_lt in Ear.
    assert (Hr : 0 <= py_min (ar * 100) 20) by (apply py_min_glb; lra). nra.
  - nra.
  - apply Qltb_lt in Ear.
    assert (Hr : 0 <= py_min (ar * 100) 20) by (apply py_min_glb; lra). nra.
  - nra.
Qed.

(** X23.  Statistics whose Sharpe ratios have no dispersion
    ([sharpe_std = 0], the steadiest case) earn none of the 25 points of
    Sharpe consistency: with a drawdown that is not negative the score is
    at most 75. *)
Theorem robustness_score_without_dispersion (stats : list (string * Q)) :
  stats_get stats "sharpe_std" 1 <= 0 ->
  0 <= stats_get stats "max_drawdown" 1 ->
  calculate_robustness_score stats <= 75.
Proof.
  intros Hstd Hmd. destruct stats as [|kv stats']; [discriminate|].
  set (stats := kv :: stats') in *. unfold calculate_robustness_score. fold stats.
  cbv zeta.
  apply Qltb_ge in Hstd. rewrite Hstd.
  set (wr := stats_get stats "win_rate" 0).
  set (md := stats_get stats "max_drawdown" 1) in *.
  set (ar := stats_get stats "average_return" 0).
  assert (Hw : py_min (wr * 30) 30 <= 30) by apply py_min_le.
  assert (Hdd : py_max 0 (1 - md) <= 1).
  { unfold py_max. destruct (Qltb 0 (1 - md)); lra. }
  eapply Qle_trans; [apply (proj1 (py_min_le _ _))|].
  destruct (Qltb 0 ar).
  - assert (Hr : py_min (ar * 100) 20 <= 20) by apply py_min_le. lra.
  - lra.
Qed.

Lemma robustness_score_range_witness :
  calculate_robustness_score steady_stats <= 100
  /\ 0 <= calculate_robustness_score steady_stats.
Proof.
  destruct (robustness_score_range steady_stats) as [H1 H2].
  split; [exact H1|]. apply H2. vm_compute. discriminate.
Defined.

Lemma robustness_score_without_dispersion_witness :
  calculate_robustness_score steady_stats <= 75.
Proof.
  apply (robustness_score_without_dispersion steady_stats); vm_compute; discriminate.
Defined.

(** ** The analysis of the trades *)

Lemma filter_map_comm {A B : Type} (f : A -> B) (p : B -> bool) (l : list A) :
  filter p (map f l) = map f (filter (fun a => p (f a)) l).
Proof.
  induction l as [|a l IH]; cbn [map filter]; [reflexivity|].
  destruct (p (f a)); cbn [map]; now rewrite IH.
Qed.

Lemma Qsum_negative (l : list Q) :
  Forall (fun x => x < 0) l -> Qsum l <= 0 /\ (l <> [] -> Qsum l < 0).
Proof.
  induction 1 as [|x l Hx Hl [IH _]].
  - split; [discriminate | contradiction].
  - pose proof (Qsum_cons x l) as E. split; [|intros _]; lra.
Qed.

Lemma losing_pnl_negative (trades : list Trade) :
  Forall (fun x => x < 0) (map pnl (losing_trades trades)).
Proof.
  unfold losing_trades. apply Forall_forall. intros x Hin.
  apply in_map_iff in Hin. destruct Hin as [t [<- Ht]].
  apply filter_In in Ht. destruct Ht as [_ Ht]. apply Qltb_lt. exact Ht.
Qed.

Lemma calculate_metrics_averages (X : Extern) (trades : list Trade)
    (equity_curve : list Q) (initial_capital : Q) (kv : list (string * fl)) :
  trades <> [] ->
  calculate_metrics X trades equity_curve initial_capital = MetricsDict kv ->
  dict_get "average_win" kv = Some (Fin (mean_or_0 (map pnl (winning_trades trades))))
  /\ dict_get "average_loss" kv
     = Some (Fin (mean_or_0 (map pnl (losing_trades trades)))).
Proof.
  intros Hne. destruct trades as [|t0 ts]; [contradiction|].
  unfold calculate_metrics, calculate_metrics_body.
  destruct (py_div (last equity_curve initial_capital - initial_capital) initial_capital)
    as [r|e]; cbn [bind]; [|discriminate].
  destruct equity_curve as [|v ec]; cbn [bind]; [discriminate|].
  destruct (drawdown_loop (v :: ec) v 0) as [d|e]; cbn [bind]; [|discriminate].
  intros H. injection H as <-. split; reflexivity.
Qed.

(** The dict of the analysis, with the profit factor worked out. *)
Lemma analyze_trades_dict (trades : list Trade) :
  trades <> [] ->
  exists ta,
    analyze_trades trades = Ok (TradeAnalysisDict ta)
    /\ dict_get "total_trades" ta = Some (Fin (of_nat (length trades)))
    /\ dict_get "winning_trades" ta
       = Some (Fin (of_nat (length (winning_trades trades))))
    /\ dict_get "losing_trades" ta
       = Some (Fin (of_nat (length (losing_trades trades))))
    /\ dict_get "win_rate" ta
       = Some (Fin (of_nat (length (winning_trades trades)) / of_nat (length trades)))
    /\ dict_get "average_win" ta
       = Some (Fin (mean_or_0 (map pnl (winning_trades trades))))
    /\ dict_get "average_loss" ta
       = Some (Fin (mean_or_0 (map pnl (losing_trades trades))))
    /\ dict_get "profit_factor" ta = Some (profit_factor trades).
Proof.
  intros Hne. unfold analyze_trades. destruct trades as [|t0 ts]; [contradiction|].
  rewrite !filter_map_comm.
  change (filter (fun a => Qltb 0 (pnl a)) (t0 :: ts)) with (winning_trades (t0 :: ts)).
  change (filter (fun a => Qltb (pnl a) 0) (t0 :: ts)) with (losing_trades (t0 :: ts)).
  unfold profit_factor, gross_loss, gross_profit.
  pose proof (Qsum_negative _ (losing_pnl_negative (t0 :: ts))) as [_ Hneg].
  rewrite !length_map.
  generalize dependent (winning_trades (t0 :: ts)). intros wins.
  generalize dependent (losing_trades (t0 :: ts)). intros losses Hneg.
  generalize (t0 :: ts). intros trades.
  destruct (map pnl losses) as [|p ps] eqn:El.
  - cbn [bind]. eexists. split; [reflexivity|]. repeat split; reflexivity.
  - assert (Hlt : Qsum (p :: ps) < 0) by (apply Hneg; discriminate).
    assert (Hpos : 0 < Qabs (Qsum (p :: ps))).
    { rewrite Qabs_neg; [lra | apply Qlt_le_weak; exact Hlt]. }
    unfold py_div.
    assert (E0 : Qeq_bool (Qabs (Qsum (p :: ps))) 0 = false).
    { destruct (Qeq_bool (Qabs (Qsum (p :: ps))) 0) eqn:E; [|reflexivity].
      apply Qeq_bool_iff in E. lra. }
    rewrite E0. cbn [bind].
    assert (E1 : Qltb 0 (Qabs (Qsum (p :: ps))) = true) by (apply Qltb_lt; exact Hpos).
    rewrite E1.
    eexists. split; [reflexivity|]. repeat split; reflexivity.
Qed.

(** X24.  The trade analysis of the optimizer and the metrics of the
    backtest agree on the same trades: the counts, the win rate, the
    average win and loss and the profit factor are the same values, and the
    division of the profit factor never raises: a non-empty list of losses
    has a negative sum. *)
Theorem analyze_trades_matches_metrics (X : Extern) (trades : list Trade)
    (equity_curve : list Q) (initial_capital : Q) (kv : list (string * fl)) :
  trades <> [] ->
  calculate_metrics X trades equity_curve initial_capital = MetricsDict kv ->
  exists ta,
    analyze_trades trades = Ok (TradeAnalysisDict ta)
    /\ forall key,
         In key [ "total_trades"; "winning_trades"; "losing_trades"; "win_rate";
                  "average_win"; "average_loss"; "profit_factor" ]%string ->
         dict_get key ta = dict_get key kv.
Proof.
  intros Hne Hm.
  destruct (calculate_metrics_dict X trades equity_curve initial_capital kv Hne Hm)
    as [d [_ [_ [M1 [M2 [M3 [_ [M4 [M5 _]]]]]]]]].
  destruct (calculate_metrics_averages X trades equity_curve initial_capital kv Hne Hm)
    as [M6 M7].
  destruct (analyze_trades_dict trades Hne)
    as [ta [E [A1 [A2 [A3 [A4 [A5 [A6 A7]]]]]]]].
  exists ta. split; [exact E|].
  intros key Hin. cbn [In] in Hin.
  destruct Hin as [<-|[<-|[<-|[<-|[<-|[<-|[<-|[]]]]]]]]; congruence.
Qed.

Lemma analyze_trades_matches_metrics_witness :
  exists ta kv,
    calculate_metrics sample_lib [winning_trade; losing_trade] [1000; 1010; 1005] 1000
      = MetricsDict kv
    /\ analyze_trades [winning_trade; losing_trade] = Ok (TradeAnalysisDict ta)
    /\ dict_get "profit_factor" ta = dict_get "profit_factor" kv.
Proof.
  destruct (analyze_trades_matches_metrics sample_lib [winning_trade; losing_trade]
              [1000; 1010; 1005] 1000 _ ltac:(discriminate) eq_refl)
    as [ta [E H]].
  exists ta. eexists. split; [reflexivity|]. split; [exact E|].
  apply H. cbn [In]. tauto.
Defined.

(** ** The analysis of the drawdowns *)

Lemma cumulative_equity_running (trades : list Trade) :
  cumulative_equity trades = 0 :: running_pnl 0 trades.
Proof.
  unfold cumulative_equity.
  assert (H : forall c curve,
             snd (fold_left (fun (acc : Q * list Q) (trade : Trade) =>
                               (fst acc + pnl trade, snd acc ++ [fst acc + pnl trade]))
                            trades (c, curve))
             = curve ++ running_pnl c trades).
  { induction trades as [|t ts IH]; intros c curve; cbn [fold_left running_pnl fst snd].
    - symmetry. apply app_nil_r.
    - rewrite IH, <- app_assoc. reflexivity. }
  apply (H 0 [0]).
Qed.

Lemma scan_step_invariant (st : DrawdownScan) (value : Q) :
  scan_invariant st -> scan_invariant (drawdown_scan_step st value).
Proof.
  intros [Hc Hd]. unfold drawdown_scan_step, scan_invariant.
  destruct (Qltb (ds_peak st) value) eqn:E; cbn [ds_current_drawdown ds_drawdowns].
  - split; [apply Qle_refl|].
    destruct (Qltb (ds_current_drawdown st) 0) eqn:E1; [|exact Hd].
    apply Qltb_lt in E1. apply Forall_app. split; [exact Hd|].
    constructor; [|constructor]. rewrite Qabs_neg; lra.
  - apply Qltb_ge in E. split; [lra | exact Hd].
Qed.

Lemma scan_fold_invariant (values : list Q) :
  forall st, scan_invariant st -> scan_invariant (fold_left drawdown_scan_step values st).
Proof.
  induction values as [|v l IH]; intros st H; cbn [fold_left]; [exact H|].
  apply IH, scan_step_invariant, H.
Qed.

(** The scan with its closing step: the depths are positive, and a
    drawdown still open at the end is the last depth recorded. *)
Lemma drawdown_scan_depths (equity_curve : list Q) :
  let st := drawdown_scan equity_curve in
  Forall (fun d => 0 < d) (ds_drawdowns st)
  /\ ds_current_drawdown st <= 0
  /\ (ds_current_drawdown st < 0 ->
      In (Qabs (ds_current_drawdown st)) (ds_drawdowns st)).
Proof.
  unfold drawdown_scan.
  set (st0 := {| ds_peak := hd 0 equity_curve; ds_drawdowns := [];
                 ds_current_drawdown := 0 |}).
  destruct (scan_fold_invariant equity_curve st0) as [Hc Hd].
  { split; [apply Qle_refl | constructor]. }
  cbn [ds_drawdowns ds_current_drawdown].
  set (st := fold_left drawdown_scan_step equity_curve st0) in *.
  destruct (Qltb (ds_current_drawdown st) 0) eqn:E.
  - apply Qltb_lt in E. split; [|split; [exact Hc|]].
    + apply Forall_app. split; [exact Hd|]. constructor; [|constructor].
      rewrite Qabs_neg; lra.
    + intros _. apply in_or_app. right. left. reflexivity.
  - apply Qltb_ge in E. split; [exact Hd|]. split; [exact Hc|]. intros H. lra.
Qed.

(** The fields of the analysis, read off the scan. *)
Lemma analyze_drawdowns_fields (trades : list Trade) (da : DrawdownAnalysis) :
  analyze_drawdowns trades = Some da ->
  let st := drawdown_scan (cumulative_equity trades) in
  let max_of := match ds_drawdowns st with [] => 0 | d :: ds => max_list d ds end in
  da_max_drawdown da = max_of
  /\ da_average_drawdown da = mean_or_0 (ds_drawdowns st)
  /\ da_drawdown_periods da = length (ds_drawdowns st)
  /\ da_current_drawdown da = Qabs (ds_current_drawdown st)
  /\ da_recovery_factor da
     = match ds_drawdowns st with
       | [] => 0
       | _ :: _ => if Qltb 0 max_of then last (cumulative_equity trades) 0 / max_of else 0
       end.
Proof.
  unfold analyze_drawdowns. destruct trades as [|t0 ts]; [discriminate|].
  intros H. injection H as <-. repeat split; reflexivity.
Qed.

(** X25.  Whatever the trades, the analysis reports depths that make
    sense together: the current drawdown lies between 0 and the maximum
    drawdown, and a positive maximum is reported exactly when a drawdown
    period is counted. *)
Theorem analyze_drawdowns_depths (trades : list Trade) (da : DrawdownAnalysis) :
  analyze_drawdowns trades = Some da ->
  0 <= da_current_drawdown da
  /\ da_current_drawdown da <= da_max_drawdown da
  /\ (da_drawdown_periods da = 0%nat -> da_max_drawdown da = 0)
  /\ ((0 < da_drawdown_periods da)%nat -> 0 < da_max_drawdown da).
Proof.
  intros H. apply analyze_drawdowns_fields in H. cbv zeta in H.
  destruct H as [Em [_ [Ep [Ec _]]]]. rewrite Em, Ep, Ec. clear Em Ep Ec.
  destruct (drawdown_scan_depths (cumulative_equity trades)) as [Hd [Hc Hin]].
  set (st := drawdown_scan (cumulative_equity trades)) in *.
  split; [apply Qabs_nonneg|].
  destruct (ds_drawdowns st) as [|d ds] eqn:E.
  - split; [|split; [reflexivity | cbn; lia]].
    destruct (Qlt_le_dec (ds_current_drawdown st) 0) as [Hlt|Hge].
    + destruct (Hin Hlt).
    + rewrite Qabs_pos; [exact Hc | exact Hge].
  - destruct (max_list_bound ds d) as [_ Hmax].
    assert (Hpos : 0 < max_list d ds).
    { apply Qlt_le_trans with d; [inversion Hd; assumption|].
      apply Hmax. left. reflexivity. }
    split; [|split; [cbn; discriminate | intros _; exact Hpos]].
    destruct (Qlt_le_dec (ds_current_drawdown st) 0) as [Hlt|Hge].
    + apply Hmax. apply Hin. exact Hlt.
    + rewrite Qabs_pos; [|exact Hge]. lra.
Qed.

Lemma rising_running (c : Q) (trades : list Trade) :
  Forall (fun t => 0 <= pnl t) trades -> rising c (running_pnl c trades).
Proof.
  intros H. revert c. induction H as [|t ts Ht _ IH]; intros c; cbn [running_pnl rising].
  - exact I.
  - split; [lra | apply IH].
Qed.

(** On a curve that never falls the scan records nothing. *)
Lemma scan_rising (values : list Q) :
  forall prev st,
    rising prev values ->
    ds_drawdowns st = [] -> ds_current_drawdown st == 0 -> ds_peak st == prev ->
    ds_drawdowns (fold_left drawdown_scan_step values st) = []
    /\ ds_current_drawdown (fold_left drawdown_scan_step values st) == 0.
Proof.
  induction values as [|v l IH]; intros prev st Hr Hd Hc Hp; cbn [fold_left].
  - split; assumption.
  - destruct Hr as [Hle Hr]. apply (IH v); [exact Hr| | |];
      unfold drawdown_scan_step;
      destruct (Qltb (ds_peak st) v) eqn:E;
      cbn [ds_drawdowns ds_current_drawdown ds_peak].
    + assert (E1 : Qltb (ds_current_drawdown st) 0 = false) by (apply Qltb_ge; lra).
      rewrite E1. exact Hd.
    + exact Hd.
    + reflexivity.
    + apply Qltb_ge in E. lra.
    + reflexivity.
    + apply Qltb_ge in E. lra.
Qed.

(** X26.  Trades that never lose leave no drawdown: no period is
    counted, and the maximum, the current drawdown and the recovery factor
    are all zero. *)
Theorem analyze_drawdowns_no_loss (trades : list Trade) (da : DrawdownAnalysis) :
  Forall (fun t => 0 <= pnl t) trades ->
  analyze_drawdowns trades = Some da ->
  da_drawdown_periods da = 0%nat
  /\ da_max_drawdown da = 0
  /\ da_average_drawdown da = 0
  /\ da_recovery_factor da = 0
  /\ da_current_drawdown da == 0.
Proof.
  intros Hpnl H. apply analyze_drawdowns_fields in H. cbv zeta in H.
  destruct H as [Em [Ea [Ep [Ec Er]]]]. rewrite Em, Ea, Ep, Ec, Er.
  clear Em Ea Ep Ec Er.
  rewrite cumulative_equity_running. unfold drawdown_scan. cbn [hd].
  set (st0 := {| ds_peak := 0; ds_drawdowns := []; ds_current_drawdown := 0 |}).
  destruct (scan_rising (0 :: running_pnl 0 trades) 0 st0) as [Hd Hc].
  { cbn [rising]. split; [apply Qle_refl | apply rising_running; exact Hpnl]. }
  { reflexivity. } { reflexivity. } { reflexivity. }
  set (st := fold_left drawdown_scan_step (0 :: running_pnl 0 trades) st0) in *.
  cbn [ds_drawdowns ds_current_drawdown].
  assert (E : Qltb (ds_current_drawdown st) 0 = false) by (apply Qltb_ge; lra).
  rewrite E, Hd. cbn [length mean_or_0].
  repeat split; try reflexivity.
  rewrite Hc. reflexivity.
Qed.




Lemma analyze_drawdowns_depths_witness :
  exists da,
    analyze_drawdowns [losing_trade; winning_trade; losing_trade] = Some da
    /\ da_current_drawdown da <= da_max_drawdown da.
Proof.
  eexists. split; [reflexivity|].
  apply (analyze_drawdowns_depths [losing_trade; winning_trade; losing_trade]).
  reflexivity.
Defined.

Lemma analyze_drawdowns_no_loss_witness :
  exists da,
    analyze_drawdowns [winning_trade; flat_trade; winning_trade] = Some da
    /\ da_drawdown_periods da = 0%nat
    /\ da_max_drawdown da = 0.
Proof.
  assert (E : exists da,
             analyze_drawdowns [winning_trade; flat_trade; winning_trade] = Some da).
  { eexists. reflexivity. }
  destruct E as [da E]. exists da. split; [exact E|].
  destruct (analyze_drawdowns_no_loss [winning_trade; flat_trade; winning_trade] da)
    as [H1 [H2 _]].
  - repeat constructor; vm_compute; discriminate.
  - exact E.
  - split; [exact H1 | exact H2].
Defined.


(** ** The entry point of the optimizer *)

Section Requests.

Variable world : Type.
Variable backtester : BacktestParams -> world -> BacktestResult * world.
Variable L : Lib world.
Variable base : list (BacktestParams * BacktestResult).

Lemma triple_catch {A : Type} (I : list (BacktestParams * BacktestResult) -> Prop)
    (c : M world A) (h : exn -> M world A) (Q : A -> Prop) :
  triple I c Q -> (forall e, triple I (h e) Q) -> triple I (catch c h) Q.
Proof.
  intros Hc Hh s Hs. unfold catch. destruct (Hc s Hs) as [H1 H2].
  destruct (c s) as [[a|e] s1]; cbn [fst snd] in *.
  - split; [exact H1 | exact H2].
  - apply (Hh e s1 H1).
Qed.

Lemma extends_with_snoc (tp : TaskParams) (p : option dict)
    (log : list (BacktestParams * BacktestResult)) (r : BacktestResult) :
  extends_with (asks_for tp) base log ->
  extends_with (asks_for tp) base
    (log ++ [(request tp p (start_date_of tp) (end_date_of tp), r)]).
Proof.
  intros [l [-> Hl]]. eexists. split; [symmetry; apply app_assoc|].
  apply Forall_app. split; [exact Hl|]. constructor; [|constructor].
  exists p. reflexivity.
Qed.

Lemma backtest_asks (tp : TaskParams) (p : option dict) :
  triple (extends_with (asks_for tp) base)
         (backtest backtester (request tp p (start_date_of tp) (end_date_of tp)))
         (fun _ => True).
Proof. apply triple_backtest. intros log r. apply extends_with_snoc. Qed.

Lemma parameter_sweep_asks (tp : TaskParams) :
  triple (extends_with (asks_for tp) base) (parameter_sweep backtester tp)
         (fun _ => True).
Proof.
  unfold parameter_sweep.
  apply (triple_bind _ _ _ _ (fun _ => True)); [apply triple_true, keeps_of_result|].
  intros combos _.
  apply (triple_bind _ _ _ _ (fun _ => True)).
  - apply triple_foldM; [|exact I]. intros st params _ _. unfold sweep_step.
    apply (triple_bind _ _ _ _ (fun _ => True)); [apply backtest_asks|].
    intros r _. destruct (is_success r); apply triple_ret; exact I.
  - intros st _.
    apply (triple_bind _ _ _ _ (fun _ => True)); [apply backtest_asks|].
    intros r _. apply triple_ret. exact I.
Qed.

Lemma bayesian_optimization_asks (tp : TaskParams) :
  triple (extends_with (asks_for tp) base) (bayesian_optimization backtester L tp)
         (fun _ => True).
Proof.
  unfold bayesian_optimization.
  apply (triple_bind _ _ _ _ (fun _ => True)); [apply triple_true, keeps_lift|].
  intros _ _.
  apply (triple_bind _ _ _ _ (fun _ => True)).
  - apply triple_foldM; [|exact I]. intros st i _ _. unfold trial_step.
    apply (triple_bind _ _ _ _ (fun _ => True)); [apply triple_true, keeps_lift|].
    intros trial _. apply triple_catch.
    + apply (triple_bind _ _ _ _ (fun _ => True)).
      * unfold objective_function.
        apply (triple_bind _ _ _ _ (fun _ => True));
          [apply triple_true, suggest_params_keeps|].
        intros params _.
        apply (triple_bind _ _ _ _ (fun _ => True)); [apply backtest_asks|].
        intros r _. destruct (negb (is_success r)); apply triple_ret; exact I.
      * intros [params value] _.
        apply (triple_bind _ _ _ _ (fun _ => True)); [apply triple_true, keeps_lift|].
        intros _ _. apply triple_ret. exact I.
    + intros e.
      apply (triple_bind _ _ _ _ (fun _ => True)); [apply triple_true, keeps_lift|].
      intros _ _. apply triple_ret. exact I.
  - intros st _.
    apply (triple_bind _ _ _ _ (fun _ => True)); [apply backtest_asks|].
    intros r _. apply triple_ret. exact I.
Qed.

Lemma genetic_optimization_asks (tp : TaskParams) :
  triple (extends_with (asks_for tp) base) (genetic_optimization backtester L tp)
         (fun _ => True).
Proof.
  unfold genetic_optimization.
  apply (triple_bind _ _ _ _ (fun _ => True));
    [apply triple_true, initial_population_keeps|].
  intros pop _.
  apply (triple_bind _ _ _ _ (fun _ => True)).
  - unfold run_generations. apply triple_foldM; [|exact I].
    intros st g _ _. unfold generation_step.
    apply (triple_bind _ _ _ _ (fun _ => True)).
    + apply triple_foldM; [|exact I]. intros [scores [bi bf]] ind _ _.
      unfold evaluate_individual.
      apply (triple_bind _ _ _ _ (fun _ => True)); [apply backtest_asks|].
      intros r _. apply triple_ret. exact I.
    + intros [scores [bi bf]] _.
      apply (triple_bind _ _ _ _ (fun _ => True));
        [apply triple_true, keeps_of_result|].
      intros stats _.
      apply (triple_bind _ _ _ _ (fun _ => True)).
      * destruct (g <? _)%nat; [apply triple_true, next_population_keeps|].
        apply triple_ret. exact I.
      * intros pop' _. apply triple_ret. exact I.
  - intros st _.
    apply (triple_bind _ _ _ _ (fun _ => True)); [apply backtest_asks|].
    intros r _. apply triple_ret. exact I.
Qed.

End Requests.

Section EntryPoint.

Variable world : Type.
Variable backtester : BacktestParams -> world -> BacktestResult * world.
Variable L : Lib world.

Lemma with_log {A : Type} (tp : TaskParams) (c : M world A) (s : St world) :
  triple (extends_with (asks_for tp) (calls s)) c (fun _ => True) ->
  exists log, calls (snd (c s)) = calls s ++ log /\ Forall (asks_for tp) log.
Proof.
  intros T. destruct (T s) as [H _]; [|exact H].
  exists []. split; [symmetry; apply app_nil_r | constructor].
Qed.

Lemma asks_for_default (tp : TaskParams) (name : string)
    (c : BacktestParams * BacktestResult) :
  tp_start_date tp = None -> tp_end_date tp = None -> tp_strategy_name tp = name ->
  asks_for tp c ->
  bp_start_date (fst c) = 19358%Z
  /\ bp_end_date (fst c) = 19723%Z
  /\ Some (bp_strategy_name (fst c)) = Some name.
Proof.
  intros Hs He Hn [p ->]. unfold start_date_of, end_date_of. rewrite Hs, He.
  cbn [request bp_start_date bp_end_date bp_strategy_name]. rewrite Hn. repeat split.
Qed.

(** X28.  The entry point hands the engines the strategy, the symbol, the
    ranges and the objective only: whatever [start_date] and [end_date] the
    task carries, every backtest of an optimization is asked for the
    strategy of the task on the default range, 2023-01-01 to 2024-01-01,
    whether the optimization returns or raises. *)
Theorem optimize_strategy_ignores_dates (op : OptimizeParams) (s : St world) :
  exists log,
    calls (snd (optimize_strategy backtester L op s)) = calls s ++ log
    /\ Forall (fun c => bp_start_date (fst c) = 19358%Z
                        /\ bp_end_date (fst c) = 19723%Z
                        /\ Some (bp_strategy_name (fst c)) = op_strategy_name op) log.
Proof.
  unfold optimize_strategy.
  destruct (op_strategy_name op) as [name|] eqn:En.
  2:{ exists []. split; [symmetry; apply app_nil_r | constructor]. }
  destruct (String.eqb name "").
  { exists []. split; [symmetry; apply app_nil_r | constructor]. }
  set (method := match op_method op with Some m => m | None => "bayesian"%string end).
  destruct (String.eqb method "bayesian");
    [|destruct (String.eqb method "genetic");
      [|destruct (String.eqb method "grid_search")]].
  - match goal with |- context [bayesian_optimization _ _ ?t] => set (tp := t) end.
    match goal with |- context [snd (?c s)] => destruct (with_log tp c s)
      as [log [Hlog Hall]] end.
    + apply (triple_bind _ _ _ _ (fun _ => True)).
      * apply (triple_bind _ _ _ _ (fun _ => True));
          [apply bayesian_optimization_asks|].
        intros r _. apply triple_ret. exact I.
      * intros r _. apply triple_ret. exact I.
    + exists log. split; [exact Hlog|]. eapply Forall_impl; [|exact Hall].
      intros c. apply asks_for_default; reflexivity.
  - match goal with |- context [genetic_optimization _ _ ?t] => set (tp := t) end.
    match goal with |- context [snd (?c s)] => destruct (with_log tp c s)
      as [log [Hlog Hall]] end.
    + apply (triple_bind _ _ _ _ (fun _ => True)).
      * apply (triple_bind _ _ _ _ (fun _ => True));
          [apply genetic_optimization_asks|].
        intros r _. apply triple_ret. exact I.
      * intros r _. apply triple_ret. exact I.
    + exists log. split; [exact Hlog|]. eapply Forall_impl; [|exact Hall].
      intros c. apply asks_for_default; reflexivity.
  - match goal with |- context [parameter_sweep _ ?t] => set (tp := t) end.
    match goal with |- context [snd (?c s)] => destruct (with_log tp c s)
      as [log [Hlog Hall]] end.
    + apply (triple_bind _ _ _ _ (fun _ => True)).
      * apply (triple_bind _ _ _ _ (fun _ => True));
          [apply parameter_sweep_asks|].
        intros r _. apply triple_ret. exact I.
      * intros r _. apply triple_ret. exact I.
    + exists log. split; [exact Hlog|]. eapply Forall_impl; [|exact Hall].
      intros c. apply asks_for_default; reflexivity.
  - exists []. split; [symmetry; apply app_nil_r | constructor].
Qed.

(** X29.  A task without a strategy name, or with a method that is none
    of [bayesian], [genetic] and [grid_search], is refused with a
    [ValueError] before any backtest or random draw is made. *)
Theorem optimize_strategy_refuses (op : OptimizeParams) (s : St world) :
  let method := match op_method op with Some m => m | None => "bayesian"%string end in
  op_strategy_name op = None \/ op_strategy_name op = Some ""%string
  \/ ~ In method ["bayesian"; "genetic"; "grid_search"]%string ->
  exists msg, optimize_strategy backtester L op s = (Raise (ValueError msg), s).
Proof.
  intros method H. unfold optimize_strategy. fold method.
  destruct (op_strategy_name op) as [name|]; [|eexists; reflexivity].
  destruct (String.eqb_spec name "") as [->|Hname]; [eexists; reflexivity|].
  destruct H as [H | [H | H]]; [discriminate | congruence |].
  destruct (String.eqb_spec method "bayesian") as [E|_];
    [exfalso; apply H; rewrite E; cbn; tauto|].
  destruct (String.eqb_spec method "genetic") as [E|_];
    [exfalso; apply H; rewrite E; cbn; tauto|].
  destruct (String.eqb_spec method "grid_search") as [E|_];
    [exfalso; apply H; rewrite E; cbn; tauto|].
  eexists. reflexivity.
Qed.

End EntryPoint.

Lemma optimize_strategy_refuses_witness :
  exists msg,
    optimize_strategy sample_service sample_oracles annealing_task start_state
    = (Raise (ValueError msg), start_state).
Proof.
  apply (optimize_strategy_refuses nat sample_service sample_oracles annealing_task
           start_state).
  right. right. cbn. intros [H | [H | [H | []]]]; discriminate.
Defined.

Lemma optimize_strategy_dated_task :
  map (fun c => (bp_start_date (fst c), bp_end_date (fst c)))
      (calls (snd (optimize_strategy sample_service sample_oracles dated_task
                     start_state)))
  = [ (19358, 19723); (19358, 19723); (19358, 19723); (19358, 19723) ]%Z.
Proof. vm_compute. reflexivity. Qed.

(** ** The comparison of strategies *)

Section ComparisonFacts.

Variable X : Extern.
Variable world : Type.
Variable market : string -> Z -> world -> result (list Bar) * world.
Variable py_sorted : forall A : Type, (A -> fl) -> bool -> list A -> list A.

(** The loop only appends to the results it starts from. *)
Lemma compare_loop_appends (symbol : string) (sd ed : Z)
    (strategies : list StrategyRequest) :
  forall results w res w',
    compare_loop X world market symbol sd ed strategies results w = (Ok res, w') ->
    exists extra, res = results ++ extra.
Proof.
  induction strategies as [|sc rest IH]; intros results w res w'; cbn [compare_loop].
  - intros H. injection H as <- _. exists []. symmetry. apply app_nil_r.
  - destruct (sq_name sc) as [name|]; [|discriminate].
    destruct (run_backtest X world market _ w) as [r w1].
    intros H. apply IH in H. destruct H as [extra ->].
    destruct (is_success r).
    + eexists. rewrite <- app_assoc. reflexivity.
    + exists extra. reflexivity.
Qed.

(** X30.  The strategy reported as [best_overall] is decided by the order
    of the request, not by the rankings: when the backtest of the first
    listed strategy succeeds and the comparison completes, that strategy is
    the best overall, whatever the metrics of the others and however
    [sorted] orders them. *)
Theorem compare_strategies_best_overall (cp : ComparisonParams) (w : world)
    (rep : ComparisonReport) (w' : world) (sc : StrategyRequest)
    (rest : list StrategyRequest) (name : string) :
  let symbol := match cp_symbol cp with Some s => s | None => "BTCUSDT"%string end in
  let start_date := match cp_start_date cp with Some d => d | None => 19358%Z end in
  let end_date := match cp_end_date cp with Some d => d | None => 19723%Z end in
  compare_strategies X world market py_sorted cp w = (ComparisonSuccess rep, w') ->
  cp_strategies cp = sc :: rest ->
  sq_name sc = Some name ->
  is_success (fst (run_backtest X world market
                     (comparison_request symbol start_date end_date name sc) w)) = true ->
  cr_best_overall rep = Some name
  /\ exists others,
       map ce_strategy_name (cr_comparison_results rep) = name :: others.
Proof.
  intros symbol sd ed. unfold compare_strategies. fold symbol. fold sd. fold ed.
  intros H Hs Hn Hok. rewrite Hs in H. cbn [compare_loop] in H. rewrite Hn in H.
  destruct (run_backtest X world market (comparison_request symbol sd ed name sc) w)
    as [r w1]. cbn [fst] in Hok. rewrite Hok in H. cbn [app] in H.
  destruct (compare_loop X world market symbol sd ed rest _ w1) as [[res|e] w2] eqn:E;
    [|discriminate].
  injection H as <- _. cbn [cr_best_overall cr_comparison_results].
  apply compare_loop_appends in E. destruct E as [extra ->]. cbn [app map].
  split; [reflexivity|]. eexists. reflexivity.
Qed.

End ComparisonFacts.

Lemma compare_strategies_best_overall_witness :
  exists rep w',
    compare_strategies sample_lib nat sample_market sample_sorted sample_comparison 0%nat
      = (ComparisonSuccess rep, w')
    /\ cr_best_overall rep = Some "ma_crossover"%string.
Proof.
  assert (E : exists rep w',
             compare_strategies sample_lib nat sample_market sample_sorted
               sample_comparison 0%nat = (ComparisonSuccess rep, w')).
  { eexists. eexists. vm_compute. reflexivity. }
  destruct E as [rep [w' E]]. exists rep, w'. split; [exact E|].
  apply (compare_strategies_best_overall sample_lib nat sample_market sample_sorted
           sample_comparison 0%nat rep w' _ _ "ma_crossover"%string E eq_refl eq_refl).
  vm_compute. reflexivity.
Defined.
